(** * One-step sulfonamide enumeration: plate maps, protocol analysis, merge

    A shallow embedding of the three command-line tools of the repository

      - [scripts/one-step-sulfonamide-enum96.py]   (module [Enum96])
      - [tools/opentrons_extract_destination_map.py] (module [Analyzer])
      - [tools/merge_authoritative_plate_map.py]   (module [Merger])

    together with the properties of their pipeline.  Python values are
    modelled by the data the code manipulates: integers as [nat] or [Z],
    [str] as [string] (a character is a code point below 256), [dict] as an
    insertion-ordered association list, a raised exception as the [Raise]
    branch of [result]. *)

From Stdlib Require Import ZArith List String Ascii Lia Bool Arith.
From Stdlib Require Import DecimalString DecimalNat DecimalN.
From Stdlib Require Import Sorted Permutation.
Import ListNotations.
Local Open Scope string_scope.
Local Open Scope list_scope.

Set Implicit Arguments.

(* ================================================================== *)
(** * Python base layer *)
(* ================================================================== *)

Module Py.

(** The exception classes the three tools can let escape. *)
Inductive exn : Type :=
| ValueError
| KeyError
| IndexError
| OverflowError
| ArgumentError       (* Boost.Python.ArgumentError, raised by RDKit wrappers *)
| ZeroDivisionError.

Inductive result (A : Type) : Type :=
| Ok (a : A)
| Raise (e : exn).

Arguments Ok {A} a.
Arguments Raise {A} e.

Definition bind {A B : Type} (r : result A) (k : A -> result B) : result B :=
  match r with
  | Ok a => k a
  | Raise e => Raise e
  end.

Definition is_ok {A : Type} (r : result A) : bool :=
  match r with Ok _ => true | Raise _ => false end.

(** [for x in xs: acc = f(acc, x)] where the body may raise. *)
Fixpoint for_each {A S : Type} (f : S -> A -> result S) (xs : list A) (s : S)
  : result S :=
  match xs with
  | [] => Ok s
  | x :: rest => bind (f s x) (for_each f rest)
  end.

(** [[f(x) for x in xs]] where [f] may raise. *)
Fixpoint map_result {A B : Type} (f : A -> result B) (xs : list A)
  : result (list B) :=
  match xs with
  | [] => Ok []
  | x :: rest =>
      bind (f x) (fun y => bind (map_result f rest) (fun ys => Ok (y :: ys)))
  end.

(** [str(n)] for a non-negative integer. *)
Definition str_of_nat (n : nat) : string :=
  NilZero.string_of_uint (Nat.to_uint n).

(** ** Characters and strings *)

(** [str.isspace()] and the regular-expression class [\s] on code points
    below 256: TAB..CR, FS..US, SPACE, NEL and NBSP. *)
Definition is_space (c : ascii) : bool :=
  let n := nat_of_ascii c in
  ((9 <=? n) && (n <=? 13) || (28 <=? n) && (n <=? 32)
   || (n =? 133) || (n =? 160))%nat.

(** The class [\d], and the digits [int()] accepts, below 256. *)
Definition is_digit (c : ascii) : bool :=
  let n := nat_of_ascii c in ((48 <=? n) && (n <=? 57))%nat.

(** The whitespace [int()] skips around a number: TAB..CR and SPACE, and
    NEL and NBSP, which it reads as spaces; FS..US are not skipped. *)
Definition is_int_space (c : ascii) : bool :=
  let n := nat_of_ascii c in
  ((9 <=? n) && (n <=? 13) || (n =? 32) || (n =? 133) || (n =? 160))%nat.

(** Dropping the leading, and the trailing, characters of a class. *)
Fixpoint lstrip_of (sp : ascii -> bool) (s : string) : string :=
  match s with
  | String c rest => if sp c then lstrip_of sp rest else s
  | EmptyString => EmptyString
  end.

Fixpoint rstrip_of (sp : ascii -> bool) (s : string) : string :=
  match s with
  | EmptyString => EmptyString
  | String c rest =>
      match rstrip_of sp rest with
      | EmptyString => if sp c then EmptyString else String c EmptyString
      | r => String c r
      end
  end.

(** [s.strip()] *)
Definition strip (s : string) : string := rstrip_of is_space (lstrip_of is_space s).

(** Every character of the string is a decimal digit. *)
Definition all_digits (s : string) : bool :=
  forallb is_digit (list_ascii_of_string s).

(** No character of the string is whitespace. *)
Definition no_space (s : string) : bool :=
  forallb (fun c => negb (is_space c)) (list_ascii_of_string s).

(** Truthiness of a [str]: [if s:] *)
Definition truthy (s : string) : bool :=
  match s with EmptyString => false | _ => true end.

Fixpoint repeat_char (c : ascii) (n : nat) : string :=
  match n with
  | O => EmptyString
  | S k => String c (repeat_char c k)
  end.

(** [s.zfill(width)] for a string of digits. *)
Definition zfill (width : nat) (s : string) : string :=
  (repeat_char "0"%char (width - String.length s) ++ s)%string.

Definition str_of_N (n : N) : string :=
  NilZero.string_of_uint (N.to_uint n).

(** The decimal text of an integer padded with zeros: sign first, then zero
    padding up to a total width of [width] characters. *)
Definition zero_padded (width : nat) (n : Z) : string :=
  match n with
  | Zneg p => String "-"%char (zfill (width - 1) (str_of_N (Npos p)))
  | _ => zfill width (str_of_N (Z.to_N n))
  end.

(** [sys.get_int_max_str_digits()]: converting an [int] to decimal text, or
    decimal text to an [int], raises [ValueError] beyond this many digits. *)
Definition max_str_digits : N := 4300.

(** The number of decimal digits of an integer. *)
Definition decimal_digits (n : Z) : N :=
  N.of_nat (String.length (str_of_N (Z.abs_N n))).

(** The format specification [{n:0Wd}] applied to an [int]. *)
Definition format_0d (width : nat) (n : Z) : result string :=
  if (decimal_digits n <=? max_str_digits)%N then Ok (zero_padded width n)
  else Raise ValueError.

(** The decimal text of an integer, as a CSV file holds it. *)
Definition str_of_Z (n : Z) : string := zero_padded 0 n.

(** ** Tables read by [pandas.read_csv]

    A cell is a missing value, an integer or a string.  (Floating-point
    cells other than the missing value are outside this model.) *)
Inductive cell : Type :=
| NaN
| IntV (n : Z)
| StrV (s : string).

(** [str(x)] for a cell *)
Definition str_of_cell (x : cell) : string :=
  match x with
  | NaN => "nan"
  | IntV n => str_of_Z n
  | StrV s => s
  end.

(** [pandas.isna(x)] *)
Definition isna (x : cell) : bool :=
  match x with NaN => true | _ => false end.

Definition cell_eqb (x y : cell) : bool :=
  match x, y with
  | NaN, NaN => true
  | IntV a, IntV b => Z.eqb a b
  | StrV a, StrV b => String.eqb a b
  | _, _ => false
  end.

(** A row maps column names to cells; a table is its column index and its
    rows, in order. *)
Definition row : Type := list (string * cell).

Record DataFrame : Type := mkDataFrame {
  columns : list string;
  rows : list row
}.

(** [c in cols] for a list of strings *)
Definition mem (c : string) (cols : list string) : bool :=
  existsb (String.eqb c) cols.

(** The position of the first occurrence of a string in a list. *)
Fixpoint index_of (c : string) (cols : list string) : option nat :=
  match cols with
  | [] => None
  | c' :: rest =>
      if String.eqb c c' then Some O
      else match index_of c rest with Some k => Some (S k) | None => None end
  end.

(** [c in df.columns] *)
Definition has_column (df : DataFrame) (c : string) : bool :=
  mem c (columns df).

(** The cell a row holds under a name (missing value when it holds none). *)
Fixpoint lookup (c : string) (r : row) : cell :=
  match r with
  | [] => NaN
  | (c', v) :: rest => if String.eqb c c' then v else lookup c rest
  end.

(** [row[c]] for a row of a table with columns [cols]; [KeyError] when the
    column is absent. *)
Definition row_get (cols : list string) (r : row) (c : string) : result cell :=
  if mem c cols then Ok (lookup c r) else Raise KeyError.

(** [df.iterrows()] on the default [RangeIndex]: positions paired with rows. *)
Definition iterrows (df : DataFrame) : list (nat * row) :=
  combine (seq 0 (List.length (rows df))) (rows df).

(** [df[c]]: the values of one column. *)
Definition column_values (df : DataFrame) (c : string) : result (list cell) :=
  if has_column df c then Ok (map (lookup c) (rows df)) else Raise KeyError.

(** [df[cols]]: the sub-table with the listed columns, in that order. *)
Definition select_columns (df : DataFrame) (cols : list string) : result DataFrame :=
  if forallb (has_column df) cols
  then Ok (mkDataFrame cols
             (map (fun r => map (fun c => (c, lookup c r)) cols) (rows df)))
  else Raise KeyError.

(** [df[c] = values]: replace the column, or append it as the last one. *)
Definition set_column (df : DataFrame) (c : string) (values : list cell)
  : DataFrame :=
  let cols := if has_column df c then columns df else columns df ++ [c] in
  mkDataFrame cols
    (map (fun rv : row * cell =>
            map (fun c' => (c', if String.eqb c' c then snd rv
                                else lookup c' (fst rv))) cols)
         (combine (rows df) values)).

(** ** [int(text)]

    Surrounding whitespace, one optional sign, then decimal digits in which
    single underscores may separate digits; at most [max_str_digits] digits,
    leading zeros counted. *)
Definition digit_value (c : ascii) : Z := Z.of_nat (nat_of_ascii c - 48).

Fixpoint digits_value (s : string) (acc : Z) (after_digit : bool) : option Z :=
  match s with
  | EmptyString => if after_digit then Some acc else None
  | String c rest =>
      if is_digit c then digits_value rest (10 * acc + digit_value c) true
      else if (Ascii.eqb c "_"%char && after_digit)%bool
           then digits_value rest acc false
           else None
  end.

Definition digit_count (s : string) : N :=
  N.of_nat (List.length (filter is_digit (list_ascii_of_string s))).

(** One optional sign, then the digits. *)
Definition int_literal (t : string) : option Z :=
  match t with
  | String "+"%char rest => digits_value rest 0 false
  | String "-"%char rest => option_map Z.opp (digits_value rest 0 false)
  | _ => digits_value t 0 false
  end.

Definition py_int (text : string) : result Z :=
  let t := rstrip_of is_int_space (lstrip_of is_int_space text) in
  match int_literal t with
  | Some v =>
      if (digit_count t <=? max_str_digits)%N then Ok v else Raise ValueError
  | None => Raise ValueError
  end.

(** The dtype of a column is numeric when none of its cells is text, and
    [object] otherwise.  [merge] refuses to join a text key column with a
    numeric one when both sides have rows. *)
Definition is_text (x : cell) : bool :=
  match x with StrV _ => true | _ => false end.

Definition numeric_dtype (values : list cell) : bool :=
  negb (existsb is_text values).

(** ** [series.astype(int)] on a column [read_csv] returned

    [read_csv] gives a column of integers the dtype [int64] when all of them
    fit, [uint64] when none is negative and all are below [2^64], and
    otherwise leaves it as text; with an empty field among integers that
    fit, the column is [float64].  The cast keeps an [int64] column, reads a
    [uint64] column modulo [2^64], refuses a missing value ([ValueError]),
    and converts a text column element by element with [int()], where a
    result outside [int64] is an [OverflowError]. *)
Definition int64_min : Z := -9223372036854775808.
Definition int64_max : Z := 9223372036854775807.
Definition uint64_max : Z := 18446744073709551615.

Definition in_int64 (n : Z) : bool := (int64_min <=? n)%Z && (n <=? int64_max)%Z.
Definition in_uint64 (n : Z) : bool := (0 <=? n)%Z && (n <=? uint64_max)%Z.

(** A [uint64] value read as [int64]. *)
Definition wrap_int64 (n : Z) : Z :=
  if (n <=? int64_max)%Z then n else (n - (uint64_max + 1))%Z.

Definition int_in (range : Z -> bool) (x : cell) : bool :=
  match x with IntV n => range n | _ => false end.

Definition int_value (x : cell) : Z :=
  match x with IntV n => n | _ => 0%Z end.

(** [int(x)] for an element of a text column, into a C [long]. *)
Definition int_of_object (x : cell) : result Z :=
  bind match x with
       | NaN => Raise ValueError
       | IntV n => py_int (str_of_Z n)
       | StrV s => py_int s
       end
       (fun n => if in_int64 n then Ok n else Raise OverflowError).

Definition astype_int (values : list cell) : result (list Z) :=
  if forallb (int_in in_int64) values then Ok (map int_value values)
  else if forallb (int_in in_uint64) values
  then Ok (map (fun x => wrap_int64 (int_value x)) values)
  else if forallb (fun x => isna x || int_in in_int64 x) values
  then Raise ValueError
  else map_result int_of_object values.

Definition nonempty {A : Type} (l : list A) : bool :=
  match l with [] => false | _ => true end.

Definition dtype_clash (lk rk : list cell) : bool :=
  nonempty lk && nonempty rk && xorb (numeric_dtype lk) (numeric_dtype rk).

(** ** [left.merge(right, on=keys, how="left")]

    Key columns must exist on both sides ([KeyError]); text keys cannot be
    merged with a numeric column ([ValueError]).  Each left row, in order,
    is paired with every right row holding equal keys, in order; a left row
    without partner is kept once, the columns of the right side missing.
    A column name other than a key that both sides carry is renamed with
    the suffixes [_x] and [_y]. *)
Definition keys_match (keys : list string) (l r : row) : bool :=
  forallb (fun k => cell_eqb (lookup k l) (lookup k r)) keys.

Definition merge_left (left right : DataFrame) (keys : list string)
  : result DataFrame :=
  if negb (forallb (has_column left) keys && forallb (has_column right) keys)
  then Raise KeyError
  else if existsb (fun k => dtype_clash (map (lookup k) (rows left))
                                        (map (lookup k) (rows right))) keys
  then Raise ValueError
  else
    let right_cols := filter (fun c => negb (mem c keys)) (columns right) in
    let overlap c := mem c (columns left) && mem c right_cols in
    let lname c := if overlap c then (c ++ "_x")%string else c in
    let rname c := if overlap c then (c ++ "_y")%string else c in
    let lpart (l : row) := map (fun c => (lname c, lookup c l)) (columns left) in
    let rpart (r : row) := map (fun c => (rname c, lookup c r)) right_cols in
    let missing_part := map (fun c => (rname c, NaN)) right_cols in
    Ok (mkDataFrame
          (map lname (columns left) ++ map rname right_cols)
          (flat_map
             (fun l =>
                match filter (keys_match keys l) (rows right) with
                | [] => [lpart l ++ missing_part]
                | partners => map (fun r => lpart l ++ rpart r) partners
                end)
             (rows left))).

(** ** [dict]: an association list in insertion order

    Assigning to a key that is present replaces its value in place;
    assigning to a new key appends it. *)
Section Dict.

Variable V : Type.

Definition dict : Type := list (string * V).

Fixpoint dict_get (k : string) (d : dict) : option V :=
  match d with
  | [] => None
  | (k', v) :: rest => if String.eqb k k' then Some v else dict_get k rest
  end.

Fixpoint dict_set (k : string) (v : V) (d : dict) : dict :=
  match d with
  | [] => [(k, v)]
  | (k', v') :: rest =>
      if String.eqb k k' then (k', v) :: rest else (k', v') :: dict_set k v rest
  end.

(** [d.keys()] *)
Definition dict_keys (d : dict) : list string := map fst d.

(** [d.setdefault(k, default)]: the value under [k], inserting [default]
    first when [k] is absent; returns the value and the dictionary. *)
Definition dict_setdefault (k : string) (default : V) (d : dict) : V * dict :=
  match dict_get k d with
  | Some v => (v, d)
  | None => (default, dict_set k default d)
  end.

End Dict.

(** ** [sorted(xs, key=f)] on keys that are pairs of integers: stable, and
    every key is computed before any comparison. *)
Definition key_leb (a b : Z * Z) : bool :=
  (fst a <? fst b)%Z || ((fst a =? fst b)%Z && (snd a <=? snd b)%Z).

Fixpoint insert_sorted {A : Type} (x : (Z * Z) * A) (l : list ((Z * Z) * A))
  : list ((Z * Z) * A) :=
  match l with
  | [] => [x]
  | y :: rest =>
      if key_leb (fst y) (fst x) then y :: insert_sorted x rest else x :: l
  end.

Definition sort_decorated {A : Type} (l : list ((Z * Z) * A)) : list ((Z * Z) * A) :=
  fold_left (fun acc x => insert_sorted x acc) l [].

Definition sorted_by {A : Type} (key : A -> result (Z * Z)) (xs : list A)
  : result (list A) :=
  bind (map_result key xs)
       (fun ks => Ok (map snd (sort_decorated (combine ks xs)))).

End Py.

Import Py.

Notation "x <- c1 ;; c2" := (Py.bind c1 (fun x => c2))
  (at level 61, c1 at next level, right associativity).

(* ================================================================== *)
(** * scripts/one-step-sulfonamide-enum96.py *)
(* ================================================================== *)

Module Enum96.

(** ** Plate utilities *)

Definition row_labels_96 : list string :=
  ["A"; "B"; "C"; "D"; "E"; "F"; "G"; "H"].

(** One record of the plate map: [{"Plate":..., "Row":..., "Col":..., "Well":...}]. *)
Record PlateRec : Type := mkPlateRec {
  Plate : nat;
  Row : string;
  Col : nat;
  Well : string
}.

(** [rows[r]]: indexing a list raises [IndexError] out of range; here [r]
    is a remainder modulo [len(rows)], so the default is never returned. *)
Definition rows_get (rows : list string) (r : nat) : string :=
  nth r rows "".

Section PlateGeometry.

(** The two locals that fix the geometry in [plate_assign_96]:
    [rows = row_labels_96()] and [n_cols = 12]. *)
Variable rows : list string.
Variable n_cols : nat.

Definition n_rows : nat := List.length rows.

(** Body of [for i in range(n)]; the loop state is [(recs, plate)].
    [%] and [//] raise [ZeroDivisionError] for a zero divisor. *)
Definition plate_assign_body (st : list PlateRec * nat) (i : nat)
  : result (list PlateRec * nat) :=
  let '(recs, plate) := st in
  if (n_rows * n_cols =? 0)%nat then Raise ZeroDivisionError else
  let idx := (i mod (n_rows * n_cols))%nat in
  if (n_rows =? 0)%nat then Raise ZeroDivisionError else
  let col := (idx / n_rows + 1)%nat in
  let r := (idx mod n_rows)%nat in
  let row := rows_get rows r in
  let well := (row ++ str_of_nat col)%string in
  let recs := recs ++ [mkPlateRec plate row col well] in
  let plate :=
    if ((i + 1) mod (n_rows * n_cols) =? 0)%nat then (plate + 1)%nat else plate in
  Ok (recs, plate).

Definition plate_assign (n : nat) : result (list PlateRec) :=
  st <- for_each plate_assign_body (seq 0 n) ([], 1%nat) ;;
  Ok (fst st).

End PlateGeometry.

Definition plate_assign_96 (n : nat) : result (list PlateRec) :=
  plate_assign row_labels_96 12 n.

(** The closed form the specification gives for [coordinateOf]:
    [column = (index mod capacity) div rows + 1],
    [row = (index mod capacity) mod rows], [plate = index div capacity + 1]. *)
Definition coordinate_of (rows : list string) (n_cols : nat) (i : nat) : PlateRec :=
  let capacity := (List.length rows * n_cols)%nat in
  let column := ((i mod capacity) / List.length rows + 1)%nat in
  let row := ((i mod capacity) mod List.length rows)%nat in
  let plate := (i / capacity + 1)%nat in
  mkPlateRec plate (rows_get rows row) column
             (rows_get rows row ++ str_of_nat column)%string.

(** ** Reaction oracle (RDKit)

    The chemistry library is external; its calls are taken as parameters.
    A molecule object is a value of [Mol]; the Python value [None] is the
    [None] of [option Mol]. *)

Record Reagent : Type := mkReagent {
  smiles : string;
  rid : string;
  name : string
}.

Definition OK_REACTION : string := "OK_REACTION".
Definition FALLBACK_COMBINEMOLS : string := "FALLBACK_COMBINEMOLS".

Section Oracle.

Variable Mol : Type.
(** [Chem.MolFromSmiles]: [None] when the text does not parse. *)
Variable MolFromSmiles : string -> option Mol.
(** [Chem.MolToSmiles(m, isomericSmiles=True)] *)
Variable MolToSmiles : Mol -> string.
(** [RXN_SULFONAMIDE.RunReactants((s, a))]: product sets, or an exception. *)
Variable RunReactants : Mol -> Mol -> result (list (list Mol)).
(** [Chem.SanitizeMol(p)]: the sanitized molecule, or [None] when it raises. *)
Variable SanitizeMol : Mol -> option Mol.
(** [Chem.CombineMols(s, a)] on two molecule objects. *)
Variable CombineMols : Mol -> Mol -> Mol.
(** [Chem.SanitizeMol(combo, catchErrors=True)] inside [try/except: pass]:
    the molecule as that call leaves it. *)
Variable SanitizeMol_catchErrors : Mol -> Mol.

(** The two nested [for] loops of [first_sanitized_product_smiles]: the first
    product, in order, whose sanitization does not raise. *)
Fixpoint first_sanitized (ps : list Mol) : option string :=
  match ps with
  | [] => None
  | p :: rest =>
      match SanitizeMol p with
      | Some p' => Some (MolToSmiles p')
      | None => first_sanitized rest
      end
  end.

(** A wrapped RDKit call given [None] for a molecule raises; inside
    [try: rxn.RunReactants(reactants) except Exception: return None] that
    becomes the result [None]. *)
Definition first_sanitized_product_smiles (reactants : option Mol * option Mol)
  : option string :=
  match reactants with
  | (Some s, Some a) =>
      match RunReactants s a with
      | Raise _ => None
      | Ok out_sets => first_sanitized (List.concat out_sets)
      end
  | _ => None
  end.

(** [Chem.CombineMols(s_mol, a_mol)] as called from Python: not guarded by
    any [try], and [None] is not a molecule. *)
Definition py_CombineMols (s_mol a_mol : option Mol) : result Mol :=
  match s_mol, a_mol with
  | Some s, Some a => Ok (CombineMols s a)
  | _, _ => Raise ArgumentError
  end.

Definition best_effort_product (s_mol a_mol : option Mol)
  : result (string * string) :=
  let smi := first_sanitized_product_smiles (s_mol, a_mol) in
  match smi with
  | Some smi' =>
      if truthy smi' then Ok (smi', OK_REACTION)
      else
        combo <- py_CombineMols s_mol a_mol ;;
        Ok (MolToSmiles (SanitizeMol_catchErrors combo), FALLBACK_COMBINEMOLS)
  | None =>
      combo <- py_CombineMols s_mol a_mol ;;
      Ok (MolToSmiles (SanitizeMol_catchErrors combo), FALLBACK_COMBINEMOLS)
  end.

(** ** Input loading *)

Definition _pick_smiles_col (df : DataFrame) : result string :=
  match filter (has_column df) ["SMILES"; "smiles"; "Smiles"] with
  | c :: _ => Ok c
  | [] => Raise ValueError
  end.

(** Body of [for i, row in df.iterrows()] in [load_reagents_csv].  The label
    [i] of a [RangeIndex] is a machine integer, far below the size at which
    [f"{i:06d}"] refuses to render. *)
Definition load_row (cols : list string) (smi_col : string)
    (id_col name_col : option string) (default_prefix : string)
    (reagents : list Reagent) (ir : nat * row) : result (list Reagent) :=
  let '(i, r) := ir in
  x <- row_get cols r smi_col ;;
  let smi_raw := strip (str_of_cell x) in
  match MolFromSmiles smi_raw with
  | None => Ok reagents
  | Some mol =>
      let smi := MolToSmiles mol in
      rid <- match id_col with
             | Some c => y <- row_get cols r c ;; Ok (strip (str_of_cell y))
             | None => Ok (default_prefix ++ zero_padded 6 (Z.of_nat i))%string
             end ;;
      nm <- match name_col with
            | Some c => y <- row_get cols r c ;; Ok (strip (str_of_cell y))
            | None => Ok rid
            end ;;
      Ok (reagents ++ [mkReagent smi rid nm])
  end.

(** [load_reagents_csv], from the table [pd.read_csv(path)] returned. *)
Definition load_reagents_csv (df : DataFrame) (preferred_id_col : string)
    (default_prefix : string) (strict_ids : bool) : result (list Reagent) :=
  smi_col <- _pick_smiles_col df ;;
  id_col <-
    (if has_column df preferred_id_col then Ok (Some preferred_id_col)
     else if has_column df "id" && negb strict_ids then Ok (Some "id")
     else if strict_ids then Raise ValueError
     else Ok None) ;;
  let name_col :=
    if has_column df "name" then Some "name"
    else if has_column df "Name" then Some "Name" else None in
  for_each (load_row (columns df) smi_col id_col name_col default_prefix)
           (iterrows df) [].

(** ** Enumeration *)

(** What the generator [enumerate_one_step] yields:
    [(ProductID, sulfonyl_reagent, amine_reagent, product_smiles, status)]. *)
Record Yielded : Type := mkYielded {
  y_pid : nat;
  y_s : Reagent;
  y_a : Reagent;
  y_smiles : string;
  y_status : string
}.

(** A run of a generator: the items yielded, in order, then either normal
    exhaustion ([None]) or the exception that ended it; and the value of the
    counter [pid] at that point. *)
Definition Run : Type := (list Yielded * option exn * nat)%type.

(** [for a in amines: ...] for one sulfonyl reagent. *)
Fixpoint enumerate_amines (s : Reagent) (s_mol : option Mol)
    (amines : list Reagent) (pid : nat) : Run :=
  match amines with
  | [] => ([], None, pid)
  | a :: rest =>
      let a_mol := MolFromSmiles (smiles a) in
      match best_effort_product s_mol a_mol with
      | Raise e => ([], Some e, pid)
      | Ok (prod_smi, status) =>
          let '(ys, e, pid') := enumerate_amines s s_mol rest (pid + 1) in
          (mkYielded pid s a prod_smi status :: ys, e, pid')
      end
  end.

(** [for s in sulfonyls: ...] *)
Fixpoint enumerate_sulfonyls (sulfonyls amines : list Reagent) (pid : nat) : Run :=
  match sulfonyls with
  | [] => ([], None, pid)
  | s :: rest =>
      let s_mol := MolFromSmiles (smiles s) in
      match enumerate_amines s s_mol amines pid with
      | (ys, Some e, pid') => (ys, Some e, pid')
      | (ys, None, pid') =>
          let '(ys', e, pid'') := enumerate_sulfonyls rest amines pid' in
          (ys ++ ys', e, pid'')
      end
  end.

Definition enumerate_one_step (sulfonyls amines : list Reagent)
  : list Yielded * option exn :=
  fst (enumerate_sulfonyls sulfonyls amines 0).

(** A reagent is accepted when its structure text parses, which is the test
    [load_reagents_csv] applies before it keeps a row. *)
Definition accepted (r : Reagent) : Prop := MolFromSmiles (smiles r) <> None.

(** ** Writers and CLI *)

(** The record [main] builds for one yielded product (the descriptor
    columns, which no later stage reads, are left out). *)
Definition product_record (y : Yielded) : row :=
  [("ProductID", IntV (Z.of_nat (y_pid y)));
   ("S_ID", StrV (rid (y_s y)));
   ("Amine_ID", StrV (rid (y_a y)));
   ("SMILES", StrV (y_smiles y));
   ("Status", StrV (y_status y))].

Definition product_columns : list string :=
  ["ProductID"; "S_ID"; "Amine_ID"; "SMILES"; "Status"].

(** [pd.DataFrame(products)] *)
Definition products_table (ys : list Yielded) : DataFrame :=
  mkDataFrame product_columns (map product_record ys).

(** One row of the plate map written by [write_outputs]: the plate record
    and, by position, the ProductID of the product table. *)
Record PlateMapRow : Type := mkPlateMapRow {
  pm_rec : PlateRec;
  pm_ProductID : nat
}.

(** [pm = pd.DataFrame(plate_assign_96(len(products)));
     pm["ProductID"] = df["ProductID"].values] *)
Definition plate_map (ys : list Yielded) : result (list PlateMapRow) :=
  recs <- plate_assign_96 (List.length ys) ;;
  Ok (map (fun p => mkPlateMapRow (fst p) (snd p)) (combine recs (map y_pid ys))).

(** What [main] produces when it gets as far as enumerating: the product
    table, the plate map, and the exit status. *)
Record Outputs : Type := mkOutputs {
  out_products : DataFrame;
  out_plate_map : list PlateMapRow;
  out_status : Z
}.

(** [main] after argument parsing, from the two reagent tables.  An empty
    reagent list ends the run with status 2 and no output; an exception of
    the generator ends it with that exception. *)
Definition main (df_sulfonyls df_amines : DataFrame) (strict_ids : bool)
  : result (option Outputs * Z) :=
  sulfonyls <- load_reagents_csv df_sulfonyls "S_ID" "S_" strict_ids ;;
  amines <- load_reagents_csv df_amines "Amine_ID" "A_" strict_ids ;;
  if negb (nonempty sulfonyls) || negb (nonempty amines) then Ok (None, 2%Z)
  else
    match enumerate_one_step sulfonyls amines with
    | (_, Some e) => Raise e
    | (ys, None) =>
        pm <- plate_map ys ;;
        Ok (Some (mkOutputs (products_table ys) pm 0), 0%Z)
    end.

End Oracle.

(** Not a function of the script: the arithmetic that recovers the index
    from a plate record, for the statement of what an inverse would be. *)
Definition arithmetic_index (rows : list string) (n_cols : nat) (r : PlateRec)
  : option nat :=
  match index_of (Row r) rows with
  | Some row =>
      Some ((Plate r - 1) * (List.length rows * n_cols)
            + (Col r - 1) * List.length rows + row)%nat
  | None => None
  end.

(** The functions the protocol file defines. *)
Definition protocol_defined_names : list string := ["run"].

(** The functions the script defines. *)
Definition defined_names : list string :=
  ["row_labels_96"; "plate_assign_96"; "first_sanitized_product_smiles";
   "best_effort_product"; "calc_descriptors"; "prep_for_sdf";
   "_pick_smiles_col"; "load_reagents_csv"; "enumerate_one_step";
   "write_outputs"; "parse_args"; "main"].

(** ** A small oracle for concrete runs

    Molecules are their own SMILES text; ["??"] does not parse; a sulfonyl
    chloride written with a leading ["ClS"] reacts with anything, giving one
    product set with one product. *)
Module Toy.

Definition Mol : Type := string.
Definition MolFromSmiles (s : string) : option Mol :=
  if String.eqb s "??" then None else Some s.
Definition MolToSmiles (m : Mol) : string := m.
Definition RunReactants (s a : Mol) : result (list (list Mol)) :=
  if String.prefix "ClS" s then Ok [[(a ++ String.substring 2 (String.length s) s)%string]]
  else Ok [].
Definition SanitizeMol (p : Mol) : option Mol := Some p.
Definition CombineMols (s a : Mol) : Mol := (s ++ "." ++ a)%string.
Definition SanitizeMol_catchErrors (m : Mol) : Mol := m.

Definition best_effort_product :=
  best_effort_product MolToSmiles RunReactants SanitizeMol CombineMols
                      SanitizeMol_catchErrors.
Definition enumerate_one_step :=
  enumerate_one_step MolFromSmiles MolToSmiles RunReactants SanitizeMol
                     CombineMols SanitizeMol_catchErrors.

Definition load_reagents_csv := load_reagents_csv MolFromSmiles MolToSmiles.
Definition main :=
  main MolFromSmiles MolToSmiles RunReactants SanitizeMol CombineMols
       SanitizeMol_catchErrors.

Definition S1 : Reagent := mkReagent "ClS(=O)(=O)C" "S_001" "mesyl chloride".
Definition S2 : Reagent := mkReagent "CC" "S_002" "ethane".
Definition A1 : Reagent := mkReagent "NC" "Amine_ID_001" "methylamine".
Definition A2 : Reagent := mkReagent "NCC" "Amine_ID_002" "ethylamine".
Definition Bad : Reagent := mkReagent "??" "S_003" "unparsable".

End Toy.

End Enum96.

(* ================================================================== *)
(** * tools/opentrons_extract_destination_map.py *)
(* ================================================================== *)

Module Analyzer.

(** ** Syntax trees, as [ast.parse] returns them

    One type for every node class the analyzer tests with [isinstance];
    any other class is [Other] with its child nodes in field order.
    Expression contexts and operators, which are leaves no test matches,
    are left out. *)
Inductive constant : Type :=
| CStr (s : string)
| CNum (n : Z)
| COther.

Unset Elimination Schemes.
Inductive node : Type :=
| FunctionDef (name : string) (args : node) (body : list node) (rest : list node)
| Assign (targets : list node) (value : node)
| Expr (value : node)
| Call (func : node) (args : list node) (keywords : list (option string * node))
| keyword (arg : option string) (value : node)
| Attribute (value : node) (attr : string)
| Subscript (value : node) (slice : node)
| Name (id : string)
| Constant (value : constant)
| List_ (elts : list node)
| Tuple (elts : list node)
| ListComp (elt : node) (generators : list (node * node * list node))
| comprehension (target : node) (iter : node) (ifs : list node)
| Other (children : list node).
Set Elimination Schemes.

(** [ast.iter_child_nodes] *)
Definition iter_child_nodes (n : node) : list node :=
  match n with
  | FunctionDef _ args body rest => args :: body ++ rest
  | Assign targets value => targets ++ [value]
  | Expr value => [value]
  | Call func args keywords =>
      func :: args ++ map (fun kw => keyword (fst kw) (snd kw)) keywords
  | keyword _ value => [value]
  | Attribute value _ => [value]
  | Subscript value slice => [value; slice]
  | Name _ => []
  | Constant _ => []
  | List_ elts => elts
  | Tuple elts => elts
  | ListComp elt generators =>
      elt :: map (fun g => comprehension (fst (fst g)) (snd (fst g)) (snd g))
                 generators
  | comprehension target iter ifs => target :: iter :: ifs
  | Other children => children
  end.

(** Number of nodes of a tree. *)
Fixpoint size (n : node) : nat :=
  S match n with
    | FunctionDef _ args body rest =>
        size args + list_sum (map size body) + list_sum (map size rest)
    | Assign targets value => list_sum (map size targets) + size value
    | Expr value => size value
    | Call func args keywords =>
        size func + list_sum (map size args)
        + list_sum (map (fun kw => S (size (snd kw))) keywords)
    | keyword _ value => size value
    | Attribute value _ => size value
    | Subscript value slice => size value + size slice
    | Name _ => O
    | Constant _ => O
    | List_ elts => list_sum (map size elts)
    | Tuple elts => list_sum (map size elts)
    | ListComp elt generators =>
        size elt
        + list_sum (map (fun g => S (size (fst (fst g)) + size (snd (fst g))
                                     + list_sum (map size (snd g))))
                        generators)
    | comprehension target iter ifs =>
        size target + size iter + list_sum (map size ifs)
    | Other children => list_sum (map size children)
    end%nat.

(** [ast.walk]: breadth first from a queue, a node's children appended as
    it is taken; the fuel is the number of nodes still to come. *)
Fixpoint walk_queue (fuel : nat) (todo : list node) : list node :=
  match fuel, todo with
  | S fuel', n :: queue => n :: walk_queue fuel' (queue ++ iter_child_nodes n)
  | _, _ => []
  end.

Definition walk (n : node) : list node := walk_queue (size n) [n].

(** ** Recognizers *)

Definition _const_str (n : node) : option string :=
  match n with
  | Constant (CStr s) => Some s
  | _ => None
  end.

(** [(base_name, well_str)] for [source_plate['A1']] *)
Definition _subscript_well (n : node) : option string * option string :=
  match n with
  | Subscript base sl =>
      let base_name := match base with Name id => Some id | _ => None end in
      match sl with
      | Constant (CStr s) => (base_name, Some s)
      | _ => (base_name, None)
      end
  | _ => (None, None)
  end.

(** Truthiness of an optional string: [None] and [""] are false. *)
Definition truthy_opt (o : option string) : bool :=
  match o with Some s => truthy s | None => false end.

(** [base != "source_plate" or not well] *)
Definition not_source_well (bw : option string * option string) : bool :=
  negb match fst bw with Some b => String.eqb b "source_plate" | None => false end
  || negb (truthy_opt (snd bw)).

(** ** The two display-name patterns

    [^Amine\s+(\d+)\s*$] and [^SulfonylCl\s+(\d+)\s*$], ignoring case:
    the word, at least one whitespace character, at least one digit, any
    trailing whitespace.  The result is group 1.  On the characters of this
    model, the code points below 256, ignoring case is ignoring the case of
    the letters [A]..[Z], and the class [\d] is the digits [0]..[9]; beyond
    them the patterns also accept the dotted and dotless i, the long s and
    the decimal digits of other scripts. *)
Definition lower (c : ascii) : ascii :=
  let n := nat_of_ascii c in
  if ((65 <=? n) && (n <=? 90))%nat then ascii_of_nat (n + 32) else c.

Fixpoint strip_prefix_ci (word s : string) : option string :=
  match word, s with
  | EmptyString, _ => Some s
  | String w word', String c s' =>
      if Ascii.eqb (lower w) (lower c) then strip_prefix_ci word' s' else None
  | String _ _, EmptyString => None
  end.

Fixpoint span (p : ascii -> bool) (s : string) : string * string :=
  match s with
  | String c rest =>
      if p c then let '(a, b) := span p rest in (String c a, b)
      else (EmptyString, s)
  | EmptyString => (EmptyString, EmptyString)
  end.

Definition match_numbered (word name : string) : option string :=
  match strip_prefix_ci word name with
  | None => None
  | Some rest =>
      let '(ws, rest1) := span is_space rest in
      let '(ds, rest2) := span is_digit rest1 in
      let '(_, rest3) := span is_space rest2 in
      if truthy ws && truthy ds && negb (truthy rest3) then Some ds else None
  end.

Definition RE_AMINE_match : string -> option string := match_numbered "Amine".
Definition RE_SULF_match : string -> option string := match_numbered "SulfonylCl".

(** ** The symbolic model *)

Inductive reagent_class : Type := amine | sulfonyl.

(** [{"class": ..., "num": ..., "name": ...}] *)
Record ReagentInfo : Type := mkReagentInfo {
  class : reagent_class;
  num : Z;
  name : string
}.

(** [{"liquid_var": ..., "volume": ...}] *)
Record SourceInfo : Type := mkSourceInfo {
  liquid_var : string;
  volume : option constant
}.

(** [{"src_well": ..., "dest_wells": ...}] *)
Record Transfer : Type := mkTransfer {
  src_well : string;
  dest_wells : list string
}.

(** One row of the destination map.  The two numbers start as the empty
    string, here [None], and become integers; the source wells start as
    the empty string. *)
Record DestRec : Type := mkDestRec {
  Well : string;
  Sulfonyl_chloride_no : option Z;
  Amine_no : option Z;
  Sulfonyl_source_well : string;
  Amine_source_well : string
}.

(** The value of the [name=] keyword: the last one wins, and one that is
    not a string literal resets it to [None]. *)
Definition keyword_name (keywords : list (option string * node)) : option string :=
  fold_left
    (fun name kw =>
       match fst kw with
       | Some a => if String.eqb a "name" then _const_str (snd kw) else name
       | None => name
       end)
    keywords None.

(** 1) reagent variables -> (class, num, name): loop body.  [int()] of the
    matched digits raises [ValueError] when there are too many of them. *)
Definition reagent_vars_body (reagent_vars : dict ReagentInfo) (stmt : node)
  : result (dict ReagentInfo) :=
  match stmt with
  | Assign [Name var] (Call (Attribute _ attr) _ keywords) =>
      if String.eqb attr "define_liquid" then
        match keyword_name keywords with
        | Some name =>
            if truthy name then
              match RE_AMINE_match name, RE_SULF_match name with
              | Some g, _ =>
                  num <- py_int g ;;
                  Ok (dict_set var (mkReagentInfo amine num name) reagent_vars)
              | None, Some g =>
                  num <- py_int g ;;
                  Ok (dict_set var (mkReagentInfo sulfonyl num name) reagent_vars)
              | None, None => Ok reagent_vars
              end
            else Ok reagent_vars
        | None => Ok reagent_vars
        end
      else Ok reagent_vars
  | _ => Ok reagent_vars
  end.

Definition build_reagent_vars (body : list node) : result (dict ReagentInfo) :=
  for_each reagent_vars_body body [].

(** The keywords [liquid=<name>] and [volume=<constant>] of a load. *)
Definition keyword_liquid (keywords : list (option string * node)) : option string :=
  fold_left
    (fun v kw =>
       match fst kw, snd kw with
       | Some a, Name id => if String.eqb a "liquid" then Some id else v
       | _, _ => v
       end)
    keywords None.

Definition keyword_volume (keywords : list (option string * node)) : option constant :=
  fold_left
    (fun v kw =>
       match fst kw, snd kw with
       | Some a, Constant c => if String.eqb a "volume" then Some c else v
       | _, _ => v
       end)
    keywords None.

(** 2) source well -> reagent var: loop body *)
Definition source_well_body (source_well_map : dict SourceInfo) (n : node)
  : dict SourceInfo :=
  match n with
  | Call (Attribute receiver attr) _ keywords =>
      if String.eqb attr "load_liquid" then
        let bw := _subscript_well receiver in
        if not_source_well bw then source_well_map
        else
          match snd bw, keyword_liquid keywords with
          | Some well, Some lv =>
              if truthy lv
              then dict_set well (mkSourceInfo lv (keyword_volume keywords))
                            source_well_map
              else source_well_map
          | _, _ => source_well_map
          end
      else source_well_map
  | _ => source_well_map
  end.

Definition build_source_well_map (run_node : node) : dict SourceInfo :=
  fold_left source_well_body (walk run_node) [].

(** [[s for s in (_const_str(e) for e in elts) if s]] *)
Definition literal_wells (elts : list node) : list string :=
  flat_map (fun e => match _const_str e with
                     | Some s => if truthy s then [s] else []
                     | None => []
                     end) elts.

(** 3) list vars: loop body *)
Definition dest_lists_body (dest_lists : dict (list string)) (stmt : node)
  : dict (list string) :=
  match stmt with
  | Assign [Name var] (ListComp _ ((_, iter, _) :: _)) =>
      match iter with
      | List_ elts | Tuple elts =>
          match literal_wells elts with
          | [] => dest_lists
          | wells => dict_set var wells dest_lists
          end
      | _ => dest_lists
      end
  | _ => dest_lists
  end.

Definition build_dest_lists (body : list node) : dict (list string) :=
  fold_left dest_lists_body body [].

(** 4) transfer calls: loop body *)
Definition transfers_body (dest_lists : dict (list string))
    (transfers : list Transfer) (stmt : node) : list Transfer :=
  match stmt with
  | Expr (Call (Attribute _ attr) (_ :: arg1 :: dest_arg :: _) _) =>
      if String.eqb attr "transfer" then
        let bw := _subscript_well arg1 in
        if not_source_well bw then transfers
        else
          let dest_wells :=
            match dest_arg with
            | Name id =>
                match dict_get id dest_lists with
                | Some wells => wells
                | None => []
                end
            | List_ elts => literal_wells elts
            | _ => []
            end in
          match snd bw, dest_wells with
          | Some src, _ :: _ => transfers ++ [mkTransfer src dest_wells]
          | _, _ => transfers
          end
      else transfers
  | _ => transfers
  end.

Definition build_transfers (dest_lists : dict (list string)) (body : list node)
  : list Transfer :=
  fold_left (transfers_body dest_lists) body [].

(** ** Fold into the destination map *)

Definition empty_rec (dw : string) : DestRec := mkDestRec dw None None "" "".

(** Body of [for dw in t["dest_wells"]]: [setdefault], then the in-place
    update of the record it returned. *)
Definition dest_well_body (rinfo : ReagentInfo) (src : string)
    (dest_map : dict DestRec) (dw : string) : dict DestRec :=
  let '(rec, dest_map) := dict_setdefault dw (empty_rec dw) dest_map in
  let rec :=
    match class rinfo with
    | sulfonyl =>
        mkDestRec (Well rec) (Some (num rinfo)) (Amine_no rec)
                  src (Amine_source_well rec)
    | amine =>
        mkDestRec (Well rec) (Sulfonyl_chloride_no rec) (Some (num rinfo))
                  (Sulfonyl_source_well rec) src
    end in
  dict_set dw rec dest_map.

(** Body of [for t in transfers] *)
Definition dest_map_body (source_well_map : dict SourceInfo)
    (reagent_vars : dict ReagentInfo) (dest_map : dict DestRec) (t : Transfer)
  : dict DestRec :=
  match dict_get (src_well t) source_well_map with
  | None => dest_map
  | Some src_info =>
      match dict_get (liquid_var src_info) reagent_vars with
      | None => dest_map
      | Some rinfo =>
          fold_left (dest_well_body rinfo (src_well t)) (dest_wells t) dest_map
      end
  end.

Definition build_dest_map (source_well_map : dict SourceInfo)
    (reagent_vars : dict ReagentInfo) (transfers : list Transfer) : dict DestRec :=
  fold_left (dest_map_body source_well_map reagent_vars) transfers [].

(** ** Output *)

(** ["ABCDEFGH".index(w[0].upper())]: below code point 256 only the letters
    [a]..[h] and [A]..[H] have an upper case among the eight row letters. *)
Definition row_order (c : ascii) : result Z :=
  let n := nat_of_ascii (lower c) in
  if ((97 <=? n) && (n <=? 104))%nat then Ok (Z.of_nat (n - 97))
  else Raise ValueError.

(** Column-major sort: A1,B1,...H1,A2,... *)
Definition _well_sort_key (w : string) : result (Z * Z) :=
  match w with
  | EmptyString => Raise IndexError
  | String row rest =>
      col <- py_int rest ;;
      row_order <- row_order row ;;
      Ok (col, row_order)
  end.

(** One row of the optional source layout. *)
Record SourceRow : Type := mkSourceRow {
  SourceWell : string;
  ReagentClass : option reagent_class;     (* [None] is ["unknown"] *)
  ReagentNumber : option Z;                (* [None] is [""] *)
  ReagentName : string;
  Volume_uL : option constant
}.

Definition source_row (reagent_vars : dict ReagentInfo)
    (wd : string * SourceInfo) : SourceRow :=
  let '(well, d) := wd in
  match dict_get (liquid_var d) reagent_vars with
  | Some rinfo =>
      mkSourceRow well (Some (class rinfo)) (Some (num rinfo)) (name rinfo)
                  (volume d)
  | None => mkSourceRow well None None (liquid_var d) (volume d)
  end.

(** The first top-level [def run]. *)
Fixpoint find_run (tree_body : list node) : option node :=
  match tree_body with
  | [] => None
  | FunctionDef name args body rest :: more =>
      if String.eqb name "run" then Some (FunctionDef name args body rest)
      else find_run more
  | _ :: more => find_run more
  end.

Definition body_of (run_node : node) : list node :=
  match run_node with
  | FunctionDef _ _ body _ => body
  | _ => []
  end.

(** The recovered transfers of a [run] procedure (steps 3 and 4). *)
Definition recovered_transfers (run_node : node) : list Transfer :=
  build_transfers (build_dest_lists (body_of run_node)) (body_of run_node).

(** The destination map of a [run] procedure before it is sorted, from the
    reagent variables of step 1. *)
Definition dest_map_of (run_node : node) (reagent_vars : dict ReagentInfo)
  : dict DestRec :=
  build_dest_map (build_source_well_map run_node) reagent_vars
                 (recovered_transfers run_node).

(** The output stage: the optional source layout, and the destination rows
    sorted column-major. *)
Definition emit (reagent_vars : dict ReagentInfo)
    (source_well_map : dict SourceInfo) (dest_map : dict DestRec)
  : result (list DestRec * list SourceRow) :=
  let source_rows := map (source_row reagent_vars) source_well_map in
  ws <- sorted_by _well_sort_key (dict_keys dest_map) ;;
  let dest_rows :=
    flat_map (fun w => match dict_get w dest_map with
                       | Some rec => [rec]
                       | None => []
                       end) ws in
  Ok (dest_rows, source_rows).

(** [parse_protocol], from the body of the module [ast.parse] returned. *)
Definition parse_protocol (tree_body : list node)
  : result (list DestRec * list SourceRow) :=
  match find_run tree_body with
  | None => Raise ValueError
  | Some run_node =>
      reagent_vars <- build_reagent_vars (body_of run_node) ;;
      emit reagent_vars (build_source_well_map run_node)
           (dest_map_of run_node reagent_vars)
  end.

(** ** Output file *)

(** The destination layout as [main] writes it with [csv.DictWriter] and as
    [pandas.read_csv] reads it back: an empty field is a missing value. *)
Definition opt_int_cell (o : option Z) : cell :=
  match o with Some n => IntV n | None => NaN end.

Definition text_cell (s : string) : cell :=
  match s with EmptyString => NaN | _ => StrV s end.

Definition layout_row (rec : DestRec) : row :=
  [("Well", text_cell (Well rec));
   ("Sulfonyl chloride #", opt_int_cell (Sulfonyl_chloride_no rec));
   ("Amine #", opt_int_cell (Amine_no rec));
   ("Sulfonyl source well", text_cell (Sulfonyl_source_well rec));
   ("Amine source well", text_cell (Amine_source_well rec))].

Definition destination_layout (dest_rows : list DestRec) : DataFrame :=
  mkDataFrame
    ["Well"; "Sulfonyl chloride #"; "Amine #"; "Sulfonyl source well";
     "Amine source well"]
    (map layout_row dest_rows).

(** The functions the script defines. *)
Definition defined_names : list string :=
  ["_const_str"; "_subscript_well"; "_well_sort_key"; "parse_protocol";
   "write_csv"; "main"].

(** ** Notions used to state the properties *)

(** The reagent a transfer resolves to: its source well through the loads,
    then the loaded variable through the bindings. *)
Definition resolve (source_well_map : dict SourceInfo)
    (reagent_vars : dict ReagentInfo) (t : Transfer) : option ReagentInfo :=
  match dict_get (src_well t) source_well_map with
  | None => None
  | Some src_info => dict_get (liquid_var src_info) reagent_vars
  end.

Definition resolved (source_well_map : dict SourceInfo)
    (reagent_vars : dict ReagentInfo) (t : Transfer) : bool :=
  match resolve source_well_map reagent_vars t with
  | Some _ => true
  | None => false
  end.

(** One write of the fold: destination well, reagent, source well. *)
Definition Contribution : Type := (string * ReagentInfo * string)%type.

Definition c_well (c : Contribution) : string := fst (fst c).
Definition c_reagent (c : Contribution) : ReagentInfo := snd (fst c).
Definition c_source (c : Contribution) : string := snd c.

Definition contributions_of (source_well_map : dict SourceInfo)
    (reagent_vars : dict ReagentInfo) (t : Transfer) : list Contribution :=
  match resolve source_well_map reagent_vars t with
  | Some rinfo => map (fun dw => (dw, rinfo, src_well t)) (dest_wells t)
  | None => []
  end.

Definition contributions (source_well_map : dict SourceInfo)
    (reagent_vars : dict ReagentInfo) (ts : list Transfer) : list Contribution :=
  flat_map (contributions_of source_well_map reagent_vars) ts.

Definition apply_contribution (dest_map : dict DestRec) (c : Contribution)
  : dict DestRec :=
  dest_well_body (c_reagent c) (c_source c) dest_map (c_well c).

(** What one write does to the record of its well. *)
Definition update_rec (c : Contribution) (rec : DestRec) : DestRec :=
  match class (c_reagent c) with
  | sulfonyl =>
      mkDestRec (Well rec) (Some (num (c_reagent c))) (Amine_no rec)
                (c_source c) (Amine_source_well rec)
  | amine =>
      mkDestRec (Well rec) (Sulfonyl_chloride_no rec)
                (Some (num (c_reagent c))) (Sulfonyl_source_well rec) (c_source c)
  end.

Definition rec_or_empty (w : string) (o : option DestRec) : DestRec :=
  match o with Some rec => rec | None => empty_rec w end.

(** A statement that binds [var] to a liquid whose display name is the
    string literal [display]. *)
Definition defines (stmt : node) (var display : string) : Prop :=
  exists receiver args keywords,
    stmt = Assign [Name var] (Call (Attribute receiver "define_liquid") args keywords)
    /\ keyword_name keywords = Some display.

Definition class_eqb (a b : reagent_class) : bool :=
  match a, b with
  | amine, amine | sulfonyl, sulfonyl => true
  | _, _ => false
  end.

Definition writes (cls : reagent_class) (w : string) (c : Contribution) : bool :=
  String.eqb (c_well c) w && class_eqb (class (c_reagent c)) cls.

(** The last write of a class to a well, if any: number and source well. *)
Definition last_write (cls : reagent_class) (w : string) (cs : list Contribution)
  : option (Z * string) :=
  fold_left (fun acc c => if writes cls w c
                          then Some (num (c_reagent c), c_source c) else acc)
            cs None.

Definition source_or_empty (o : option (Z * string)) : string :=
  match o with Some p => snd p | None => "" end.

(** The entry a well ends with, given all writes in order. *)
Definition entry_of (w : string) (cs : list Contribution) : option DestRec :=
  if existsb (fun c => String.eqb (c_well c) w) cs
  then Some (mkDestRec w
               (option_map fst (last_write sulfonyl w cs))
               (option_map fst (last_write amine w cs))
               (source_or_empty (last_write sulfonyl w cs))
               (source_or_empty (last_write amine w cs)))
  else None.

Definition wells_truthy (ws : list string) : Prop :=
  Forall (fun w => truthy w = true) ws.

(** A label of the 8-row plate form: a row letter [A]..[H] in either case,
    then text [int()] accepts. *)
Definition row_letter (c : ascii) : bool :=
  mem (String c EmptyString)
      ["A"; "B"; "C"; "D"; "E"; "F"; "G"; "H";
       "a"; "b"; "c"; "d"; "e"; "f"; "g"; "h"].

Definition plate_label (w : string) : bool :=
  match w with
  | EmptyString => false
  | String c rest => row_letter c && is_ok (py_int rest)
  end.

(** ** A small protocol

<<
def run(protocol):
    amine_1 = protocol.define_liquid(name='Amine 1')
    sulfonyl_1 = protocol.define_liquid(name='SulfonylCl 1')
    sulfonyl_2 = protocol.define_liquid(name='sulfonylcl  2 ')
    buffer = protocol.define_liquid(name='Buffer 1')
    source_plate['A1'].load_liquid(liquid=amine_1, volume=50)
    source_plate['A2'].load_liquid(liquid=sulfonyl_1, volume=50)
    source_plate['B2'].load_liquid(liquid=sulfonyl_2, volume=50)
    source_plate['A3'].load_liquid(liquid=buffer, volume=50)
    sulfonyl_dest_1 = [dest_plate.wells_by_name()[well] for well in ['B1', 'A1']]
    left_pipette.transfer(5, source_plate['A2'], sulfonyl_dest_1, new_tip='once')
    left_pipette.transfer(5, source_plate['A1'], ['A1', 'A2'])
    left_pipette.transfer(5, source_plate['A3'], ['C1'])
    left_pipette.transfer(5, source_plate['A4'], ['D1'])
    <extra>
>> *)
Module Example.

Definition str (s : string) : node := Constant (CStr s).
Definition attr_call (receiver : node) (attr : string) (args : list node)
    (kws : list (string * node)) : node :=
  Call (Attribute receiver attr) args (map (fun kw => (Some (fst kw), snd kw)) kws).

Definition define (var display : string) : node :=
  Assign [Name var]
    (attr_call (Name "protocol") "define_liquid" [] [("name", str display)]).

Definition load (well var : string) : node :=
  Expr (attr_call (Subscript (Name "source_plate") (str well)) "load_liquid" []
          [("liquid", Name var); ("volume", Constant (CNum 50))]).

Definition dest_list (var : string) (wells : list string) : node :=
  Assign [Name var]
    (ListComp
       (Subscript (Call (Attribute (Name "dest_plate") "wells_by_name") [] [])
                  (Name "well"))
       [(Name "well", List_ (map str wells), [])]).

Definition transfer_to (src : string) (dest : node) : node :=
  Expr (attr_call (Name "left_pipette") "transfer"
          [Constant (CNum 5); Subscript (Name "source_plate") (str src); dest] []).

Definition transfer (src : string) (wells : list string) : node :=
  transfer_to src (List_ (map str wells)).

Definition run_body (extra : list node) : list node :=
  [ define "amine_1" "Amine 1";
    define "sulfonyl_1" "SulfonylCl 1";
    define "sulfonyl_2" "sulfonylcl  2 ";
    define "buffer" "Buffer 1";
    load "A1" "amine_1";
    load "A2" "sulfonyl_1";
    load "B2" "sulfonyl_2";
    load "A3" "buffer";
    dest_list "sulfonyl_dest_1" ["B1"; "A1"];
    transfer_to "A2" (Name "sulfonyl_dest_1");
    transfer "A1" ["A1"; "A2"];
    transfer "A3" ["C1"];
    transfer "A4" ["D1"] ] ++ extra.

Definition run_node (extra : list node) : node :=
  FunctionDef "run" (Other []) (run_body extra) [].

Definition tree_body (extra : list node) : list node :=
  [Other []; run_node extra].

End Example.

(** ** The repository's protocol, [opentrons/protocols/one-step-dispense.py] *)
Module Dispense.

Definition str (s : string) : node := Constant (CStr s).

Definition call (receiver attr : string) (args : list node)
    (kws : list (string * node)) : node :=
  Call (Attribute (Name receiver) attr) args
       (map (fun kw => (Some (fst kw), snd kw)) kws).

Definition load_labware (var name slot : string) (label : list node) : node :=
  Assign [Name var] (call "protocol" "load_labware" (str name :: str slot :: label) []).

Definition define (var display color : string) : node :=
  Assign [Name var]
    (call "protocol" "define_liquid" []
       [("name", str display); ("description", str display);
        ("display_color", str color)]).

Definition load (well var : string) : node :=
  Expr (Call (Attribute (Subscript (Name "source_plate") (str well)) "load_liquid")
             [] [(Some "liquid", Name var); (Some "volume", Constant (CNum 50))]).

Definition dest_list (var : string) (wells : list string) : node :=
  Assign [Name var]
    (ListComp
       (Subscript (Call (Attribute (Name "dest_plate") "wells_by_name") [] [])
                  (Name "well"))
       [(Name "well", List_ (map str wells), [])]).

Definition transfer (src var tip : string) : node :=
  Expr (call "left_pipette" "transfer"
          [Name "transfer_vol"; Subscript (Name "source_plate") (str src); Name var]
          [("new_tip", str tip)]).

Definition setup : list node :=
  [ Assign [Name "trash"] (call "protocol" "load_trash_bin" [str "A3"] []);
    load_labware "source_plate" "greiner_96_wellplate_200ul" "D1" [str "Source Plate"];
    load_labware "dest_plate" "greiner_96_wellplate_200ul" "D2" [str "Destination Plate"];
    load_labware "tiprack_1" "opentrons_flex_96_filtertiprack_50ul" "C1" [];
    load_labware "tiprack_2" "opentrons_flex_96_filtertiprack_50ul" "C2" [];
    load_labware "tiprack_3" "opentrons_flex_96_filtertiprack_50ul" "C3" [];
    Assign [Name "left_pipette"]
      (call "protocol" "load_instrument" [str "flex_1channel_50"]
         [("mount", str "left");
          ("tip_racks", List_ [Name "tiprack_1"; Name "tiprack_2"])]);
    Assign [Name "right_pipette"]
      (call "protocol" "load_instrument" [str "flex_8channel_50"]
         [("mount", str "right"); ("tip_racks", List_ [Name "tiprack_3"])]) ].

Definition liquids_and_transfers : list node :=
  [ define "amine_1" "Amine 1" "#FF0000";
    define "amine_2" "Amine 2" "#FF3300";
    define "amine_3" "Amine 3" "#FF6600";
    define "amine_4" "Amine 4" "#FF9900";
    define "amine_5" "Amine 5" "#FFCC00";
    define "amine_6" "Amine 6" "#FFFF00";
    define "amine_7" "Amine 7" "#CCFF00";
    define "amine_8" "Amine 8" "#99FF00";
    define "sulfonyl_1" "SulfonylCl 1" "#0000FF";
    define "sulfonyl_2" "SulfonylCl 2" "#0033FF";
    define "sulfonyl_3" "SulfonylCl 3" "#0066FF";
    define "sulfonyl_4" "SulfonylCl 4" "#0099FF";
    define "sulfonyl_5" "SulfonylCl 5" "#00CCFF";
    define "sulfonyl_6" "SulfonylCl 6" "#00FFFF";
    define "sulfonyl_7" "SulfonylCl 7" "#00FFCC";
    define "sulfonyl_8" "SulfonylCl 8" "#00FF99";
    define "sulfonyl_9" "SulfonylCl 9" "#00FF66";
    define "sulfonyl_10" "SulfonylCl 10" "#00FF33";
    define "sulfonyl_11" "SulfonylCl 11" "#00FF00";
    define "sulfonyl_12" "SulfonylCl 12" "#33FF00";
    load "A1" "amine_1";
    load "B1" "amine_2";
    load "C1" "amine_3";
    load "D1" "amine_4";
    load "E1" "amine_5";
    load "F1" "amine_6";
    load "G1" "amine_7";
    load "H1" "amine_8";
    load "A2" "sulfonyl_1";
    load "B2" "sulfonyl_2";
    load "C2" "sulfonyl_3";
    load "D2" "sulfonyl_4";
    load "E2" "sulfonyl_5";
    load "F2" "sulfonyl_6";
    load "G2" "sulfonyl_7";
    load "H2" "sulfonyl_8";
    load "A3" "sulfonyl_9";
    load "B3" "sulfonyl_10";
    load "C3" "sulfonyl_11";
    load "D3" "sulfonyl_12";
    Assign [Name "transfer_vol"] (Constant (CNum 5));
    dest_list "sulfonyl_dest_1" ["A1"; "A2"; "A3"; "A4"; "A5"; "A6"; "A7"; "A8"];
    transfer "A2" "sulfonyl_dest_1" "once";
    dest_list "sulfonyl_dest_2" ["A9"; "A10"; "A11"; "A12"; "B1"; "B2"; "B3"; "B4"];
    transfer "B2" "sulfonyl_dest_2" "once";
    dest_list "sulfonyl_dest_3" ["B5"; "B6"; "B7"; "B8"; "B9"; "B10"; "B11"; "B12"];
    transfer "C2" "sulfonyl_dest_3" "once";
    dest_list "sulfonyl_dest_4" ["C1"; "C2"; "C3"; "C4"; "C5"; "C6"; "C7"; "C8"];
    transfer "D2" "sulfonyl_dest_4" "once";
    dest_list "sulfonyl_dest_5" ["C9"; "C10"; "C11"; "C12"; "D1"; "D2"; "D3"; "D4"];
    transfer "E2" "sulfonyl_dest_5" "once";
    dest_list "sulfonyl_dest_6" ["D5"; "D6"; "D7"; "D8"; "D9"; "D10"; "D11"; "D12"];
    transfer "F2" "sulfonyl_dest_6" "once";
    dest_list "sulfonyl_dest_7" ["E1"; "E2"; "E3"; "E4"; "E5"; "E6"; "E7"; "E8"];
    transfer "G2" "sulfonyl_dest_7" "once";
    dest_list "sulfonyl_dest_8" ["E9"; "E10"; "E11"; "E12"; "F1"; "F2"; "F3"; "F4"];
    transfer "H2" "sulfonyl_dest_8" "once";
    dest_list "sulfonyl_dest_9" ["F5"; "F6"; "F7"; "F8"; "F9"; "F10"; "F11"; "F12"];
    transfer "A3" "sulfonyl_dest_9" "once";
    dest_list "sulfonyl_dest_10" ["G1"; "G2"; "G3"; "G4"; "G5"; "G6"; "G7"; "G8"];
    transfer "B3" "sulfonyl_dest_10" "once";
    dest_list "sulfonyl_dest_11" ["G9"; "G10"; "G11"; "G12"; "H1"; "H2"; "H3"; "H4"];
    transfer "C3" "sulfonyl_dest_11" "once";
    dest_list "sulfonyl_dest_12" ["H5"; "H6"; "H7"; "H8"; "H9"; "H10"; "H11"; "H12"];
    transfer "D3" "sulfonyl_dest_12" "once";
    dest_list "amine_dest_1" ["A8"; "B4"; "B12"; "C8"; "D4"; "D12"; "E8"; "F4"; "F12"; "G8"; "H4"; "H12"];
    transfer "A1" "amine_dest_1" "always";
    dest_list "amine_dest_2" ["A7"; "B3"; "B11"; "C7"; "D3"; "D11"; "E7"; "F3"; "F11"; "G7"; "H3"; "H11"];
    transfer "B1" "amine_dest_2" "always";
    dest_list "amine_dest_3" ["A6"; "B2"; "B10"; "C6"; "D2"; "D10"; "E6"; "F2"; "F10"; "G6"; "H2"; "H10"];
    transfer "C1" "amine_dest_3" "always";
    dest_list "amine_dest_4" ["A5"; "B1"; "B9"; "C5"; "D1"; "D9"; "E5"; "F1"; "F9"; "G5"; "H1"; "H9"];
    transfer "D1" "amine_dest_4" "always";
    dest_list "amine_dest_5" ["A4"; "A12"; "B8"; "C4"; "C12"; "D8"; "E4"; "E12"; "F8"; "G4"; "G12"; "H8"];
    transfer "E1" "amine_dest_5" "always";
    dest_list "amine_dest_6" ["A3"; "A11"; "B7"; "C3"; "C11"; "D7"; "E3"; "E11"; "F7"; "G3"; "G11"; "H7"];
    transfer "F1" "amine_dest_6" "always";
    dest_list "amine_dest_7" ["A2"; "A10"; "B6"; "C2"; "C10"; "D6"; "E2"; "E10"; "F6"; "G2"; "G10"; "H6"];
    transfer "G1" "amine_dest_7" "always";
    dest_list "amine_dest_8" ["A1"; "A9"; "B5"; "C1"; "C9"; "D5"; "E1"; "E9"; "F5"; "G1"; "G9"; "H5"];
    transfer "H1" "amine_dest_8" "always" ].

Definition run_node : node :=
  FunctionDef "run"
    (Other [Other [Attribute (Name "protocol_api") "ProtocolContext"]])
    (setup ++ liquids_and_transfers) [].

(** The module: the import, the two dictionaries, then [run]. *)
Definition tree_body : list node :=
  [ Other [Other []];
    Assign [Name "metadata"]
      (Other [str "protocolName"; str "author"; str "description"; str "source";
              str "Reagent Transfer - Amine and SulfonylCl Combinations";
              str "OpentronsAI";
              str "Transfer two reagent classes to create 96 unique combinations";
              str "OpentronsAI"]);
    Assign [Name "requirements"]
      (Other [str "robotType"; str "apiLevel"; str "Flex"; str "2.25"]);
    run_node ].

End Dispense.

End Analyzer.

(* ================================================================== *)
(** * tools/merge_authoritative_plate_map.py *)
(* ================================================================== *)

Module Merger.

Definition s_id (n : Z) : result string :=
  t <- format_0d 3 n ;; Ok ("S_" ++ t)%string.

Definition amine_id (n : Z) : result string :=
  t <- format_0d 3 n ;; Ok ("Amine_ID_" ++ t)%string.

Definition out_cols : list string :=
  ["Well"; "Sulfonyl chloride #"; "Amine #"; "Sulfonyl source well";
   "Amine source well"; "S_ID"; "Amine_ID"; "ProductID"; "SMILES"; "Status"].

(** [df[col].astype(int).map(f)] *)
Definition normalize (df : DataFrame) (col : string) (f : Z -> result string)
  : result (list cell) :=
  values <- column_values df col ;;
  numbers <- astype_int values ;;
  map_result (fun n => key <- f n ;; Ok (StrV key)) numbers.

(** What [main] hands to the outside: the merged table written to [--out],
    the lines of the QC report, and the process exit status. *)
Record Outcome : Type := mkOutcome {
  merged : DataFrame;
  qc_lines : list string;
  exit_status : Z
}.

(** [dfm[dfm["SMILES"].isna()]] *)
Definition smiles_missing (r : row) : bool := isna (lookup "SMILES" r).

Definition missing_rows (dfm : DataFrame) : list row :=
  filter smiles_missing (rows dfm).

(** The lines of the QC report. *)
Definition qc_report (dfm : DataFrame) : list string :=
  let missing := missing_rows dfm in
  let n_total := List.length (rows dfm) in
  let n_missing := List.length missing in
  [("Total wells: " ++ str_of_nat n_total)%string;
   ("Missing SMILES: " ++ str_of_nat n_missing)%string]
  ++ (if (n_missing =? 0)%nat then []
      else "Missing rows (Well, S_ID, Amine_ID):"
           :: map (fun r =>
                     ("  " ++ str_of_cell (lookup "Well" r) ++ ", "
                      ++ str_of_cell (lookup "S_ID" r) ++ ", "
                      ++ str_of_cell (lookup "Amine_ID" r))%string)
                  missing).

(** [1 if n_missing else 0] *)
Definition status_of (n_missing : nat) : Z :=
  if (n_missing =? 0)%nat then 0%Z else 1%Z.

(** [main], from the two tables [pd.read_csv] returned. *)
Definition main (df_dest df_prod : DataFrame) : result Outcome :=
  sids <- normalize df_dest "Sulfonyl chloride #" s_id ;;
  let df_dest := set_column df_dest "S_ID" sids in
  aids <- normalize df_dest "Amine #" amine_id ;;
  let df_dest := set_column df_dest "Amine_ID" aids in
  let keep_cols_prod :=
    filter (fun c => mem c ["ProductID"; "S_ID"; "Amine_ID"; "SMILES"; "Status"])
           (columns df_prod) in
  df_keep <- select_columns df_prod keep_cols_prod ;;
  dfm <- merge_left df_dest df_keep ["S_ID"; "Amine_ID"] ;;
  dfm <- select_columns dfm out_cols ;;
  Ok (mkOutcome dfm (qc_report dfm) (status_of (List.length (missing_rows dfm)))).

(** The functions the script defines. *)
Definition defined_names : list string := ["s_id"; "amine_id"; "main"].

(** ** Notions used to state the properties *)

(** The columns of a destination map as the analyzer writes it. *)
Definition dest_columns : list string :=
  ["Well"; "Sulfonyl chloride #"; "Amine #"; "Sulfonyl source well";
   "Amine source well"].

(** The columns of a product table that are not join keys. *)
Definition product_fields : list string := ["ProductID"; "SMILES"; "Status"].

(** The integer a cell of a number column stands for: an integer within
    [int64], or text that [int()] reads as one. *)
Definition int_cell (x : cell) : option Z :=
  match x with
  | NaN => None
  | IntV n => if in_int64 n then Some n else None
  | StrV s =>
      match py_int s with
      | Ok n => if in_int64 n then Some n else None
      | Raise _ => None
      end
  end.

(** The integer [astype(int)] gives such a cell. *)
Definition cast_value (x : cell) : Z :=
  match int_cell x with Some n => n | None => 0%Z end.

(** The integer a destination row holds under a column. *)
Definition number (l : row) (col : string) : Z := cast_value (lookup col l).

(** The two keys of a destination row: the prefix, then the number in
    decimal, padded with zeros to three digits. *)
Definition dest_S_ID (l : row) : cell :=
  StrV ("S_" ++ zero_padded 3 (number l "Sulfonyl chloride #")).
Definition dest_Amine_ID (l : row) : cell :=
  StrV ("Amine_ID_" ++ zero_padded 3 (number l "Amine #")).

(** The product rows whose keys equal the rendered keys of a destination row. *)
Definition partners (df_prod : DataFrame) (l : row) : list row :=
  filter (fun p => cell_eqb (dest_S_ID l) (lookup "S_ID" p)
                   && cell_eqb (dest_Amine_ID l) (lookup "Amine_ID" p))
         (rows df_prod).

(** The cell of the merged row of a destination row and its partner, if any. *)
Definition merged_cell (l : row) (o : option row) (c : string) : cell :=
  if String.eqb c "S_ID" then dest_S_ID l
  else if String.eqb c "Amine_ID" then dest_Amine_ID l
  else if mem c dest_columns then lookup c l
  else if mem c product_fields then
         match o with Some p => lookup c p | None => NaN end
  else NaN.

Definition merged_row (l : row) (o : option row) : row :=
  map (fun c => (c, merged_cell l o c)) out_cols.

Definition merged_rows (df_dest df_prod : DataFrame) : list row :=
  flat_map (fun l => match partners df_prod l with
                     | [] => [merged_row l None]
                     | ps => map (fun p => merged_row l (Some p)) ps
                     end)
           (rows df_dest).

(** A destination map as the analyzer writes it, every row carrying both
    reagent numbers, each within [int64]. *)
Definition dest_complete (df_dest : DataFrame) : Prop :=
  columns df_dest = dest_columns /\
  forall l, In l (rows df_dest) ->
    int_cell (lookup "Sulfonyl chloride #" l) <> None /\
    int_cell (lookup "Amine #" l) <> None.

(** A product table as the enumerator writes it: its five columns first,
    then any others, and text in the two ID columns. *)
Definition product_table (df_prod : DataFrame) : Prop :=
  (exists extra,
      columns df_prod = Enum96.product_columns ++ extra /\
      forallb (fun c => negb (mem c Enum96.product_columns)) extra = true) /\
  forall p, In p (rows df_prod) ->
    is_text (lookup "S_ID" p) = true /\ is_text (lookup "Amine_ID" p) = true.

(** The destination table after the two key columns are added, and the
    product table reduced to its five columns. *)
Definition cols2 : list string := dest_columns ++ ["S_ID"; "Amine_ID"].

Definition row2 (l : row) : row :=
  map (fun c => (c, merged_cell l None c)) cols2.

Definition rowp (p : row) : row :=
  map (fun c => (c, lookup c p)) Enum96.product_columns.

(** The join key of a product row. *)
Definition product_key (p : row) : cell * cell :=
  (lookup "S_ID" p, lookup "Amine_ID" p).

(** The destination rows no product matches. *)
Definition unmatched (df_dest df_prod : DataFrame) : list row :=
  filter (fun l => negb (nonempty (partners df_prod l))) (rows df_dest).

(** ** Small tables *)
Module Example.

Definition dest : DataFrame :=
  Analyzer.destination_layout
    [Analyzer.mkDestRec "A1" (Some 1%Z) (Some 1%Z) "A2" "A1";
     Analyzer.mkDestRec "B1" (Some 1%Z) (Some 2%Z) "A2" "B1"].

Definition product (pid : Z) (s a smi : string) : row :=
  [("ProductID", IntV pid); ("S_ID", StrV s); ("Amine_ID", StrV a);
   ("SMILES", StrV smi); ("Status", StrV "OK_REACTION"); ("MolWt", NaN)].

Definition products : DataFrame :=
  mkDataFrame (Enum96.product_columns ++ ["MolWt"])
    [product 0 "S_001" "Amine_ID_001" "CNS(C)(=O)=O";
     product 1 "S_002" "Amine_ID_001" "CNS(=O)(=O)CC"].

(** The same product table with the pair [(S_001, Amine_ID_001)] twice, as
    two reagent rows sharing the ID [S_001] produce it. *)
Definition products_twice : DataFrame :=
  mkDataFrame (Enum96.product_columns ++ ["MolWt"])
    [product 0 "S_001" "Amine_ID_001" "CNS(C)(=O)=O";
     product 1 "S_001" "Amine_ID_001" "CNS(=O)(=O)CC"].

End Example.

End Merger.

(* ================================================================== *)
(** * Further notions used to state properties *)
(* ================================================================== *)

Module Notions.

(** Lexicographic order on sort keys [(col, row_order)], as Python compares
    tuples. *)
Definition key_le (a b : Z * Z) : Prop := key_leb a b = true.

(** The sort key of a label that has one. *)
Definition key_of (w : string) : Z * Z :=
  match Analyzer._well_sort_key w with
  | Ok k => k
  | Raise _ => (0%Z, 0%Z)
  end.

Definition key_eqb (a b : Z * Z) : bool :=
  (fst a =? fst b)%Z && (snd a =? snd b)%Z.

(** The labels of a list that have a given sort key, in their order. *)
Definition with_key (k : Z * Z) (ws : list string) : list string :=
  filter (fun w => key_eqb (key_of w) k) ws.

(** A node of the tree below [n], [n] included. *)
Inductive descendant : Analyzer.node -> Analyzer.node -> Prop :=
| desc_refl (n : Analyzer.node) : descendant n n
| desc_child (n c d : Analyzer.node) :
    In c (Analyzer.iter_child_nodes n) -> descendant c d -> descendant n d.

(** The call [source_plate['<well>'].load_liquid(..., liquid=<lv>, ...)]. *)
Definition is_load (n : Analyzer.node) (well lv : string) : Prop :=
  exists args keywords,
    n = Analyzer.Call
          (Analyzer.Attribute
             (Analyzer.Subscript (Analyzer.Name "source_plate")
                                 (Analyzer.Constant (Analyzer.CStr well)))
             "load_liquid")
          args keywords
    /\ Analyzer.keyword_liquid keywords = Some lv.

(** A top-level [def run]. *)
Definition is_run (n : Analyzer.node) : bool :=
  match n with
  | Analyzer.FunctionDef name _ _ _ => String.eqb name "run"
  | _ => false
  end.

(** Every character of the string is whitespace. *)
Definition all_space (s : string) : bool :=
  forallb is_space (list_ascii_of_string s).

(** The string with its letters [A]..[Z] in lower case. *)
Fixpoint lower_string (s : string) : string :=
  match s with
  | EmptyString => EmptyString
  | String c rest => String (Analyzer.lower c) (lower_string rest)
  end.

(** A display name of the form the patterns [^<word>\s+(\d+)\s*$] accept
    when case is ignored: the word in any case, whitespace, the digits
    [ds], optional whitespace. *)
Definition numbered_name (word name ds : string) : Prop :=
  exists pre ws trail,
    name = (pre ++ ws ++ ds ++ trail)%string /\
    lower_string pre = lower_string word /\
    all_space ws = true /\ truthy ws = true /\
    all_digits ds = true /\ truthy ds = true /\
    all_space trail = true.

(** A statement that is neither an assignment nor an expression statement:
    [for], [if], [with], [def], ... *)
Definition compound (stmt : Analyzer.node) : bool :=
  match stmt with
  | Analyzer.Assign _ _ | Analyzer.Expr _ => false
  | _ => true
  end.

(** The order [sorted] compares decorated items by, and the items that
    carry a given key. *)
Definition dec_le {A : Type} (x y : (Z * Z) * A) : Prop :=
  key_leb (fst x) (fst y) = true.

Definition has_key {A : Type} (k : Z * Z) (x : (Z * Z) * A) : bool :=
  key_eqb (fst x) k.

(** How a run of the generator [enumerate_one_step] ends, given the pairs it
    has not yielded: normally when none is left, or with [ArgumentError] at a
    pair one of whose reagents is not accepted. *)
Definition run_end (accepted : Enum96.Reagent -> Prop) (e : option exn)
    (rest : list (Enum96.Reagent * Enum96.Reagent)) : Prop :=
  match e with
  | None => rest = []
  | Some ex =>
      ex = ArgumentError /\
      exists s a rest', rest = (s, a) :: rest' /\ (~ accepted s \/ ~ accepted a)
  end.

(** The SMILES column [_pick_smiles_col] finds, if any. *)
Definition smiles_column (df : DataFrame) : option string :=
  match filter (has_column df) ["SMILES"; "smiles"; "Smiles"] with
  | c :: _ => Some c
  | [] => None
  end.

(** The text of a row [load_reagents_csv] hands to the structure parser. *)
Definition smiles_text (smi_col : string) (r : row) : string :=
  strip (str_of_cell (lookup smi_col r)).

(** The ID [load_reagents_csv] gives the row at position [fst ir]: the
    stripped text of the ID column, or the prefix and the position. *)
Definition parsed_id (id_col : option string) (default_prefix : string)
    (ir : nat * row) : string :=
  match id_col with
  | Some c => strip (str_of_cell (lookup c (snd ir)))
  | None => (default_prefix ++ zero_padded 6 (Z.of_nat (fst ir)))%string
  end.

(** The ID generated for the row at position [i]. *)
Definition generated_id (default_prefix : string) (i : nat) : string :=
  (default_prefix ++ zero_padded 6 (Z.of_nat i))%string.

(** [int(key[len(prefix):])]: the number a reagent key was rendered from. *)
Definition key_number (prefix key : string) : result Z :=
  py_int (String.substring (String.length prefix)
                           (String.length key - String.length prefix) key).

(** A destination row that carries both reagent numbers. *)
Definition both_numbers (rec : Analyzer.DestRec) : Prop :=
  Analyzer.Sulfonyl_chloride_no rec <> None /\ Analyzer.Amine_no rec <> None.

(** A destination row whose reagent numbers, where it carries them, are
    within [int64]. *)
Definition numbers_in_int64 (rec : Analyzer.DestRec) : Prop :=
  (forall s, Analyzer.Sulfonyl_chloride_no rec = Some s -> in_int64 s = true) /\
  (forall a, Analyzer.Amine_no rec = Some a -> in_int64 a = true).

(** The row-major position [A1, A2, ..., A12, B1, ...] of the well that has
    the column-major position [i] on a plate of 8 rows and 12 columns. *)
Definition row_major_position (i : nat) : nat := (12 * (i mod 8) + i / 8)%nat.

End Notions.

(* ================================================================== *)
(** * Properties *)
(* ================================================================== *)

Import Enum96.

(** Case analysis on the shape of a statement: split the variables a
    [match] is stuck on until the branch is decided. *)
Ltac split_shape :=
  repeat first
    [ left; reflexivity
    | match goal with
      | |- context [match ?x with _ => _ end] => is_var x; destruct x
      end ].

(** ** Plate assignment *)

Lemma for_each_app (A S : Type) (f : S -> A -> result S) (xs ys : list A) (s : S) :
  for_each f (xs ++ ys) s = bind (for_each f xs s) (for_each f ys).
Proof.
  revert s; induction xs as [|x xs IH]; intros s; simpl; [reflexivity|].
  destruct (f s x) as [s'|e]; simpl; [apply IH | reflexivity].
Qed.

Lemma bind_ok (A B : Type) (r : result A) (k : A -> result B) (b : B) :
  bind r k = Ok b -> exists a, r = Ok a /\ k a = Ok b.
Proof. destruct r as [a|e]; simpl; [eauto | discriminate]. Qed.

Lemma plate_counter_step (c i : nat) :
  (0 < c)%nat ->
  (if ((i + 1) mod c =? 0)%nat then (i / c + 1 + 1)%nat else (i / c + 1)%nat)
  = ((i + 1) / c + 1)%nat.
Proof.
  intros Hc.
  pose proof (Nat.div_mod_eq i c) as Hi.
  pose proof (Nat.div_mod_eq (i + 1) c) as Hi1.
  pose proof (Nat.mod_upper_bound i c ltac:(lia)) as Bi.
  pose proof (Nat.mod_upper_bound (i + 1) c ltac:(lia)) as Bi1.
  destruct ((i + 1) mod c =? 0)%nat eqn:E.
  - apply Nat.eqb_eq in E.
    assert ((i + 1) / c = i / c + 1)%nat; [|lia].
    nia.
  - apply Nat.eqb_neq in E.
    assert ((i + 1) / c = i / c)%nat; [|lia].
    nia.
Qed.

Lemma plate_assign_loop (rows : list string) (n_cols n : nat) :
  rows <> [] -> (0 < n_cols)%nat ->
  for_each (plate_assign_body rows n_cols) (seq 0 n) ([], 1%nat)
  = Ok (map (coordinate_of rows n_cols) (seq 0 n),
        (n / (List.length rows * n_cols) + 1)%nat).
Proof.
  intros Hrows Hcols.
  assert (Hr : (0 < List.length rows)%nat) by (destruct rows; simpl; [congruence | lia]).
  assert (Hcap : (0 < List.length rows * n_cols)%nat) by nia.
  induction n as [|n IH].
  - simpl. rewrite Nat.div_small by lia. reflexivity.
  - rewrite seq_S, for_each_app, IH. simpl.
    unfold plate_assign_body, n_rows.
    destruct (List.length rows * n_cols =? 0)%nat eqn:E1;
      [apply Nat.eqb_eq in E1; lia|].
    destruct (List.length rows =? 0)%nat eqn:E2;
      [apply Nat.eqb_eq in E2; lia|].
    rewrite map_app. simpl.
    rewrite plate_counter_step by lia.
    replace (S n) with (n + 1)%nat by lia.
    reflexivity.
Qed.

(** C3. For every geometry with at least one row and one column, and every
    [n], the plate map computed by the loop of [plate_assign_96] is, index by
    index, the column-major arithmetic
    [column = (i mod capacity) div rows + 1], [row = (i mod capacity) mod rows],
    [plate = i div capacity + 1]; it never raises; and every multiple
    [k * capacity] of the capacity starts plate [k + 1] at column 1 on the
    first row.  [plate_assign_96], the instance with 8 rows and 12 columns,
    returns these records for the indices [0..n-1]. *)
Theorem C3_plate_assign_column_major :
  forall (rows : list string) (n_cols n : nat),
    rows <> [] -> (0 < n_cols)%nat ->
    let capacity := (List.length rows * n_cols)%nat in
    (exists recs,
        plate_assign rows n_cols n = Ok recs /\
        List.length recs = n /\
        forall i, (i < n)%nat ->
          exists r, nth_error recs i = Some r /\
            Col r = ((i mod capacity) / List.length rows + 1)%nat /\
            Row r = rows_get rows ((i mod capacity) mod List.length rows) /\
            Plate r = (i / capacity + 1)%nat /\
            Well r = (Row r ++ str_of_nat (Col r))%string) /\
    (forall k,
        Plate (coordinate_of rows n_cols (k * capacity)) = (k + 1)%nat /\
        Col (coordinate_of rows n_cols (k * capacity)) = 1%nat /\
        Row (coordinate_of rows n_cols (k * capacity)) = rows_get rows 0) /\
    plate_assign_96 n = Ok (map (coordinate_of row_labels_96 12) (seq 0 n)).
Proof.
  intros rows n_cols n Hrows Hcols capacity.
  assert (Hr : (0 < List.length rows)%nat) by (destruct rows; simpl; [congruence | lia]).
  assert (Hcap : (0 < capacity)%nat) by (unfold capacity; nia).
  split; [|split].
  - exists (map (coordinate_of rows n_cols) (seq 0 n)).
    split; [|split].
    + unfold plate_assign. rewrite plate_assign_loop by assumption. reflexivity.
    + rewrite length_map, length_seq. reflexivity.
    + intros i Hi. exists (coordinate_of rows n_cols i).
      split.
      * rewrite nth_error_map, nth_error_seq.
        destruct (Nat.ltb_spec i n); [reflexivity | lia].
      * unfold coordinate_of; simpl. fold capacity. repeat split.
  - intros k. unfold coordinate_of; simpl. fold capacity.
    rewrite Nat.Div0.mod_mul, Nat.div_mul by lia.
    rewrite Nat.Div0.mod_0_l, Nat.Div0.div_0_l.
    repeat split.
  - unfold plate_assign_96, plate_assign.
    rewrite plate_assign_loop by (discriminate || lia). reflexivity.
Qed.

Lemma C3_witness :
  let rows := row_labels_96 in
  let n_cols := 12%nat in
  let n := 100%nat in
  rows <> [] /\ (0 < n_cols)%nat /\
  exists recs, plate_assign rows n_cols n = Ok recs /\ List.length recs = n.
Proof.
  intros rows n_cols n.
  assert (H1 : rows <> []) by (unfold rows, row_labels_96; congruence).
  assert (H2 : (0 < n_cols)%nat) by (unfold n_cols; lia).
  split; [exact H1 | split; [exact H2 |]].
  destruct (C3_plate_assign_column_major n H1 H2) as [[recs [E [L _]]] _].
  exists recs. split; [exact E | exact L].
Defined.

(** ** Enumeration *)

Section EnumerationProofs.

Variable Mol : Type.
Variable MolFromSmiles : string -> option Mol.
Variable MolToSmiles : Mol -> string.
Variable RunReactants : Mol -> Mol -> result (list (list Mol)).
Variable SanitizeMol : Mol -> option Mol.
Variable CombineMols : Mol -> Mol -> Mol.
Variable SanitizeMol_catchErrors : Mol -> Mol.

Let bep := best_effort_product MolToSmiles RunReactants SanitizeMol
                               CombineMols SanitizeMol_catchErrors.
Let en_amines := enumerate_amines MolFromSmiles MolToSmiles RunReactants
                   SanitizeMol CombineMols SanitizeMol_catchErrors.
Let en_sulfonyls := enumerate_sulfonyls MolFromSmiles MolToSmiles RunReactants
                      SanitizeMol CombineMols SanitizeMol_catchErrors.

Let accepted := accepted MolFromSmiles.

Lemma best_effort_product_parsed (s a : Mol) :
  exists smi status,
    bep (Some s) (Some a) = Ok (smi, status) /\
    (status = OK_REACTION \/ status = FALLBACK_COMBINEMOLS) /\
    (status = FALLBACK_COMBINEMOLS ->
     smi = MolToSmiles (SanitizeMol_catchErrors (CombineMols s a))).
Proof.
  unfold bep, best_effort_product.
  destruct (first_sanitized_product_smiles _ _ _ _) as [smi|].
  - destruct (truthy smi) eqn:T.
    + exists smi, OK_REACTION. split; [reflexivity|]. split; [now left|].
      unfold OK_REACTION, FALLBACK_COMBINEMOLS. discriminate.
    + simpl. eexists _, _. split; [reflexivity|]. split; [now right | reflexivity].
  - simpl. eexists _, _. split; [reflexivity|]. split; [now right | reflexivity].
Qed.

Lemma enumerate_amines_accepted (s : Reagent) (ms : Mol) (amines : list Reagent) :
  Forall accepted amines ->
  forall pid, exists ys,
    en_amines s (Some ms) amines pid = (ys, None, (pid + List.length amines)%nat) /\
    map y_pid ys = seq pid (List.length amines) /\
    map (fun y => (y_s y, y_a y)) ys = map (pair s) amines /\
    Forall (fun y => y_status y = OK_REACTION \/ y_status y = FALLBACK_COMBINEMOLS) ys.
Proof.
  induction 1 as [|a amines Ha _ IH]; intros pid.
  - exists []. simpl. rewrite Nat.add_0_r. repeat split; constructor.
  - unfold accepted in Ha.
    destruct (MolFromSmiles (smiles a)) as [ma|] eqn:Ea; [|congruence].
    destruct (best_effort_product_parsed ms ma) as (smi & st & Eb & Hst & _).
    destruct (IH (pid + 1)%nat) as (ys & E & Hp & Hsa & Hs).
    exists (mkYielded pid s a smi st :: ys).
    unfold en_amines in *; simpl. rewrite Ea. fold bep. rewrite Eb, E. simpl.
    split; [f_equal; lia|].
    split; [f_equal; rewrite Hp; f_equal; lia|].
    split; [f_equal; exact Hsa|].
    constructor; assumption.
Qed.

Lemma enumerate_sulfonyls_accepted (sulfonyls amines : list Reagent) :
  Forall accepted sulfonyls -> Forall accepted amines ->
  forall pid, exists ys,
    en_sulfonyls sulfonyls amines pid
      = (ys, None, (pid + List.length sulfonyls * List.length amines)%nat) /\
    map y_pid ys = seq pid (List.length sulfonyls * List.length amines) /\
    map (fun y => (y_s y, y_a y)) ys = list_prod sulfonyls amines /\
    Forall (fun y => y_status y = OK_REACTION \/ y_status y = FALLBACK_COMBINEMOLS) ys.
Proof.
  intros HS HA. induction HS as [|s sulfonyls Hs _ IH]; intros pid.
  - exists []. simpl. rewrite Nat.add_0_r. repeat split; constructor.
  - unfold accepted in Hs.
    destruct (MolFromSmiles (smiles s)) as [ms|] eqn:Es; [|congruence].
    destruct (enumerate_amines_accepted s ms HA pid) as (ys & E & Hp & Hsa & Hst).
    destruct (IH (pid + List.length amines)%nat) as (ys' & E' & Hp' & Hsa' & Hst').
    exists (ys ++ ys').
    unfold en_sulfonyls, en_amines in *; simpl. rewrite Es, E, E'.
    split; [f_equal; lia|].
    split; [rewrite map_app, Hp, Hp', seq_app; reflexivity|].
    split; [rewrite map_app, Hsa, Hsa'; reflexivity|].
    apply Forall_app; split; assumption.
Qed.

(** Without any assumption on the reagents: what has been yielded when the
    generator stops is a prefix of the row-major pairs, numbered from the
    starting value of [pid] without gap; and it is all of them when the
    generator is exhausted normally. *)
Lemma enumerate_amines_prefix (s : Reagent) (s_mol : option Mol) (amines : list Reagent) :
  forall pid ys e pid',
    en_amines s s_mol amines pid = (ys, e, pid') ->
    pid' = (pid + List.length ys)%nat /\
    map y_pid ys = seq pid (List.length ys) /\
    exists rest,
      map (pair s) amines = map (fun y => (y_s y, y_a y)) ys ++ rest /\
      (e = None -> rest = []).
Proof.
  induction amines as [|a amines IH]; intros pid ys e pid' H;
    unfold en_amines in *; simpl in H.
  - injection H as <- <- <-. split; [simpl; lia|]. split; [reflexivity|].
    exists []. split; [reflexivity | reflexivity].
  - fold bep in H. destruct (bep s_mol (MolFromSmiles (smiles a))) as [[smi st]|ex].
    + destruct (enumerate_amines MolFromSmiles MolToSmiles RunReactants SanitizeMol
                  CombineMols SanitizeMol_catchErrors s s_mol amines (pid + 1))
        as [[ys1 e1] p1] eqn:E1.
      injection H as <- <- <-.
      destruct (IH _ _ _ _ E1) as (Hp & Hids & rest & Hrest & Hnone).
      split; [simpl; lia|].
      split; [simpl; f_equal; rewrite Hids; f_equal; lia|].
      exists rest. split; [simpl; f_equal; exact Hrest | exact Hnone].
    + injection H as <- <- <-. split; [simpl; lia|]. split; [reflexivity|].
      exists (map (pair s) (a :: amines)). split; [reflexivity | discriminate].
Qed.

Lemma enumerate_sulfonyls_prefix (sulfonyls amines : list Reagent) :
  forall pid ys e pid',
    en_sulfonyls sulfonyls amines pid = (ys, e, pid') ->
    pid' = (pid + List.length ys)%nat /\
    map y_pid ys = seq pid (List.length ys) /\
    exists rest,
      list_prod sulfonyls amines = map (fun y => (y_s y, y_a y)) ys ++ rest /\
      (e = None -> rest = []).
Proof.
  induction sulfonyls as [|s sulfonyls IH]; intros pid ys e pid' H;
    unfold en_sulfonyls in *; simpl in H.
  - injection H as <- <- <-. split; [simpl; lia|]. split; [reflexivity|].
    exists []. split; reflexivity.
  - destruct (enumerate_amines MolFromSmiles MolToSmiles RunReactants SanitizeMol
                CombineMols SanitizeMol_catchErrors s (MolFromSmiles (smiles s))
                amines pid) as [[ys1 e1] p1] eqn:E1.
    destruct (enumerate_amines_prefix _ _ _ _ E1) as (Hp1 & Hids1 & rest1 & Hrest1 & Hnone1).
    destruct e1 as [ex|].
    + injection H as <- <- <-. split; [exact Hp1|]. split; [exact Hids1|].
      exists (rest1 ++ list_prod sulfonyls amines).
      split; [|discriminate].
      change (list_prod (s :: sulfonyls) amines)
        with (map (pair s) amines ++ list_prod sulfonyls amines).
      rewrite Hrest1, app_assoc. reflexivity.
    + destruct (enumerate_sulfonyls MolFromSmiles MolToSmiles RunReactants SanitizeMol
                  CombineMols SanitizeMol_catchErrors sulfonyls amines p1)
        as [[ys2 e2] p2] eqn:E2.
      injection H as <- <- <-.
      destruct (IH _ _ _ _ E2) as (Hp2 & Hids2 & rest2 & Hrest2 & Hnone2).
      rewrite (Hnone1 eq_refl), app_nil_r in Hrest1.
      split; [rewrite length_app; lia|].
      split; [rewrite map_app, length_app, seq_app, Hids1, Hids2, Hp1; reflexivity|].
      exists rest2.
      split; [|exact Hnone2].
      change (list_prod (s :: sulfonyls) amines)
        with (map (pair s) amines ++ list_prod sulfonyls amines).
      rewrite Hrest1, Hrest2, map_app, app_assoc. reflexivity.
Qed.

Lemma nth_error_list_prod (A B : Type) (l : list A) (l' : list B) (i j : nat) (x : A) (y : B) :
  nth_error l i = Some x -> nth_error l' j = Some y ->
  nth_error (list_prod l l') (i * List.length l' + j) = Some (x, y).
Proof.
  revert i; induction l as [|a l IH]; intros i Hx Hy.
  - destruct i; discriminate.
  - assert (Hj : (j < List.length l')%nat) by (apply nth_error_Some; congruence).
    destruct i as [|i]; simpl in *.
    + injection Hx as ->.
      rewrite nth_error_app1 by (rewrite length_map; exact Hj).
      rewrite nth_error_map, Hy. reflexivity.
    + rewrite nth_error_app2 by (rewrite length_map; lia).
      rewrite length_map.
      replace (List.length l' + i * List.length l' + j - List.length l')%nat
        with (i * List.length l' + j)%nat by lia.
      apply IH; assumption.
Qed.

(** The input boundary: when the canonical text of a parsed structure parses
    again, every reagent [load_reagents_csv] returns is accepted. *)
Lemma for_each_invariant (A S : Type) (P : S -> Prop) (f : S -> A -> result S)
    (xs : list A) :
  (forall s x s', P s -> f s x = Ok s' -> P s') ->
  forall s s', P s -> for_each f xs s = Ok s' -> P s'.
Proof.
  intros Hstep. induction xs as [|x xs IH]; intros s s' Hs H; simpl in H.
  - congruence.
  - destruct (f s x) as [s1|e] eqn:E; [|discriminate].
    exact (IH s1 s' (Hstep s x s1 Hs E) H).
Qed.

Lemma load_row_accepted (cols : list string) (smi_col : string)
    (id_col name_col : option string) (default_prefix : string)
    (reagents reagents' : list Reagent) (ir : nat * row) :
  (forall m, MolFromSmiles (MolToSmiles m) <> None) ->
  Forall accepted reagents ->
  load_row MolFromSmiles MolToSmiles cols smi_col id_col name_col default_prefix
           reagents ir = Ok reagents' ->
  Forall accepted reagents'.
Proof.
  intros Hcanon Hacc. unfold load_row. destruct ir as [i r].
  destruct (row_get cols r smi_col) as [x|]; [|discriminate]. cbn [bind].
  destruct (MolFromSmiles (strip (str_of_cell x))) as [mol|]; [|congruence].
  intros H. apply bind_ok in H as (rid & _ & H). apply bind_ok in H as (nm & _ & H).
  injection H as <-. apply Forall_app. split; [exact Hacc|].
  constructor; [apply Hcanon | constructor].
Qed.

Lemma load_reagents_csv_accepted (df : DataFrame) (preferred_id_col default_prefix : string)
    (strict_ids : bool) (reagents : list Reagent) :
  (forall m, MolFromSmiles (MolToSmiles m) <> None) ->
  load_reagents_csv MolFromSmiles MolToSmiles df preferred_id_col default_prefix
                    strict_ids = Ok reagents ->
  Forall accepted reagents.
Proof.
  intros Hcanon H. unfold load_reagents_csv in H.
  apply bind_ok in H as (smi_col & _ & H). apply bind_ok in H as (id_col & _ & H).
  revert H. apply for_each_invariant; [|constructor].
  intros rs ir rs' Hrs E. eapply load_row_accepted; eassumption.
Qed.

(** What the precondition [accepted] excludes: a reactant that is [None]
    reaches the unguarded [Chem.CombineMols] call whenever the reaction gives
    nothing, and the exception escapes [best_effort_product]. *)
Lemma best_effort_product_None_left (a_mol : option Mol) :
  bep None a_mol = Raise ArgumentError.
Proof. reflexivity. Qed.

(** For every pair of reagent lists, of sizes [N] and [M], and whatever the
    reaction oracle answers: the items the generator yields carry the
    ProductIDs [0, 1, 2, ...] without gap, in the row-major order of the
    pairs, sulfonyls outer and amines inner, and a generator that is
    exhausted has yielded all pairs.  For lists of accepted reagents the
    generator is exhausted after exactly [N * M] items, whose ProductIDs are
    [0 .. N*M-1], each once, the item [i*M + j] pairing the [i]-th sulfonyl
    with the [j]-th amine. *)
Lemma enumerate_dense_row_major (sulfonyls amines : list Reagent) :
  let N := List.length sulfonyls in
  let M := List.length amines in
  let run := enumerate_one_step MolFromSmiles MolToSmiles RunReactants SanitizeMol
               CombineMols SanitizeMol_catchErrors sulfonyls amines in
  (map y_pid (fst run) = seq 0 (List.length (fst run)) /\
   exists rest,
     list_prod sulfonyls amines = map (fun y => (y_s y, y_a y)) (fst run) ++ rest /\
     (snd run = None -> rest = [])) /\
  (Forall accepted sulfonyls -> Forall accepted amines ->
   exists ys,
     run = (ys, None) /\
     List.length ys = (N * M)%nat /\
     map y_pid ys = seq 0 (N * M) /\
     NoDup (map y_pid ys) /\
     (forall i j s a,
         nth_error sulfonyls i = Some s -> nth_error amines j = Some a ->
         exists y, nth_error ys (i * M + j) = Some y /\
                   y_pid y = (i * M + j)%nat /\ y_s y = s /\ y_a y = a)).
Proof.
  intros N M run. split.
  - unfold run, enumerate_one_step. fold en_sulfonyls.
    destruct (en_sulfonyls sulfonyls amines 0) as [[ys e] pid'] eqn:E.
    destruct (enumerate_sulfonyls_prefix _ _ _ E) as (_ & Hids & rest & Hrest & Hnone).
    simpl. split; [exact Hids|]. exists rest. split; [exact Hrest | exact Hnone].
  - intros HS HA.
    destruct (enumerate_sulfonyls_accepted HS HA 0) as (ys & E & Hp & Hsa & _).
    exists ys. unfold run, enumerate_one_step. fold en_sulfonyls. rewrite E.
    assert (HL : List.length ys = (N * M)%nat).
    { rewrite <- (length_map y_pid), Hp, length_seq. reflexivity. }
    split; [reflexivity|]. split; [exact HL|]. split; [exact Hp|].
    split; [rewrite Hp; apply seq_NoDup|].
    intros i j s a Hi Hj.
    pose proof (@nth_error_list_prod _ _ _ _ _ _ _ _ Hi Hj) as Hij.
    rewrite <- Hsa, nth_error_map in Hij. fold M in Hij.
    destruct (nth_error ys (i * M + j)) as [y|] eqn:Ey; [|discriminate].
    exists y. simpl in Hij. injection Hij as <- <-.
    split; [reflexivity|]. split; [|split; reflexivity].
    assert (Hn : nth_error (map y_pid ys) (i * M + j) = Some (y_pid y))
      by (rewrite nth_error_map, Ey; reflexivity).
    rewrite Hp, nth_error_seq in Hn.
    fold N M in Hn.
    destruct (Nat.ltb (i * M + j) (N * M)); [|discriminate].
    simpl in Hn. congruence.
Qed.

(** C1.  The generator does not yield [N * M] products for every pair of
    reagent lists.  A reagent whose structure text does not parse is kept
    (the code's comment: still allow, it will likely go to fallback); the
    reaction gives nothing for it, and the fallback hands [None] to the
    unguarded [Chem.CombineMols], whose exception ends the generator.  With
    such a reagent in the first pair nothing is yielded at all, whatever the
    lists hold besides: [N * M >= 1] products are due and none comes. *)
Theorem C1_unparsable_reagent_ends_enumeration
    (s a : Reagent) (sulfonyls amines : list Reagent) :
  MolFromSmiles (smiles s) = None \/ MolFromSmiles (smiles a) = None ->
  enumerate_one_step MolFromSmiles MolToSmiles RunReactants SanitizeMol
                     CombineMols SanitizeMol_catchErrors
                     (s :: sulfonyls) (a :: amines)
  = ([], Some ArgumentError).
Proof.
  intros H. unfold enumerate_one_step.
  cbn [enumerate_sulfonyls enumerate_amines].
  destruct H as [H | H]; rewrite H.
  - reflexivity.
  - destruct (MolFromSmiles (smiles s)); reflexivity.
Qed.

(** C2. For a pair of reagents accepted at the input boundary, producing the
    product does not raise: [best_effort_product] returns one structure and a
    status that is either [OK_REACTION] or [FALLBACK_COMBINEMOLS]; when the
    reaction gives no sanitizable candidate the status is the fallback one and
    the structure is the disconnected combination of the two reactants; and
    the generator yields exactly one item for the pair. *)
Theorem C2_best_effort_product_total (s a : Reagent) :
  accepted s -> accepted a ->
  exists ms ma smi status,
    MolFromSmiles (smiles s) = Some ms /\ MolFromSmiles (smiles a) = Some ma /\
    best_effort_product MolToSmiles RunReactants SanitizeMol CombineMols
                        SanitizeMol_catchErrors
                        (MolFromSmiles (smiles s)) (MolFromSmiles (smiles a))
      = Ok (smi, status) /\
    (status = OK_REACTION \/ status = FALLBACK_COMBINEMOLS) /\
    (first_sanitized_product_smiles MolToSmiles RunReactants SanitizeMol
                                    (Some ms, Some ma) = None ->
     status = FALLBACK_COMBINEMOLS /\
     smi = MolToSmiles (SanitizeMol_catchErrors (CombineMols ms ma))) /\
    enumerate_one_step MolFromSmiles MolToSmiles RunReactants SanitizeMol
                       CombineMols SanitizeMol_catchErrors [s] [a]
      = ([mkYielded 0 s a smi status], None).
Proof.
  unfold accepted. intros Hs Ha.
  destruct (MolFromSmiles (smiles s)) as [ms|] eqn:Es; [|congruence].
  destruct (MolFromSmiles (smiles a)) as [ma|] eqn:Ea; [|congruence].
  destruct (best_effort_product_parsed ms ma) as (smi & st & Eb & Hst & Hfb).
  exists ms, ma, smi, st.
  split; [reflexivity|]. split; [reflexivity|]. split; [exact Eb|].
  split; [exact Hst|]. split.
  - intros Hnone. unfold bep, best_effort_product in Eb.
    rewrite Hnone in Eb. simpl in Eb. injection Eb as <- <-.
    split; reflexivity.
  - unfold enumerate_one_step. simpl. rewrite Es, Ea. fold bep. rewrite Eb.
    reflexivity.
Qed.

End EnumerationProofs.

Example enumerate_dense_row_major_example :
  exists ys,
    Toy.enumerate_one_step [Toy.S1; Toy.S2] [Toy.A1; Toy.A2] = (ys, None) /\
    map y_pid ys = [0; 1; 2; 3]%nat.
Proof.
  assert (HS : Forall (accepted Toy.MolFromSmiles) [Toy.S1; Toy.S2])
    by (repeat constructor; discriminate).
  assert (HA : Forall (accepted Toy.MolFromSmiles) [Toy.A1; Toy.A2])
    by (repeat constructor; discriminate).
  destruct (proj2 (enumerate_dense_row_major Toy.MolFromSmiles Toy.MolToSmiles
              Toy.RunReactants
              Toy.SanitizeMol Toy.CombineMols Toy.SanitizeMol_catchErrors
              [Toy.S1; Toy.S2] [Toy.A1; Toy.A2]) HS HA)
    as (ys & E & _ & Hp & _).
  exists ys. split; [exact E | exact Hp].
Qed.

Lemma C1_witness :
  Toy.enumerate_one_step [Toy.Bad] [Toy.A1] = ([], Some ArgumentError) /\
  Toy.enumerate_one_step [Toy.S1; Toy.S2] [Toy.Bad; Toy.A1]
  = ([], Some ArgumentError).
Proof.
  split.
  - apply (@C1_unparsable_reagent_ends_enumeration Toy.Mol Toy.MolFromSmiles
             Toy.MolToSmiles Toy.RunReactants Toy.SanitizeMol Toy.CombineMols
             Toy.SanitizeMol_catchErrors Toy.Bad Toy.A1 [] []).
    left. reflexivity.
  - apply (@C1_unparsable_reagent_ends_enumeration Toy.Mol Toy.MolFromSmiles
             Toy.MolToSmiles Toy.RunReactants Toy.SanitizeMol Toy.CombineMols
             Toy.SanitizeMol_catchErrors Toy.S1 Toy.Bad [Toy.S2] [Toy.A1]).
    right. reflexivity.
Defined.

Lemma C2_witness :
  exists smi status,
    Toy.best_effort_product (Toy.MolFromSmiles (smiles Toy.S2))
                            (Toy.MolFromSmiles (smiles Toy.A1))
      = Ok (smi, status) /\
    (status = OK_REACTION \/ status = FALLBACK_COMBINEMOLS).
Proof.
  assert (Hs : accepted Toy.MolFromSmiles Toy.S2) by discriminate.
  assert (Ha : accepted Toy.MolFromSmiles Toy.A1) by discriminate.
  destruct (C2_best_effort_product_total Toy.MolToSmiles Toy.RunReactants
              Toy.SanitizeMol Toy.CombineMols Toy.SanitizeMol_catchErrors Hs Ha)
    as (ms & ma & smi & st & _ & _ & E & Hst & _).
  exists smi, st. split; [exact E | exact Hst].
Defined.

(** ** Dictionaries *)

Section DictFacts.

Variable V : Type.
Implicit Types (d : dict V) (k : string) (v : V).

Lemma dict_get_set_same k v d : dict_get k (dict_set k v d) = Some v.
Proof.
  induction d as [|[k' v'] d IH]; simpl.
  - rewrite String.eqb_refl. reflexivity.
  - destruct (String.eqb k k') eqn:E; simpl; rewrite E; [reflexivity | exact IH].
Qed.

Lemma dict_get_set_other k k' v d :
  k' <> k -> dict_get k' (dict_set k v d) = dict_get k' d.
Proof.
  intros Hne. induction d as [|[k0 v0] d IH]; simpl.
  - destruct (String.eqb_spec k' k); [contradiction | reflexivity].
  - destruct (String.eqb_spec k k0) as [->|Hk]; simpl.
    + destruct (String.eqb_spec k' k0); [contradiction | reflexivity].
    + destruct (String.eqb k' k0); [reflexivity | exact IH].
Qed.

Lemma dict_get_keys k d : dict_get k d <> None <-> In k (dict_keys d).
Proof.
  induction d as [|[k' v'] d IH]; simpl.
  - split; [congruence | tauto].
  - destruct (String.eqb_spec k k') as [->|Hk].
    + split; [now left | congruence].
    + rewrite IH. split; [now right | intros [H|H]; [congruence | exact H]].
Qed.

Lemma dict_keys_set k v d :
  dict_keys (dict_set k v d)
  = match dict_get k d with
    | Some _ => dict_keys d
    | None => dict_keys d ++ [k]
    end.
Proof.
  unfold dict_keys.
  induction d as [|[k' v'] d IH]; simpl; [reflexivity|].
  destruct (String.eqb k k') eqn:E; simpl; [reflexivity|].
  rewrite IH. destruct (dict_get k d); reflexivity.
Qed.

End DictFacts.

(** ** The fold into the destination map *)

Import Analyzer.

Lemma apply_contribution_eq (dm : dict DestRec) (c : Contribution) :
  apply_contribution dm c
  = dict_set (c_well c) (update_rec c (rec_or_empty (c_well c) (dict_get (c_well c) dm)))
             (match dict_get (c_well c) dm with
              | Some _ => dm
              | None => dict_set (c_well c) (empty_rec (c_well c)) dm
              end).
Proof.
  unfold apply_contribution, dest_well_body, dict_setdefault, update_rec.
  destruct (dict_get (c_well c) dm) as [rec|]; simpl;
    destruct (class (c_reagent c)); reflexivity.
Qed.

Lemma apply_contribution_get_same (dm : dict DestRec) (c : Contribution) :
  dict_get (c_well c) (apply_contribution dm c)
  = Some (update_rec c (rec_or_empty (c_well c) (dict_get (c_well c) dm))).
Proof. rewrite apply_contribution_eq. apply dict_get_set_same. Qed.

Lemma apply_contribution_get_other (dm : dict DestRec) (c : Contribution) (w : string) :
  w <> c_well c -> dict_get w (apply_contribution dm c) = dict_get w dm.
Proof.
  intros Hne. rewrite apply_contribution_eq.
  rewrite dict_get_set_other by exact Hne.
  destruct (dict_get (c_well c) dm); [reflexivity|].
  apply dict_get_set_other; exact Hne.
Qed.

Lemma apply_contribution_keys (dm : dict DestRec) (c : Contribution) :
  dict_keys (apply_contribution dm c)
  = match dict_get (c_well c) dm with
    | Some _ => dict_keys dm
    | None => dict_keys dm ++ [c_well c]
    end.
Proof.
  rewrite apply_contribution_eq, dict_keys_set.
  destruct (dict_get (c_well c) dm) eqn:E.
  - rewrite E. reflexivity.
  - rewrite dict_get_set_same, dict_keys_set, E. reflexivity.
Qed.

Lemma last_write_snoc (cls : reagent_class) (w : string) (cs : list Contribution)
    (c : Contribution) :
  last_write cls w (cs ++ [c])
  = if writes cls w c then Some (num (c_reagent c), c_source c)
    else last_write cls w cs.
Proof. unfold last_write. rewrite fold_left_app. reflexivity. Qed.

Lemma last_write_absent (cls : reagent_class) (w : string) (cs : list Contribution) :
  existsb (fun c => String.eqb (c_well c) w) cs = false ->
  last_write cls w cs = None.
Proof.
  induction cs as [|c cs IH] using rev_ind; intros H; [reflexivity|].
  rewrite existsb_app in H. simpl in H.
  apply orb_false_elim in H as [H1 H2]. rewrite orb_false_r in H2.
  rewrite last_write_snoc. unfold writes. rewrite H2. simpl. apply IH, H1.
Qed.

Lemma entry_of_snoc (w : string) (cs : list Contribution) (c : Contribution) :
  entry_of w (cs ++ [c])
  = if String.eqb (c_well c) w
    then Some (update_rec c (rec_or_empty w (entry_of w cs)))
    else entry_of w cs.
Proof.
  unfold entry_of. rewrite existsb_app, !last_write_snoc. simpl.
  unfold writes, update_rec.
  destruct (String.eqb (c_well c) w) eqn:E; simpl.
  - rewrite orb_true_r.
    destruct (existsb _ cs) eqn:Ex; simpl.
    + destruct (class (c_reagent c)); reflexivity.
    + rewrite !last_write_absent by exact Ex.
      destruct (class (c_reagent c)); reflexivity.
  - rewrite orb_false_r. reflexivity.
Qed.

(** The entry under every key of the folded map is determined by the writes
    to that well: the last write of each class, in the order of the fold. *)
Lemma fold_contributions_get (cs : list Contribution) (w : string) :
  dict_get w (fold_left apply_contribution cs []) = entry_of w cs.
Proof.
  induction cs as [|c cs IH] using rev_ind; [reflexivity|].
  rewrite fold_left_app, entry_of_snoc. simpl.
  destruct (String.eqb_spec (c_well c) w) as [<-|Hne].
  - rewrite apply_contribution_get_same, IH. reflexivity.
  - rewrite apply_contribution_get_other by congruence. exact IH.
Qed.

Lemma fold_contributions_NoDup (cs : list Contribution) :
  NoDup (dict_keys (fold_left apply_contribution cs [])).
Proof.
  induction cs as [|c cs IH] using rev_ind; [constructor|].
  rewrite fold_left_app. simpl. rewrite apply_contribution_keys.
  destruct (dict_get (c_well c) _) eqn:E; [exact IH|].
  apply NoDup_app; [exact IH | repeat constructor; simpl; tauto |].
  intros k Hk [<-|[]].
  apply dict_get_keys in Hk. congruence.
Qed.

Lemma entry_of_some (w : string) (cs : list Contribution) :
  entry_of w cs <> None <-> exists c, In c cs /\ c_well c = w.
Proof.
  unfold entry_of. destruct (existsb _ cs) eqn:E.
  - apply existsb_exists in E as (c & Hin & Hc). apply String.eqb_eq in Hc.
    split; [intros _; exists c; tauto | congruence].
  - split; [congruence|]. intros (c & Hin & Hc).
    assert (existsb (fun c => String.eqb (c_well c) w) cs = true); [|congruence].
    apply existsb_exists. exists c. split; [exact Hin | apply String.eqb_eq, Hc].
Qed.

Lemma fold_contributions_keys (cs : list Contribution) (w : string) :
  In w (dict_keys (fold_left apply_contribution cs []))
  <-> exists c, In c cs /\ c_well c = w.
Proof. rewrite <- dict_get_keys, fold_contributions_get. apply entry_of_some. Qed.

Lemma dest_map_body_contributions (swm : dict SourceInfo) (rv : dict ReagentInfo)
    (dm : dict DestRec) (t : Transfer) :
  dest_map_body swm rv dm t
  = fold_left apply_contribution (contributions_of swm rv t) dm.
Proof.
  unfold dest_map_body, contributions_of, resolve.
  destruct (dict_get (src_well t) swm) as [info|]; [|reflexivity].
  destruct (dict_get (liquid_var info) rv) as [rinfo|]; [|reflexivity].
  generalize (dest_wells t) dm. intros ws. induction ws as [|dw ws IH]; intros d.
  - reflexivity.
  - simpl. apply IH.
Qed.

Lemma build_dest_map_contributions (swm : dict SourceInfo) (rv : dict ReagentInfo)
    (ts : list Transfer) :
  build_dest_map swm rv ts
  = fold_left apply_contribution (contributions swm rv ts) [].
Proof.
  unfold build_dest_map, contributions. generalize (@nil (string * DestRec)).
  induction ts as [|t ts IH]; intros dm; [reflexivity|].
  simpl. rewrite fold_left_app, <- dest_map_body_contributions. apply IH.
Qed.

Lemma in_contributions (swm : dict SourceInfo) (rv : dict ReagentInfo)
    (ts : list Transfer) (c : Contribution) :
  In c (contributions swm rv ts)
  <-> exists t, In t ts /\ resolve swm rv t = Some (c_reagent c)
                /\ In (c_well c) (dest_wells t) /\ c_source c = src_well t.
Proof.
  unfold contributions. rewrite in_flat_map. split.
  - intros (t & Ht & Hc). exists t. split; [exact Ht|].
    unfold contributions_of in Hc.
    destruct (resolve swm rv t) as [r|]; [|contradiction].
    apply in_map_iff in Hc as (dw & <- & Hdw). simpl. tauto.
  - intros (t & Ht & Hr & Hw & Hs). exists t. split; [exact Ht|].
    unfold contributions_of. rewrite Hr. apply in_map_iff.
    exists (c_well c). split; [|exact Hw].
    destruct c as [[w r] src]. simpl in *. subst. reflexivity.
Qed.

(** ** Recognition steps *)

(** [ast.walk] visits every node of the tree: the fuel it starts with is
    used up exactly, and more fuel would change nothing. *)
Lemma size_children (n : node) :
  size n = S (list_sum (map size (iter_child_nodes n))).
Proof.
  destruct n; simpl; f_equal;
    rewrite ?map_app, ?list_sum_app, ?map_map; simpl; try lia.
Qed.

Lemma walk_queue_length (fuel : nat) (todo : list node) :
  list_sum (map size todo) = fuel -> List.length (walk_queue fuel todo) = fuel.
Proof.
  revert todo. induction fuel as [|fuel IH]; intros todo H.
  - destruct todo; reflexivity.
  - destruct todo as [|n queue]; [discriminate|]. simpl. f_equal. apply IH.
    simpl in H. rewrite size_children in H.
    rewrite map_app, list_sum_app. lia.
Qed.

Lemma walk_queue_exhausts (fuel : nat) (todo : list node) :
  (list_sum (map size todo) <= fuel)%nat ->
  walk_queue fuel todo = walk_queue (list_sum (map size todo)) todo.
Proof.
  revert todo. induction fuel as [|fuel IH]; intros todo H.
  - assert (list_sum (map size todo) = 0%nat) as -> by lia. reflexivity.
  - destruct todo as [|n queue]; [reflexivity|]. simpl in *.
    rewrite size_children in *. simpl. f_equal.
    rewrite IH by (rewrite map_app, list_sum_app; lia).
    rewrite map_app, list_sum_app. f_equal. simpl. lia.
Qed.

Lemma walk_length (n : node) : List.length (walk n) = size n.
Proof. apply walk_queue_length. simpl. lia. Qed.

(** What one statement does in step 1: nothing, or the conversion of the
    matched digits and then one binding. *)
Lemma reagent_vars_body_cases (rv : dict ReagentInfo) (stmt : node) :
  reagent_vars_body rv stmt = Ok rv \/
  exists var display cls g,
    defines stmt var display /\
    (cls = amine /\ RE_AMINE_match display = Some g \/
     cls = sulfonyl /\ RE_AMINE_match display = None /\
     RE_SULF_match display = Some g) /\
    reagent_vars_body rv stmt
    = (num <- py_int g ;; Ok (dict_set var (mkReagentInfo cls num display) rv)).
Proof.
  unfold reagent_vars_body. split_shape.
  match goal with
  | |- context [String.eqb ?attr "define_liquid"] =>
      destruct (String.eqb_spec attr "define_liquid") as [->|]; [|left; reflexivity]
  end.
  match goal with
  | |- context [keyword_name ?kws] =>
      destruct (keyword_name kws) as [nm|] eqn:Ek; [|left; reflexivity]
  end.
  destruct (truthy nm); [|left; reflexivity].
  destruct (RE_AMINE_match nm) as [g|] eqn:EA.
  - right. exists id, nm, amine, g.
    split; [eexists _, _, _; split; [reflexivity | exact Ek]|].
    split; [left; split; [reflexivity | exact EA] | reflexivity].
  - destruct (RE_SULF_match nm) as [g|] eqn:ES; [|left; reflexivity].
    right. exists id, nm, sulfonyl, g.
    split; [eexists _, _, _; split; [reflexivity | exact Ek]|].
    split; [right; repeat split; assumption | reflexivity].
Qed.

Lemma build_reagent_vars_snoc (body : list node) (stmt : node) :
  build_reagent_vars (body ++ [stmt])
  = (rv <- build_reagent_vars body ;; reagent_vars_body rv stmt).
Proof.
  unfold build_reagent_vars. rewrite for_each_app.
  destruct (for_each reagent_vars_body body []) as [rv|e]; [|reflexivity].
  simpl. destruct (reagent_vars_body rv stmt); reflexivity.
Qed.

(** Every binding comes from a [define_liquid] statement of the body whose
    display name matches one of the two patterns. *)
Lemma build_reagent_vars_sound (body : list node) (rv : dict ReagentInfo)
    (var : string) (r : ReagentInfo) :
  build_reagent_vars body = Ok rv ->
  dict_get var rv = Some r ->
  exists stmt, In stmt body /\ defines stmt var (Analyzer.name r) /\
    (RE_AMINE_match (Analyzer.name r) <> None \/ RE_SULF_match (Analyzer.name r) <> None).
Proof.
  revert rv.
  induction body as [|stmt body IH] using rev_ind; intros rv Hb H.
  - injection Hb as <-. discriminate H.
  - rewrite build_reagent_vars_snoc in Hb.
    apply bind_ok in Hb as (rv0 & Hb0 & Hstep).
    assert (Hold : dict_get var rv0 = Some r ->
                   exists stmt0, In stmt0 (body ++ [stmt]) /\
                     defines stmt0 var (Analyzer.name r) /\
                     (RE_AMINE_match (Analyzer.name r) <> None \/
                      RE_SULF_match (Analyzer.name r) <> None)).
    { intros H0. destruct (IH rv0 Hb0 H0) as (s0 & Hin & Hs). exists s0.
      split; [apply in_or_app; now left | exact Hs]. }
    destruct (reagent_vars_body_cases rv0 stmt)
      as [E | (var' & display & cls & g & Hd & Hm & E)]; rewrite E in Hstep.
    + injection Hstep as <-. exact (Hold H).
    + apply bind_ok in Hstep as (n & Hn & Hset). injection Hset as <-.
      destruct (String.eqb_spec var var') as [->|Hne].
      * rewrite dict_get_set_same in H. injection H as <-.
        exists stmt. split; [apply in_or_app; right; now left|].
        split; [exact Hd|]. simpl.
        destruct Hm as [[_ Hm] | [_ [_ Hm]]]; rewrite Hm; [left | right]; discriminate.
      * rewrite dict_get_set_other in H by exact Hne. exact (Hold H).
Qed.

Lemma literal_wells_truthy (elts : list node) :
  Forall (fun w => truthy w = true) (literal_wells elts).
Proof.
  unfold literal_wells. induction elts as [|e elts IH]; simpl; [constructor|].
  apply Forall_app. split; [|exact IH].
  destruct (_const_str e) as [s|]; [|constructor].
  destruct (truthy s) eqn:T; repeat constructor. exact T.
Qed.

Lemma dest_lists_body_cases (dl : dict (list string)) (stmt : node) :
  dest_lists_body dl stmt = dl \/
  exists var elts, dest_lists_body dl stmt = dict_set var (literal_wells elts) dl.
Proof.
  unfold dest_lists_body. split_shape;
    match goal with
    | |- context [literal_wells ?elts] =>
        destruct (literal_wells elts) eqn:E; [left; reflexivity|];
        right; eexists _, elts; rewrite E; reflexivity
    end.
Qed.

Lemma build_dest_lists_truthy (body : list node) (id : string) (ws : list string) :
  dict_get id (build_dest_lists body) = Some ws -> wells_truthy ws.
Proof.
  unfold build_dest_lists.
  induction body as [|stmt body IH] using rev_ind; [discriminate|].
  rewrite fold_left_app. simpl. intros H.
  destruct (dest_lists_body_cases (fold_left dest_lists_body body []) stmt)
    as [E | (var & elts & E)]; rewrite E in H; [exact (IH H)|].
  destruct (String.eqb_spec id var) as [->|Hne].
  - rewrite dict_get_set_same in H. injection H as <-. apply literal_wells_truthy.
  - rewrite dict_get_set_other in H by exact Hne. exact (IH H).
Qed.

Lemma transfers_body_cases (dl : dict (list string)) (ts : list Transfer) (stmt : node) :
  transfers_body dl ts stmt = ts \/
  exists src ws,
    transfers_body dl ts stmt = ts ++ [mkTransfer src ws] /\
    ((exists elts, ws = literal_wells elts) \/ (exists id, dict_get id dl = Some ws)).
Proof.
  unfold transfers_body. split_shape;
    match goal with
    | |- context [String.eqb ?attr "transfer"] =>
        destruct (String.eqb attr "transfer"); [|left; reflexivity]
    end;
    match goal with
    | |- context [not_source_well ?bw] =>
        destruct (not_source_well bw); [left; reflexivity|];
        destruct (snd bw) as [src|]; [|left; reflexivity]
    end;
    try (left; reflexivity).
  - match goal with
    | |- context [dict_get ?id dl] =>
        destruct (dict_get id dl) as [ws|] eqn:E; [|left; reflexivity];
        destruct ws as [|w ws]; [left; reflexivity|];
        right; exists src, (w :: ws); split; [reflexivity | right; exists id; exact E]
    end.
  - match goal with
    | |- context [literal_wells ?elts] =>
        destruct (literal_wells elts) as [|w ws] eqn:E; [left; reflexivity|];
        right; exists src, (w :: ws); split;
        [reflexivity | left; exists elts; congruence]
    end.
Qed.

(** Every destination label of a recovered transfer is a non-empty string. *)
Lemma recovered_transfers_truthy (run_node : node) (t : Transfer) :
  In t (recovered_transfers run_node) -> wells_truthy (dest_wells t).
Proof.
  unfold recovered_transfers, build_transfers.
  generalize (build_dest_lists_truthy (body_of run_node)).
  generalize (build_dest_lists (body_of run_node)) as dl.
  intros dl Hdl.
  induction (body_of run_node) as [|stmt body IH] using rev_ind; [contradiction|].
  rewrite fold_left_app. simpl.
  destruct (transfers_body_cases dl (fold_left (transfers_body dl) body []) stmt)
    as [E | (src & ws & E & Hws)]; rewrite E; [exact IH|].
  intros Hin. apply in_app_or in Hin as [Hin | [<- | []]]; [exact (IH Hin)|].
  simpl. destruct Hws as [(elts & ->) | (id & Hid)].
  - apply literal_wells_truthy.
  - exact (Hdl id ws Hid).
Qed.

(** ** The sort key and the output stage *)

Lemma row_order_row_letter (c : ascii) : is_ok (row_order c) = row_letter c.
Proof. destruct c as [[] [] [] [] [] [] [] []]; reflexivity. Qed.

Lemma row_order_raises (c : ascii) :
  row_letter c = false -> row_order c = Raise ValueError.
Proof.
  rewrite <- row_order_row_letter. unfold row_order.
  destruct (_ && _)%bool; [discriminate | reflexivity].
Qed.

Lemma py_int_raises (text : string) :
  is_ok (py_int text) = false -> py_int text = Raise ValueError.
Proof.
  unfold py_int. destruct (int_literal _); [|reflexivity].
  destruct (_ <=? _)%N; [discriminate | reflexivity].
Qed.

Lemma well_sort_key_plate_label (w : string) :
  plate_label w = true -> exists k, _well_sort_key w = Ok k.
Proof.
  destruct w as [|c rest]; [discriminate|]. simpl.
  rewrite <- row_order_row_letter. intros H.
  apply andb_prop in H as [H1 H2].
  destruct (py_int rest) as [col|]; [|discriminate].
  destruct (row_order c) as [r|]; [|discriminate].
  exists (col, r). reflexivity.
Qed.

Lemma well_sort_key_not_plate_label (w : string) :
  truthy w = true -> plate_label w = false -> _well_sort_key w = Raise ValueError.
Proof.
  destruct w as [|c rest]; [discriminate|]. simpl. intros _ H.
  apply andb_false_iff in H as [H|H].
  - rewrite (row_order_raises _ H).
    destruct (is_ok (py_int rest)) eqn:E.
    + destruct (py_int rest); [reflexivity | discriminate].
    + rewrite (py_int_raises _ E). reflexivity.
  - rewrite (py_int_raises _ H). reflexivity.
Qed.

Lemma map_result_all_ok (A B : Type) (f : A -> result B) (xs : list A) :
  (forall x, In x xs -> exists y, f x = Ok y) ->
  exists ys, map_result f xs = Ok ys.
Proof.
  induction xs as [|x xs IH]; intros H; simpl; [eexists; reflexivity|].
  destruct (H x (or_introl eq_refl)) as [y ->].
  destruct IH as [ys ->]; [intros; apply H; now right|].
  eexists; reflexivity.
Qed.

Lemma map_result_raises (A B : Type) (f : A -> result B) (e : exn) (xs : list A) :
  (forall x, In x xs -> (exists y, f x = Ok y) \/ f x = Raise e) ->
  (exists x, In x xs /\ f x = Raise e) ->
  map_result f xs = Raise e.
Proof.
  induction xs as [|x xs IH]; intros Hall (x0 & Hin & Hx0); [contradiction|].
  simpl. destruct (Hall x (or_introl eq_refl)) as [[y Ey] | Ex].
  - rewrite Ey. simpl. rewrite IH; [reflexivity | intros; apply Hall; now right |].
    destruct Hin as [<-|Hin]; [congruence | exists x0; tauto].
  - rewrite Ex. reflexivity.
Qed.

Lemma emit_ok (rv : dict ReagentInfo) (swm : dict SourceInfo) (dm : dict DestRec) :
  (forall w, In w (dict_keys dm) -> plate_label w = true) ->
  exists dest_rows source_rows, emit rv swm dm = Ok (dest_rows, source_rows).
Proof.
  intros H. unfold emit, sorted_by.
  destruct (map_result_all_ok _well_sort_key (dict_keys dm)) as [ks ->].
  - intros w Hw. apply well_sort_key_plate_label, H, Hw.
  - simpl. eexists _, _. reflexivity.
Qed.

Lemma emit_raises (rv : dict ReagentInfo) (swm : dict SourceInfo) (dm : dict DestRec) :
  (forall w, In w (dict_keys dm) -> truthy w = true) ->
  (exists w, In w (dict_keys dm) /\ plate_label w = false) ->
  emit rv swm dm = Raise ValueError.
Proof.
  intros Ht (w & Hw & Hbad). unfold emit, sorted_by.
  rewrite (@map_result_raises _ _ _well_sort_key ValueError); [reflexivity | |].
  - intros x Hx. destruct (plate_label x) eqn:E.
    + left. apply well_sort_key_plate_label, E.
    + right. apply well_sort_key_not_plate_label; [apply Ht, Hx | exact E].
  - exists w. split; [exact Hw|].
    apply well_sort_key_not_plate_label; [apply Ht, Hw | exact Hbad].
Qed.

(** The keys of the destination map of a [run] procedure are exactly the
    destination wells of its resolved transfers. *)
Lemma dest_map_keys (swm : dict SourceInfo) (rv : dict ReagentInfo)
    (ts : list Transfer) (w : string) :
  In w (dict_keys (build_dest_map swm rv ts))
  <-> exists t, In t ts /\ resolved swm rv t = true /\ In w (dest_wells t).
Proof.
  rewrite build_dest_map_contributions, fold_contributions_keys.
  unfold resolved. split.
  - intros (c & Hc & <-). apply in_contributions in Hc as (t & Ht & Hr & Hw & _).
    exists t. rewrite Hr. tauto.
  - intros (t & Ht & Hr & Hw).
    destruct (resolve swm rv t) as [r|] eqn:E; [|discriminate].
    exists (w, r, src_well t). split; [|reflexivity].
    apply in_contributions. exists t. simpl. tauto.
Qed.

Lemma build_dest_map_filter (swm : dict SourceInfo) (rv : dict ReagentInfo)
    (ts : list Transfer) :
  build_dest_map swm rv ts = build_dest_map swm rv (filter (resolved swm rv) ts).
Proof.
  rewrite !build_dest_map_contributions. f_equal. unfold contributions.
  induction ts as [|t ts IH]; [reflexivity|]. simpl.
  unfold resolved at 1. unfold contributions_of at 1.
  destruct (resolve swm rv t) as [r|] eqn:E; simpl.
  - unfold contributions_of at 2. rewrite E. f_equal. exact IH.
  - exact IH.
Qed.

Lemma last_write_app_same (cls : reagent_class) (w : string)
    (cs cs' : list Contribution) (v : Z * string) :
  (forall c, In c cs' -> writes cls w c = true -> (num (c_reagent c), c_source c) = v) ->
  (exists c, In c cs' /\ writes cls w c = true) ->
  last_write cls w (cs ++ cs') = Some v.
Proof.
  induction cs' as [|c cs' IH] using rev_ind; intros Hv (c0 & Hin & Hw); [contradiction|].
  rewrite app_assoc, last_write_snoc.
  destruct (writes cls w c) eqn:E.
  - f_equal. apply Hv; [apply in_or_app; right; now left | exact E].
  - apply IH.
    + intros c1 H1. apply Hv, in_or_app. now left.
    + apply in_app_or in Hin as [Hin | [<- | []]]; [exists c0; tauto | congruence].
Qed.

Lemma class_eqb_refl (cls : reagent_class) : class_eqb cls cls = true.
Proof. destruct cls; reflexivity. Qed.

(** ** Properties of the analyzer *)

(** C8. In a script the analyzer accepts, a variable all of whose display
    names match neither pattern gets no binding; a transfer whose source well
    has no recorded load, or whose loaded variable has no binding, leaves the
    destination map as it was; the result of the analyzer is the one obtained
    from the resolved transfers alone, so it raises no error on behalf of the
    others; and every well of the destination map is a destination of some
    resolved transfer. *)
Theorem C8_unresolved_transfers_excluded :
  forall (tree_body : list node) (run_node : node),
    find_run tree_body = Some run_node ->
    let body := body_of run_node in
    let swm := build_source_well_map run_node in
    let ts := recovered_transfers run_node in
    (forall rv var,
        build_reagent_vars body = Ok rv ->
        (forall stmt display, In stmt body -> defines stmt var display ->
           RE_AMINE_match display = None /\ RE_SULF_match display = None) ->
        dict_get var rv = None) /\
    (forall rv t dm,
        dict_get (src_well t) swm = None \/
        (exists info, dict_get (src_well t) swm = Some info /\
                      dict_get (liquid_var info) rv = None) ->
        dest_map_body swm rv dm t = dm) /\
    parse_protocol tree_body
      = (rv <- build_reagent_vars body ;;
         emit rv swm (build_dest_map swm rv (filter (resolved swm rv) ts))) /\
    (forall rv w, In w (dict_keys (dest_map_of run_node rv)) ->
       exists t, In t ts /\ resolved swm rv t = true /\ In w (dest_wells t)).
Proof.
  intros tree_body run_node Hrun body swm ts.
  split; [|split; [|split]].
  - intros rv var Hrv Hnone.
    destruct (dict_get var rv) as [r|] eqn:E; [|reflexivity].
    destruct (build_reagent_vars_sound _ _ Hrv E) as (stmt & Hin & Hd & Hm).
    destruct (Hnone stmt _ Hin Hd) as [HA HS]. tauto.
  - intros rv t dm H. unfold dest_map_body.
    destruct H as [-> | (info & -> & ->)]; reflexivity.
  - unfold parse_protocol. rewrite Hrun. fold body.
    destruct (build_reagent_vars body) as [rv|e]; [|reflexivity]. simpl.
    unfold dest_map_of. fold swm ts. rewrite <- build_dest_map_filter. reflexivity.
  - intros rv w Hw. apply dest_map_keys in Hw. exact Hw.
Qed.

Lemma C8_witness :
  let tree_body := Example.tree_body [Example.transfer "A3" ["Z1"]] in
  find_run tree_body = Some (Example.run_node [Example.transfer "A3" ["Z1"]]) /\
  exists dest_rows source_rows,
    parse_protocol tree_body = Ok (dest_rows, source_rows) /\
    map Analyzer.Well dest_rows = ["A1"; "B1"; "A2"].
Proof.
  intros tree_body.
  assert (Hrun : find_run tree_body
                 = Some (Example.run_node [Example.transfer "A3" ["Z1"]]))
    by reflexivity.
  split; [exact Hrun|].
  destruct (C8_unresolved_transfers_excluded tree_body Hrun) as (_ & _ & E & _).
  rewrite E. vm_compute. eexists _, _. split; reflexivity.
Defined.

(** C9, as the code has it.  The destination map has one entry per well, and
    its wells are exactly the destinations of the resolved transfers; the
    entry of a well carries, for each class, the number and the source well of
    the last transfer of that class that reached it, so transfers of both
    classes accumulate on the one entry; and when the last transfer of the
    script reaches a well, its number and source well are what the entry
    holds for its class, whatever an earlier transfer of that class wrote:
    nothing is flagged. *)
Theorem C9_one_entry_per_well_last_write_wins :
  forall (swm : dict SourceInfo) (rv : dict ReagentInfo) (ts : list Transfer),
    let dm := build_dest_map swm rv ts in
    let cs := contributions swm rv ts in
    NoDup (dict_keys dm) /\
    (forall w, In w (dict_keys dm) <->
       exists t, In t ts /\ resolved swm rv t = true /\ In w (dest_wells t)) /\
    (forall w, In w (dict_keys dm) ->
       dict_get w dm
       = Some (mkDestRec w
                 (option_map fst (last_write sulfonyl w cs))
                 (option_map fst (last_write amine w cs))
                 (source_or_empty (last_write sulfonyl w cs))
                 (source_or_empty (last_write amine w cs)))) /\
    (forall ts' t r w,
        ts = ts' ++ [t] -> resolve swm rv t = Some r -> In w (dest_wells t) ->
        last_write (class r) w cs = Some (num r, src_well t)).
Proof.
  intros swm rv ts dm cs. split; [|split; [|split]].
  - unfold dm. rewrite build_dest_map_contributions. apply fold_contributions_NoDup.
  - intros w. apply dest_map_keys.
  - intros w Hw. unfold dm in *.
    rewrite build_dest_map_contributions in *.
    apply dict_get_keys in Hw. rewrite fold_contributions_get in *.
    fold cs in Hw |- *. unfold entry_of in *.
    destruct (existsb _ cs); [reflexivity | congruence].
  - intros ts' t r w -> Hr Hw. unfold cs, contributions.
    rewrite flat_map_app. simpl. rewrite app_nil_r.
    unfold contributions_of at 2. rewrite Hr.
    apply last_write_app_same.
    + intros c Hc _. apply in_map_iff in Hc as (dw & <- & _). reflexivity.
    + exists (w, r, src_well t). split.
      * apply in_map_iff. exists w. tauto.
      * unfold writes. simpl. rewrite String.eqb_refl, class_eqb_refl. reflexivity.
Qed.

Lemma C9_witness :
  let swm := [("A2", mkSourceInfo "s1" None); ("B2", mkSourceInfo "s2" None)] in
  let rv := [("s1", mkReagentInfo sulfonyl 1 "SulfonylCl 1");
             ("s2", mkReagentInfo sulfonyl 2 "SulfonylCl 2")] in
  let ts := [mkTransfer "A2" ["A1"]; mkTransfer "B2" ["A1"]] in
  In "A1" (dict_keys (build_dest_map swm rv ts)) /\
  dict_get "A1" (build_dest_map swm rv ts)
  = Some (mkDestRec "A1" (Some 2%Z) None "B2" "").
Proof.
  intros swm rv ts.
  destruct (C9_one_entry_per_well_last_write_wins swm rv ts) as (_ & _ & H & _).
  assert (Hin : In "A1" (dict_keys (build_dest_map swm rv ts))) by (now left).
  split; [exact Hin | exact (H "A1" Hin)].
Defined.

(** C9 as the specification states it fails: well A1 of this script receives the
    sulfonyl chlorides 1 (from A2) and then 2 (from B2); the analyzer returns
    normally, and the row of A1 holds number 2 and source well B2 only. *)
Lemma C9_counterexample_silent_overwrite :
  let extra := [Example.transfer "B2" ["A1"]] in
  let run := Example.run_node extra in
  exists rv,
    build_reagent_vars (body_of run) = Ok rv /\
    map (fun c => (num (c_reagent c), c_source c))
        (filter (writes sulfonyl "A1")
           (contributions (build_source_well_map run) rv (recovered_transfers run)))
    = [(1%Z, "A2"); (2%Z, "B2")] /\
    exists source_rows,
      parse_protocol (Example.tree_body extra)
      = Ok ([mkDestRec "A1" (Some 2%Z) (Some 1%Z) "B2" "A1";
             mkDestRec "B1" (Some 1%Z) None "A2" "";
             mkDestRec "A2" None (Some 1%Z) "" "A1"], source_rows).
Proof.
  eexists. split; [vm_compute; reflexivity|].
  split; [vm_compute; reflexivity|].
  eexists. vm_compute. reflexivity.
Qed.

(** C10. In a script the analyzer accepts, whose reagent variables step 1
    has built, if some resolved transfer has a destination label whose first
    character is no row letter [A]..[H] (in either case) or whose remaining
    characters [int()] rejects, the analyzer raises [ValueError] at the sort
    instead of returning rows; and when every such label has the plate form
    it returns. *)
Theorem C10_label_outside_plate_form_raises :
  forall (tree_body : list node) (run_node : node) (rv : dict ReagentInfo),
    find_run tree_body = Some run_node ->
    build_reagent_vars (body_of run_node) = Ok rv ->
    let swm := build_source_well_map run_node in
    let ts := recovered_transfers run_node in
    ((exists t c rest,
         In t ts /\ resolved swm rv t = true /\
         In (String c rest) (dest_wells t) /\
         (row_letter c = false \/ is_ok (py_int rest) = false)) ->
     parse_protocol tree_body = Raise ValueError) /\
    ((forall t dw, In t ts -> resolved swm rv t = true -> In dw (dest_wells t) ->
                   plate_label dw = true) ->
     exists dest_rows source_rows,
       parse_protocol tree_body = Ok (dest_rows, source_rows)).
Proof.
  intros tree_body run_node rv Hrun Hrv swm ts.
  unfold parse_protocol. rewrite Hrun, Hrv. cbn [bind].
  unfold dest_map_of. fold swm ts.
  split.
  - intros (t & c & rest & Ht & Hr & Hw & Hbad).
    apply emit_raises.
    + intros w Hk. apply dest_map_keys in Hk as (t' & Ht' & _ & Hw').
      pose proof (recovered_transfers_truthy _ _ Ht') as HT.
      unfold wells_truthy in HT. rewrite Forall_forall in HT. apply HT, Hw'.
    + exists (String c rest). split.
      * apply dest_map_keys. exists t. tauto.
      * simpl. apply andb_false_iff. exact Hbad.
  - intros Hall. apply emit_ok.
    intros w Hk. apply dest_map_keys in Hk as (t & Ht & Hr & Hw).
    exact (Hall t w Ht Hr Hw).
Qed.

Lemma C10_witness :
  let extra := [Example.transfer "B2" ["I1"]] in
  find_run (Example.tree_body extra) = Some (Example.run_node extra) /\
  parse_protocol (Example.tree_body extra) = Raise ValueError.
Proof.
  intros extra.
  assert (Hrun : find_run (Example.tree_body extra) = Some (Example.run_node extra))
    by reflexivity.
  split; [exact Hrun|].
  destruct (build_reagent_vars (body_of (Example.run_node extra))) as [rv|e] eqn:Hrv;
    [|vm_compute in Hrv; discriminate Hrv].
  apply (proj1 (C10_label_outside_plate_form_raises (Example.tree_body extra) Hrun Hrv)).
  vm_compute in Hrv. injection Hrv as <-.
  exists (mkTransfer "B2" ["I1"]), "I"%char, "1".
  split; [vm_compute; tauto|].
  split; [vm_compute; reflexivity|].
  split; [now left | left; reflexivity].
Defined.

(** ** Decimal text *)

Lemma string_of_uint_nonnil (d : Decimal.uint) :
  d <> Decimal.Nil -> NilZero.string_of_uint d = NilEmpty.string_of_uint d.
Proof. destruct d; [congruence | reflexivity ..]. Qed.

Lemma N_to_uint_nonnil (n : N) : N.to_uint n <> Decimal.Nil.
Proof.
  destruct n as [|p]; [discriminate|]. simpl.
  apply DecimalPos.Unsigned.to_uint_nonnil.
Qed.

Lemma Nat_to_uint_nonnil (n : nat) : Nat.to_uint n <> Decimal.Nil.
Proof.
  intros E. destruct n as [|n].
  - discriminate E.
  - pose proof (DecimalNat.Unsigned.of_to (S n)) as Hof. rewrite E in Hof.
    discriminate Hof.
Qed.

Lemma uint_of_str_of_N (n : N) :
  NilEmpty.uint_of_string (str_of_N n) = Some (N.to_uint n).
Proof.
  unfold str_of_N. rewrite string_of_uint_nonnil by apply N_to_uint_nonnil.
  apply NilEmpty.usu.
Qed.

Lemma uint_of_zeros (k : nat) (s : string) :
  NilEmpty.uint_of_string (repeat_char "0" k ++ s)
  = option_map (Nat.iter k Decimal.D0) (NilEmpty.uint_of_string s).
Proof.
  induction k as [|k IH]; simpl.
  - destruct (NilEmpty.uint_of_string s); reflexivity.
  - rewrite IH. destruct (NilEmpty.uint_of_string s); reflexivity.
Qed.

Lemma N_of_uint_zeros (k : nat) (d : Decimal.uint) :
  N.of_uint (Nat.iter k Decimal.D0 d) = N.of_uint d.
Proof. induction k as [|k IH]; [reflexivity | simpl; exact IH]. Qed.

(** The number a zero-padded rendering stands for. *)
Lemma zfill_value (w : nat) (n : N) :
  option_map N.of_uint (NilEmpty.uint_of_string (zfill w (str_of_N n))) = Some n.
Proof.
  unfold zfill. rewrite uint_of_zeros, uint_of_str_of_N. simpl.
  rewrite N_of_uint_zeros, DecimalN.Unsigned.of_to. reflexivity.
Qed.

Lemma zero_padded_nonneg (w : nat) (n : Z) :
  (0 <= n)%Z -> zero_padded w n = zfill w (str_of_N (Z.to_N n)).
Proof. destruct n; [reflexivity | reflexivity | lia]. Qed.

Lemma repeat_char_length (c : ascii) (k : nat) : String.length (repeat_char c k) = k.
Proof. induction k; simpl; congruence. Qed.

Lemma string_app_length (a b : string) :
  String.length (a ++ b) = (String.length a + String.length b)%nat.
Proof. induction a; simpl; congruence. Qed.

Lemma zfill_length (w : nat) (s : string) :
  String.length (zfill w s) = Nat.max w (String.length s).
Proof. unfold zfill. rewrite string_app_length, repeat_char_length. lia. Qed.

Lemma string_app_inv_head (a b c : string) : (a ++ b = a ++ c)%string -> b = c.
Proof. induction a as [|x a IH]; simpl; intros H; [exact H | injection H; auto]. Qed.

(** *** Stripping *)

Lemma lstrip_of_none (sp : ascii -> bool) (s : string) :
  forallb (fun c => negb (sp c)) (list_ascii_of_string s) = true ->
  lstrip_of sp s = s.
Proof.
  destruct s as [|c s]; [reflexivity|]. simpl.
  intros H. apply andb_prop in H as [H _].
  destruct (sp c); [discriminate | reflexivity].
Qed.

Lemma rstrip_of_none (sp : ascii -> bool) (s : string) :
  forallb (fun c => negb (sp c)) (list_ascii_of_string s) = true ->
  rstrip_of sp s = s.
Proof.
  induction s as [|c s IH]; [reflexivity|]. simpl.
  intros H. apply andb_prop in H as [Hc Hs]. rewrite (IH Hs).
  destruct s; [|reflexivity].
  destruct (sp c); [discriminate | reflexivity].
Qed.

Lemma strip_no_space (s : string) : no_space s = true -> strip s = s.
Proof.
  intros H. unfold strip. rewrite (lstrip_of_none _ _ H). apply rstrip_of_none, H.
Qed.

Lemma int_space_is_space (c : ascii) : is_int_space c = true -> is_space c = true.
Proof. destruct c as [[] [] [] [] [] [] [] []]; vm_compute; congruence. Qed.

Lemma no_int_space (s : string) :
  no_space s = true ->
  forallb (fun c => negb (is_int_space c)) (list_ascii_of_string s) = true.
Proof.
  unfold no_space. induction s as [|c s IH]; [reflexivity|]. simpl.
  intros H. apply andb_prop in H as [Hc Hs]. rewrite (IH Hs), andb_true_r.
  destruct (is_int_space c) eqn:E; [|reflexivity].
  rewrite (int_space_is_space _ E) in Hc. discriminate Hc.
Qed.

(** [int()] strips nothing from a text without whitespace. *)
Lemma int_strip_no_space (s : string) :
  no_space s = true -> rstrip_of is_int_space (lstrip_of is_int_space s) = s.
Proof.
  intros H. apply no_int_space in H.
  rewrite (lstrip_of_none _ _ H). apply rstrip_of_none, H.
Qed.

Lemma no_space_app (a b : string) :
  no_space (a ++ b) = no_space a && no_space b.
Proof.
  unfold no_space. induction a as [|c a IH]; [reflexivity|].
  simpl. rewrite IH. apply andb_assoc.
Qed.

Lemma no_space_uint (d : Decimal.uint) : no_space (NilEmpty.string_of_uint d) = true.
Proof. unfold no_space. induction d; simpl; auto. Qed.

Lemma no_space_str_of_N (n : N) : no_space (str_of_N n) = true.
Proof.
  unfold str_of_N. rewrite string_of_uint_nonnil by apply N_to_uint_nonnil.
  apply no_space_uint.
Qed.

Lemma no_space_zeros (k : nat) : no_space (repeat_char "0" k) = true.
Proof. unfold no_space. induction k; simpl; auto. Qed.

Lemma no_space_zfill (w : nat) (n : N) : no_space (zfill w (str_of_N n)) = true.
Proof.
  unfold zfill. rewrite no_space_app, no_space_zeros, no_space_str_of_N. reflexivity.
Qed.

Lemma no_space_zero_padded (w : nat) (n : Z) : no_space (zero_padded w n) = true.
Proof.
  destruct n as [|p|p]; unfold zero_padded.
  - apply no_space_zfill.
  - apply no_space_zfill.
  - change (negb (is_space "-") && no_space (zfill (w - 1) (str_of_N (N.pos p))) = true).
    rewrite no_space_zfill. reflexivity.
Qed.

Lemma digit_not_space (c : ascii) : is_digit c = true -> is_space c = false.
Proof. destruct c as [[] [] [] [] [] [] [] []]; vm_compute; congruence. Qed.

Lemma all_digits_no_space (s : string) : all_digits s = true -> no_space s = true.
Proof.
  unfold all_digits, no_space. induction s as [|c s IH]; [reflexivity|].
  simpl. intros H. apply andb_prop in H as [Hc Hs].
  rewrite (digit_not_space _ Hc), (IH Hs). reflexivity.
Qed.

(** *** The value of a run of digits *)

Lemma digits_value_digits (s : string) (acc : Z) (after_digit : bool) :
  all_digits s = true -> s <> EmptyString \/ after_digit = true ->
  exists v, digits_value s acc after_digit = Some v.
Proof.
  revert acc after_digit. unfold all_digits.
  induction s as [|c s IH]; intros acc b Hd Hne; simpl.
  - destruct Hne as [Hne | ->]; [congruence | eauto].
  - simpl in Hd. apply andb_prop in Hd as [Hc Hs]. rewrite Hc.
    apply IH; [exact Hs | now right].
Qed.

Lemma digits_value_cons_digit (c : ascii) (s : string) (acc : Z) (b : bool) :
  is_digit c = true ->
  digits_value (String c s) acc b = digits_value s (10 * acc + digit_value c) true.
Proof. intros H. simpl. rewrite H. reflexivity. Qed.

Lemma digits_value_of_uint_acc (d : Decimal.uint) (acc : nat) (b : bool) :
  d <> Decimal.Nil \/ b = true ->
  digits_value (NilEmpty.string_of_uint d) (Z.of_nat acc) b
  = Some (Z.of_nat (Nat.of_uint_acc d acc)).
Proof.
  revert acc b. induction d; intros acc b Hb;
    cbn [NilEmpty.string_of_uint Nat.of_uint_acc];
    [destruct Hb as [Hb | ->]; [congruence | reflexivity] | ..];
    (rewrite digits_value_cons_digit by reflexivity;
     rewrite <- (IHd _ true) by (now right); f_equal;
     rewrite Nat.tail_mul_spec;
     match goal with |- context [digit_value ?c] =>
       let v := eval vm_compute in (digit_value c) in
       change (digit_value c) with v end;
     lia).
Qed.

(** The digits of [str(n)] stand for [n]. *)
Lemma digits_value_str_of_nat (n : nat) (after_digit : bool) :
  digits_value (str_of_nat n) 0 after_digit = Some (Z.of_nat n).
Proof.
  unfold str_of_nat.
  rewrite string_of_uint_nonnil by apply Nat_to_uint_nonnil.
  change 0%Z with (Z.of_nat 0).
  rewrite digits_value_of_uint_acc by (left; apply Nat_to_uint_nonnil).
  f_equal. f_equal. apply DecimalNat.Unsigned.of_to.
Qed.

Lemma digits_value_pos_acc (d : Decimal.uint) (acc : positive) :
  digits_value (NilEmpty.string_of_uint d) (Zpos acc) true
  = Some (Zpos (Pos.of_uint_acc d acc)).
Proof.
  revert acc. induction d; intros acc;
    cbn [NilEmpty.string_of_uint Pos.of_uint_acc]; [reflexivity | ..];
    (rewrite digits_value_cons_digit by reflexivity;
     rewrite <- IHd; f_equal;
     match goal with |- context [digit_value ?c] =>
       let v := eval vm_compute in (digit_value c) in
       change (digit_value c) with v end;
     lia).
Qed.

Lemma digits_value_of_uint (d : Decimal.uint) (b : bool) :
  d <> Decimal.Nil \/ b = true ->
  digits_value (NilEmpty.string_of_uint d) 0 b = Some (Z.of_N (Pos.of_uint d)).
Proof.
  revert b. induction d; intros b Hb;
    cbn [NilEmpty.string_of_uint Pos.of_uint];
    [destruct Hb as [Hb | ->]; [congruence | reflexivity] | ..];
    rewrite digits_value_cons_digit by reflexivity;
    match goal with |- context [digit_value ?c] =>
      let v := eval vm_compute in (digit_value c) in
      change (digit_value c) with v end;
    change (10 * 0 + 0)%Z with 0%Z;
    first [ apply IHd; now right | apply digits_value_pos_acc ].
Qed.

Lemma digits_value_str_of_N (n : N) (after_digit : bool) :
  digits_value (str_of_N n) 0 after_digit = Some (Z.of_N n).
Proof.
  unfold str_of_N.
  rewrite string_of_uint_nonnil by apply N_to_uint_nonnil.
  rewrite digits_value_of_uint by (left; apply N_to_uint_nonnil).
  f_equal. f_equal. apply DecimalN.Unsigned.of_to.
Qed.

Lemma digits_value_zeros (k : nat) (s : string) (b : bool) :
  s <> EmptyString ->
  (forall b', digits_value s 0 b' = digits_value s 0 true) ->
  digits_value (repeat_char "0" k ++ s) 0 b = digits_value s 0 true.
Proof.
  intros Hne Hs. revert b. induction k as [|k IH]; intros b; simpl.
  - apply Hs.
  - apply IH.
Qed.

Lemma all_digits_uint (d : Decimal.uint) : all_digits (NilEmpty.string_of_uint d) = true.
Proof. unfold all_digits. induction d; simpl; auto. Qed.

Lemma all_digits_str_of_nat (n : nat) : all_digits (str_of_nat n) = true.
Proof.
  unfold str_of_nat. rewrite string_of_uint_nonnil by apply Nat_to_uint_nonnil.
  apply all_digits_uint.
Qed.

Lemma str_of_nat_nonempty (n : nat) : str_of_nat n <> EmptyString.
Proof.
  intros E. pose proof (digits_value_str_of_nat n false) as H.
  rewrite E in H. discriminate H.
Qed.

Lemma all_digits_app (a b : string) :
  all_digits (a ++ b) = all_digits a && all_digits b.
Proof.
  unfold all_digits. induction a as [|c a IH]; [reflexivity|].
  simpl. rewrite IH. apply andb_assoc.
Qed.

Lemma all_digits_zeros (k : nat) : all_digits (repeat_char "0" k) = true.
Proof. unfold all_digits. induction k; simpl; auto. Qed.

Lemma all_digits_str_of_N (n : N) : all_digits (str_of_N n) = true.
Proof.
  unfold str_of_N. rewrite string_of_uint_nonnil by apply N_to_uint_nonnil.
  apply all_digits_uint.
Qed.

Lemma all_digits_zfill (w : nat) (n : N) : all_digits (zfill w (str_of_N n)) = true.
Proof.
  unfold zfill. rewrite all_digits_app, all_digits_zeros, all_digits_str_of_N.
  reflexivity.
Qed.

Lemma str_of_N_nonempty (n : N) : str_of_N n <> EmptyString.
Proof.
  intros E. pose proof (digits_value_str_of_N n false) as H.
  rewrite E in H. discriminate H.
Qed.

Lemma digits_value_zfill (w : nat) (n : N) (b : bool) :
  digits_value (zfill w (str_of_N n)) 0 b = Some (Z.of_N n).
Proof.
  unfold zfill. rewrite digits_value_zeros.
  - apply digits_value_str_of_N.
  - apply str_of_N_nonempty.
  - intros b'. rewrite !digits_value_str_of_N. reflexivity.
Qed.

Lemma digits_value_nonneg (s : string) (acc v : Z) (b : bool) :
  digits_value s acc b = Some v -> (0 <= acc)%Z -> (0 <= v)%Z.
Proof.
  revert acc b. induction s as [|c s IH]; intros acc b H Hacc.
  - cbn [digits_value] in H. destruct b; [injection H as <-; exact Hacc | discriminate].
  - cbn [digits_value] in H. destruct (is_digit c).
    + apply (IH _ _ H). pose proof (Nat2Z.is_nonneg (nat_of_ascii c - 48)).
      unfold digit_value. lia.
    + destruct (Ascii.eqb c "_" && b)%bool; [|discriminate].
      exact (IH _ _ H Hacc).
Qed.

(** A run of [k] digits after the accumulator [acc] stands for at least
    [acc * 10^k]. *)
Lemma digits_value_lower (s : string) (acc v : Z) :
  all_digits s = true -> (0 <= acc)%Z ->
  digits_value s acc true = Some v ->
  (acc * 10 ^ Z.of_nat (String.length s) <= v)%Z.
Proof.
  revert acc. unfold all_digits.
  induction s as [|c s IH]; intros acc Hd Hacc H.
  - cbn [digits_value] in H. injection H as <-. simpl. lia.
  - simpl in Hd. apply andb_prop in Hd as [Hc Hs].
    rewrite digits_value_cons_digit in H by exact Hc.
    assert (Hdv : (0 <= digit_value c)%Z)
      by (unfold digit_value; apply Nat2Z.is_nonneg).
    apply IH in H; [|exact Hs | lia].
    cbn [String.length]. rewrite Nat2Z.inj_succ, Z.pow_succ_r by lia.
    assert (Hp : (0 < 10 ^ Z.of_nat (String.length s))%Z)
      by (apply Z.pow_pos_nonneg; lia).
    nia.
Qed.

(** The decimal text of a number is normalized: it has no leading zero
    unless it is ["0"]. *)
Lemma N_to_uint_normalized (n : N) : Decimal.unorm (N.to_uint n) = N.to_uint n.
Proof.
  rewrite <- DecimalN.Unsigned.to_of, DecimalN.Unsigned.of_to. reflexivity.
Qed.

(** A positive number is at least [10^(k-1)] when its decimal text has [k]
    digits. *)
Lemma str_of_N_magnitude (n : N) :
  n <> 0%N ->
  (10 ^ Z.of_nat (String.length (str_of_N n) - 1) <= Z.of_N n)%Z.
Proof.
  intros Hn. pose proof (digits_value_str_of_N n false) as Hv.
  pose proof (all_digits_str_of_N n) as Hd.
  unfold str_of_N in *.
  rewrite string_of_uint_nonnil in * by apply N_to_uint_nonnil.
  pose proof (N_to_uint_normalized n) as Hnorm.
  assert (Hnz : N.to_uint n <> Decimal.zero).
  { intros E. apply Hn. rewrite <- (DecimalN.Unsigned.of_to n), E. reflexivity. }
  assert (Hhead : forall d', N.to_uint n <> Decimal.D0 d').
  { intros d' E. unfold Decimal.unorm in Hnorm.
    destruct (Decimal.nzhead (N.to_uint n)) eqn:Eh;
      [congruence | exact (DecimalFacts.nzhead_nonzero _ _ Eh) | congruence ..]. }
  destruct (N.to_uint n) as [|d|d|d|d|d|d|d|d|d|d] eqn:Ed;
    [exfalso; exact (N_to_uint_nonnil n Ed) | exfalso; exact (Hhead _ eq_refl) | ..];
    cbn [NilEmpty.string_of_uint String.length] in *;
    replace (S (String.length (NilEmpty.string_of_uint d)) - 1)%nat
      with (String.length (NilEmpty.string_of_uint d)) by lia;
    rewrite digits_value_cons_digit in Hv by reflexivity;
    (apply digits_value_lower in Hv;
     [ | unfold all_digits in *; simpl in Hd; exact Hd | vm_compute; discriminate ]);
    match type of Hv with context [digit_value ?c] =>
      let v := eval vm_compute in (digit_value c) in
      change (digit_value c) with v in Hv end;
    assert (Hp : (0 < 10 ^ Z.of_nat (String.length (NilEmpty.string_of_uint d)))%Z)
      by (apply Z.pow_pos_nonneg; lia);
    nia.
Qed.

(** A number below [10^k] has at most [k] decimal digits. *)
Lemma decimal_digits_le (n : Z) (k : nat) :
  (0 < k)%nat -> (Z.abs n < 10 ^ Z.of_nat k)%Z ->
  (decimal_digits n <= N.of_nat k)%N.
Proof.
  intros Hk Hlt. unfold decimal_digits.
  destruct (N.eq_dec (Z.abs_N n) 0) as [E|E].
  - rewrite E. change (String.length (str_of_N 0)) with 1%nat. lia.
  - pose proof (str_of_N_magnitude E) as Hm.
    rewrite N2Z.inj_abs_N in Hm.
    destruct (Nat.le_gt_cases (String.length (str_of_N (Z.abs_N n))) k) as [Hle|Hgt];
      [lia|].
    exfalso.
    assert (Hpow : (10 ^ Z.of_nat k
                    <= 10 ^ Z.of_nat (String.length (str_of_N (Z.abs_N n)) - 1))%Z)
      by (apply Z.pow_le_mono_r; lia).
    lia.
Qed.

(** An integer within [int64] has at most 19 digits. *)
Lemma in_int64_digits (n : Z) :
  in_int64 n = true -> (decimal_digits n <=? max_str_digits)%N = true.
Proof.
  intros H. apply N.leb_le.
  apply N.le_trans with (N.of_nat 19); [|vm_compute; discriminate].
  apply decimal_digits_le; [lia|].
  unfold in_int64, int64_min, int64_max in H.
  apply andb_prop in H as [H1 H2]. apply Z.leb_le in H1, H2.
  change (10 ^ Z.of_nat 19)%Z with 10000000000000000000%Z. lia.
Qed.

(** *** [int()] on decimal text *)

Lemma digit_count_all_digits (s : string) :
  all_digits s = true -> digit_count s = N.of_nat (String.length s).
Proof.
  unfold digit_count, all_digits. intros H. f_equal.
  induction s as [|c s IH]; [reflexivity|]. simpl in *.
  apply andb_prop in H as [Hc Hs]. rewrite Hc. simpl. f_equal. exact (IH Hs).
Qed.

Lemma int_literal_all_digits (s : string) :
  all_digits s = true -> int_literal s = digits_value s 0 false.
Proof.
  intros Hd. destruct s as [|c s']; [reflexivity|].
  assert (Hc : is_digit c = true).
  { unfold all_digits in Hd. simpl in Hd. apply andb_prop in Hd. tauto. }
  destruct c as [[] [] [] [] [] [] [] []];
    try (vm_compute in Hc; discriminate Hc); reflexivity.
Qed.

(** [int()] on a run of digits is the value of the digits, when there are
    not too many of them. *)
Lemma py_int_all_digits (s : string) :
  all_digits s = true ->
  py_int s = match digits_value s 0 false with
             | Some v =>
                 if (N.of_nat (String.length s) <=? max_str_digits)%N then Ok v
                 else Raise ValueError
             | None => Raise ValueError
             end.
Proof.
  intros Hd. unfold py_int.
  rewrite (int_strip_no_space _ (all_digits_no_space _ Hd)).
  rewrite (int_literal_all_digits _ Hd), (digit_count_all_digits _ Hd).
  reflexivity.
Qed.

(** [int()] accepts every non-empty run of at most [max_str_digits] decimal
    digits, and no longer one. *)
Lemma py_int_digits (s : string) :
  all_digits s = true -> s <> EmptyString ->
  is_ok (py_int s) = (N.of_nat (String.length s) <=? max_str_digits)%N.
Proof.
  intros Hd Hne. rewrite (py_int_all_digits _ Hd).
  destruct (@digits_value_digits s 0%Z false Hd (or_introl Hne)) as [v ->].
  destruct (_ <=? _)%N; reflexivity.
Qed.

Lemma int_literal_zero_padded (w : nat) (n : Z) :
  int_literal (zero_padded w n) = Some n.
Proof.
  destruct n as [|p|p]; unfold zero_padded.
  - rewrite int_literal_all_digits by apply all_digits_zfill.
    rewrite digits_value_zfill. reflexivity.
  - rewrite int_literal_all_digits by apply all_digits_zfill.
    rewrite digits_value_zfill. reflexivity.
  - cbn [int_literal]. rewrite digits_value_zfill. reflexivity.
Qed.

(** The decimal text of an integer is the text of one integer only. *)
Lemma zero_padded_inj (w w' : nat) (n m : Z) :
  zero_padded w n = zero_padded w' m -> n = m.
Proof.
  intros E. pose proof (int_literal_zero_padded w n) as H.
  rewrite E, int_literal_zero_padded in H. congruence.
Qed.

Lemma length_filter_app (A : Type) (p : A -> bool) (l l' : list A) :
  List.length (filter p (l ++ l'))
  = (List.length (filter p l) + List.length (filter p l'))%nat.
Proof. rewrite filter_app, length_app. reflexivity. Qed.

Lemma digit_count_zfill (w : nat) (n : N) :
  digit_count (zfill w (str_of_N n))
  = N.of_nat (Nat.max w (String.length (str_of_N n))).
Proof.
  rewrite digit_count_all_digits by apply all_digits_zfill.
  rewrite zfill_length. reflexivity.
Qed.

Lemma digit_count_zero_padded (w : nat) (n : Z) :
  (w <= 4300)%nat ->
  (digit_count (zero_padded w n) <=? max_str_digits)%N
  = (decimal_digits n <=? max_str_digits)%N.
Proof.
  intros Hw. unfold decimal_digits, max_str_digits.
  assert (H4300 : N.of_nat 4300 = 4300%N) by reflexivity.
  destruct n as [|p|p]; unfold zero_padded.
  - rewrite digit_count_zfill. change (Z.to_N 0) with 0%N. change (Z.abs_N 0) with 0%N.
    apply eq_true_iff_eq. rewrite !N.leb_le, <- H4300. lia.
  - rewrite digit_count_zfill. change (Z.to_N (Z.pos p)) with (N.pos p).
    change (Z.abs_N (Z.pos p)) with (N.pos p).
    apply eq_true_iff_eq. rewrite !N.leb_le, <- H4300. lia.
  - change (Z.abs_N (Z.neg p)) with (N.pos p).
    change (digit_count (String "-" (zfill (w - 1) (str_of_N (N.pos p)))))
      with (digit_count (zfill (w - 1) (str_of_N (N.pos p)))).
    rewrite digit_count_zfill.
    apply eq_true_iff_eq. rewrite !N.leb_le, <- H4300. lia.
Qed.

(** [int()] reads the decimal text of an integer back, up to the limit on
    the number of digits. *)
Lemma py_int_zero_padded (w : nat) (n : Z) :
  (w <= 4300)%nat ->
  py_int (zero_padded w n)
  = if (decimal_digits n <=? max_str_digits)%N then Ok n else Raise ValueError.
Proof.
  intros Hw. unfold py_int.
  rewrite (int_strip_no_space _ (no_space_zero_padded w n)).
  rewrite int_literal_zero_padded, (digit_count_zero_padded _ Hw). reflexivity.
Qed.

(** [int(f"{n:0Wd}") == n] whenever the format renders [n]. *)
Lemma py_int_format_0d (w : nat) (n : Z) (s : string) :
  (w <= 4300)%nat -> format_0d w n = Ok s -> py_int s = Ok n.
Proof.
  unfold format_0d. intros Hw H.
  destruct (decimal_digits n <=? max_str_digits)%N eqn:E; [|discriminate].
  injection H as <-. rewrite (py_int_zero_padded _ Hw), E. reflexivity.
Qed.

Lemma format_0d_int64 (w : nat) (n : Z) :
  in_int64 n = true -> format_0d w n = Ok (zero_padded w n).
Proof. intros H. unfold format_0d. rewrite (in_int64_digits _ H). reflexivity. Qed.

Lemma py_int_int64 (n : Z) : in_int64 n = true -> py_int (str_of_Z n) = Ok n.
Proof.
  intros H. unfold str_of_Z. rewrite py_int_zero_padded by lia.
  rewrite (in_int64_digits _ H). reflexivity.
Qed.

(** [int(str(n)) == n] for the column numbers of a plate. *)
Lemma py_int_str_of_nat (n : nat) :
  (n <= 12)%nat -> py_int (str_of_nat n) = Ok (Z.of_nat n).
Proof.
  intros H. do 13 (destruct n as [|n]; [vm_compute; reflexivity|]). lia.
Qed.

(** ** The merge *)

Import Merger.

(** *** The cast *)

Lemma int_cell_range (x : cell) (n : Z) : int_cell x = Some n -> in_int64 n = true.
Proof.
  destruct x as [|m|s]; unfold int_cell; [discriminate | |].
  - destruct (in_int64 m) eqn:E; [congruence | discriminate].
  - destruct (py_int s) as [m|]; [|discriminate].
    destruct (in_int64 m) eqn:E; [congruence | discriminate].
Qed.

Lemma int_cell_object (x : cell) (n : Z) :
  int_cell x = Some n -> int_of_object x = Ok n.
Proof.
  destruct x as [|m|s]; unfold int_cell, int_of_object; [discriminate | |].
  - destruct (in_int64 m) eqn:E; [|discriminate]. intros [= <-].
    rewrite (py_int_int64 _ E). cbn [bind]. rewrite E. reflexivity.
  - destruct (py_int s) as [m|]; [|discriminate]. cbn [bind].
    destruct (in_int64 m); [congruence | discriminate].
Qed.

Lemma int_in_int_cell (x : cell) :
  int_in in_int64 x = true -> int_cell x = Some (int_value x).
Proof.
  destruct x; unfold int_in, int_cell, int_value; [discriminate | | discriminate].
  intros ->. reflexivity.
Qed.

Lemma int_cell_int_in (range : Z -> bool) (x : cell) :
  int_cell x <> None -> isna x || int_in range x = true -> int_in in_int64 x = true.
Proof.
  destruct x as [|m|s]; unfold int_cell, int_in; cbn [isna orb];
    [congruence | | discriminate].
  destruct (in_int64 m); [reflexivity | congruence].
Qed.

(** On a column all of whose cells stand for an integer within [int64],
    [astype(int)] returns those integers. *)
Lemma astype_int_cells (values : list cell) :
  (forall x, In x values -> int_cell x <> None) ->
  astype_int values = Ok (map cast_value values).
Proof.
  intros H. unfold astype_int.
  assert (Hup : forall range,
             forallb (fun x => isna x || int_in range x) values = true ->
             forallb (int_in in_int64) values = true).
  { intros range Hr. apply forallb_forall. intros x Hx.
    apply (@int_cell_int_in range); [exact (H x Hx)|].
    rewrite forallb_forall in Hr. exact (Hr x Hx). }
  destruct (forallb (int_in in_int64) values) eqn:E1.
  - f_equal. apply map_ext_in. intros x Hx. unfold cast_value.
    rewrite forallb_forall in E1. rewrite (int_in_int_cell _ (E1 x Hx)). reflexivity.
  - destruct (forallb (int_in in_uint64) values) eqn:E2.
    { assert (false = true); [|discriminate].
      apply (Hup in_uint64). apply forallb_forall. intros x Hx.
      rewrite forallb_forall in E2. rewrite (E2 x Hx). apply orb_true_r. }
    destruct (forallb (fun x => isna x || int_in in_int64 x) values) eqn:E3.
    { discriminate (Hup in_int64 E3). }
    clear E1 E2 E3 Hup.
    induction values as [|x values IH]; [reflexivity|]. cbn [map_result map].
    unfold cast_value at 1.
    destruct (int_cell x) as [n|] eqn:Ex; [|exfalso; exact (H x (or_introl eq_refl) Ex)].
    rewrite (int_cell_object _ Ex). cbn [bind].
    rewrite IH by (intros y Hy; apply H; now right). reflexivity.
Qed.

(** *** The two keys *)

Lemma s_id_int64 (n : Z) :
  in_int64 n = true -> s_id n = Ok ("S_" ++ zero_padded 3 n)%string.
Proof. intros H. unfold s_id. rewrite (@format_0d_int64 3 n H). reflexivity. Qed.

Lemma amine_id_int64 (n : Z) :
  in_int64 n = true -> amine_id n = Ok ("Amine_ID_" ++ zero_padded 3 n)%string.
Proof. intros H. unfold amine_id. rewrite (@format_0d_int64 3 n H). reflexivity. Qed.

Lemma s_id_ok (n : Z) (key : string) :
  s_id n = Ok key ->
  key = ("S_" ++ zero_padded 3 n)%string /\
  (decimal_digits n <=? max_str_digits)%N = true.
Proof.
  unfold s_id, format_0d.
  destruct (decimal_digits n <=? max_str_digits)%N; simpl; [|discriminate].
  intros [= <-]. split; reflexivity.
Qed.

Lemma amine_id_ok (n : Z) (key : string) :
  amine_id n = Ok key ->
  key = ("Amine_ID_" ++ zero_padded 3 n)%string /\
  (decimal_digits n <=? max_str_digits)%N = true.
Proof.
  unfold amine_id, format_0d.
  destruct (decimal_digits n <=? max_str_digits)%N; simpl; [|discriminate].
  intros [= <-]. split; reflexivity.
Qed.

Lemma s_id_no_space (n : Z) (key : string) : s_id n = Ok key -> no_space key = true.
Proof.
  intros H. apply s_id_ok in H as [-> _].
  rewrite no_space_app, no_space_zero_padded. reflexivity.
Qed.

Lemma amine_id_no_space (n : Z) (key : string) :
  amine_id n = Ok key -> no_space key = true.
Proof.
  intros H. apply amine_id_ok in H as [-> _].
  rewrite no_space_app, no_space_zero_padded. reflexivity.
Qed.

(** The merger's keys are injective, whatever the sign of the number. *)
Lemma s_id_inj (n m : Z) (key : string) : s_id n = Ok key -> s_id m = Ok key -> n = m.
Proof.
  intros Hn Hm. apply s_id_ok in Hn as [-> _]. apply s_id_ok in Hm as [Hm _].
  apply string_app_inv_head in Hm. exact (@zero_padded_inj _ _ _ _ Hm).
Qed.

Lemma amine_id_inj (n m : Z) (key : string) :
  amine_id n = Ok key -> amine_id m = Ok key -> n = m.
Proof.
  intros Hn Hm. apply amine_id_ok in Hn as [-> _]. apply amine_id_ok in Hm as [Hm _].
  apply string_app_inv_head in Hm. exact (@zero_padded_inj _ _ _ _ Hm).
Qed.

Lemma lookup_norm (f : string -> cell) (cols : list string) (r2 : row) (c : string) :
  lookup c (map (fun c' => (c', f c')) cols ++ r2)
  = if mem c cols then f c else lookup c r2.
Proof.
  induction cols as [|c0 cols IH]; simpl; [reflexivity|].
  destruct (String.eqb_spec c c0) as [->|Hne]; simpl; [reflexivity | exact IH].
Qed.

Lemma map_result_map_ok (A B C : Type) (h : A -> B) (f : B -> result C) (g : A -> C)
    (xs : list A) :
  (forall x, In x xs -> f (h x) = Ok (g x)) ->
  map_result f (map h xs) = Ok (map g xs).
Proof.
  induction xs as [|x xs IH]; intros H; simpl; [reflexivity|].
  rewrite (H x (or_introl eq_refl)). simpl.
  rewrite IH by (intros; apply H; now right). reflexivity.
Qed.

Lemma combine_map_r (A B : Type) (g : A -> B) (xs : list A) :
  combine xs (map g xs) = map (fun x => (x, g x)) xs.
Proof. induction xs; simpl; congruence. Qed.

Lemma dtype_clash_text (lk rk : list cell) :
  Forall (fun x => is_text x = true) lk -> Forall (fun x => is_text x = true) rk ->
  dtype_clash lk rk = false.
Proof.
  intros Hl Hr. unfold dtype_clash, numeric_dtype.
  destruct lk as [|x lk]; [reflexivity|]. destruct rk as [|y rk]; [reflexivity|].
  inversion Hl; inversion Hr; subst. simpl.
  repeat match goal with H : is_text _ = true |- _ => rewrite H end. reflexivity.
Qed.


Lemma flat_map_map' (A B C : Type) (f : B -> list C) (g : A -> B) (xs : list A) :
  flat_map f (map g xs) = flat_map (fun x => f (g x)) xs.
Proof. induction xs; simpl; congruence. Qed.

Lemma filter_map_comm (A B : Type) (p : B -> bool) (g : A -> B) (xs : list A) :
  filter p (map g xs) = map g (filter (fun x => p (g x)) xs).
Proof.
  induction xs as [|x xs IH]; simpl; [reflexivity|].
  destruct (p (g x)); simpl; congruence.
Qed.

Lemma map_flat_map' (A B C : Type) (f : B -> C) (g : A -> list B) (xs : list A) :
  map f (flat_map g xs) = flat_map (fun x => map f (g x)) xs.
Proof. induction xs; simpl; [reflexivity|]. rewrite map_app. congruence. Qed.

Lemma filter_extra (extra : list string) :
  forallb (fun c => negb (mem c Enum96.product_columns)) extra = true ->
  filter (fun c => mem c ["ProductID"; "S_ID"; "Amine_ID"; "SMILES"; "Status"]) extra = [].
Proof.
  induction extra as [|c extra IH]; simpl; [reflexivity|].
  intros H. apply andb_prop in H as [H1 H2].
  unfold Enum96.product_columns in H1. simpl in H1.
  apply negb_true_iff in H1. rewrite H1. exact (IH H2).
Qed.

(** [df[col].astype(int).map(f)] on a column all of whose cells stand for an
    integer within [int64]. *)
Lemma normalize_cells (df : DataFrame) (col : string) (f : Z -> result string)
    (g : Z -> string) :
  has_column df col = true ->
  (forall l, In l (rows df) -> int_cell (lookup col l) <> None) ->
  (forall n, in_int64 n = true -> f n = Ok (g n)) ->
  normalize df col f = Ok (map (fun l => StrV (g (number l col))) (rows df)).
Proof.
  intros Hc Hn Hf. unfold normalize, column_values. rewrite Hc. cbn [bind].
  rewrite astype_int_cells.
  2:{ intros x Hx. apply in_map_iff in Hx as (l & <- & Hl). exact (Hn l Hl). }
  cbn [bind]. rewrite map_map.
  apply map_result_map_ok. intros l Hl. unfold number, cast_value.
  destruct (int_cell (lookup col l)) as [n|] eqn:E; [|exfalso; exact (Hn l Hl E)].
  rewrite (Hf n (int_cell_range _ E)). reflexivity.
Qed.

Lemma normalize_S (rs : list row) :
  (forall l, In l rs -> int_cell (lookup "Sulfonyl chloride #" l) <> None) ->
  normalize (mkDataFrame dest_columns rs) "Sulfonyl chloride #" s_id
  = Ok (map dest_S_ID rs).
Proof.
  intros H.
  apply (@normalize_cells (mkDataFrame dest_columns rs) "Sulfonyl chloride #" s_id
           (fun n => ("S_" ++ zero_padded 3 n)%string));
    [reflexivity | exact H | exact s_id_int64].
Qed.

Lemma set_S (rs : list row) :
  set_column (mkDataFrame dest_columns rs) "S_ID" (map dest_S_ID rs)
  = mkDataFrame (dest_columns ++ ["S_ID"])
      (map (fun l => map (fun c => (c, merged_cell l None c)) (dest_columns ++ ["S_ID"])) rs).
Proof.
  unfold set_column. simpl. f_equal.
  rewrite combine_map_r, map_map. reflexivity.
Qed.

Lemma normalize_A (rs : list row) :
  (forall l, In l rs -> int_cell (lookup "Amine #" l) <> None) ->
  normalize (mkDataFrame (dest_columns ++ ["S_ID"])
      (map (fun l => map (fun c => (c, merged_cell l None c)) (dest_columns ++ ["S_ID"])) rs))
    "Amine #" amine_id
  = Ok (map dest_Amine_ID rs).
Proof.
  intros H.
  rewrite (@normalize_cells _ "Amine #" amine_id
             (fun n => ("Amine_ID_" ++ zero_padded 3 n)%string));
    [ | reflexivity | | exact amine_id_int64].
  - cbn [rows]. rewrite map_map. reflexivity.
  - cbn [rows]. intros l' Hl'. apply in_map_iff in Hl' as (l & <- & Hl).
    exact (H l Hl).
Qed.


Lemma combine_map_map (A B C : Type) (f : A -> B) (g : A -> C) (xs : list A) :
  combine (map f xs) (map g xs) = map (fun x => (f x, g x)) xs.
Proof. induction xs; simpl; congruence. Qed.

Lemma set_A (rs : list row) :
  set_column (mkDataFrame (dest_columns ++ ["S_ID"])
      (map (fun l => map (fun c => (c, merged_cell l None c)) (dest_columns ++ ["S_ID"])) rs))
    "Amine_ID" (map dest_Amine_ID rs)
  = mkDataFrame cols2 (map row2 rs).
Proof.
  unfold set_column. simpl. f_equal.
  rewrite combine_map_map, map_map. reflexivity.
Qed.

Lemma keep_cols (extra : list string) :
  forallb (fun c => negb (mem c Enum96.product_columns)) extra = true ->
  filter (fun c => mem c ["ProductID"; "S_ID"; "Amine_ID"; "SMILES"; "Status"])
         (Enum96.product_columns ++ extra)
  = Enum96.product_columns.
Proof.
  intros H. rewrite filter_app, (filter_extra _ H). reflexivity.
Qed.

Lemma select_prod (extra : list string) (ps : list row) :
  select_columns (mkDataFrame (Enum96.product_columns ++ extra) ps)
                 Enum96.product_columns
  = Ok (mkDataFrame Enum96.product_columns (map rowp ps)).
Proof. reflexivity. Qed.

Lemma merge_step (rs ps : list row) :
  (forall p, In p ps ->
     is_text (lookup "S_ID" p) = true /\ is_text (lookup "Amine_ID" p) = true) ->
  merge_left (mkDataFrame cols2 (map row2 rs))
             (mkDataFrame Enum96.product_columns (map rowp ps))
             ["S_ID"; "Amine_ID"]
  = Ok (mkDataFrame (cols2 ++ product_fields)
          (flat_map
             (fun l =>
                match partners (mkDataFrame Enum96.product_columns ps) l with
                | [] => [row2 l ++ map (fun c => (c, NaN)) product_fields]
                | qs => map (fun p => row2 l ++ map (fun c => (c, lookup c p)) product_fields) qs
                end) rs)).
Proof.
  intros Htext. unfold merge_left.
  change (negb (forallb _ _ && forallb _ _)) with false. cbv iota.
  cbn [rows columns].
  assert (Hclash :
    existsb (fun k => dtype_clash (map (lookup k) (map row2 rs))
                                  (map (lookup k) (map rowp ps)))
            ["S_ID"; "Amine_ID"] = false).
  { simpl. rewrite !map_map.
    rewrite !dtype_clash_text; [reflexivity | | | |];
      apply Forall_forall; intros x Hx;
      apply in_map_iff in Hx as (y & <- & Hy);
      try reflexivity; apply (Htext y Hy). }
  rewrite Hclash. f_equal. f_equal.
  rewrite flat_map_map'. apply flat_map_ext. intros l.
  rewrite filter_map_comm.
  replace (filter (fun x => keys_match ["S_ID"; "Amine_ID"] (row2 l) (rowp x)) ps)
    with (partners (mkDataFrame Enum96.product_columns ps) l).
  2:{ unfold partners. apply filter_ext. intros p. unfold keys_match. simpl.
      rewrite andb_true_r. reflexivity. }
  destruct (partners _ l) as [|q qs]; [reflexivity|].
  change (map rowp (q :: qs)) with (rowp q :: map rowp qs). cbv iota.
  change (rowp q :: map rowp qs) with (map rowp (q :: qs)).
  rewrite map_map. apply map_ext. intros p. reflexivity.
Qed.

Lemma select_out (rs ps : list row) :
  select_columns
    (mkDataFrame (cols2 ++ product_fields)
       (flat_map
          (fun l =>
             match partners (mkDataFrame Enum96.product_columns ps) l with
             | [] => [row2 l ++ map (fun c => (c, NaN)) product_fields]
             | qs => map (fun p => row2 l ++ map (fun c => (c, lookup c p)) product_fields) qs
             end) rs))
    out_cols
  = Ok (mkDataFrame out_cols
          (merged_rows (mkDataFrame dest_columns rs)
                       (mkDataFrame Enum96.product_columns ps))).
Proof.
  unfold select_columns.
  change (forallb _ out_cols) with true. cbv iota. cbn [rows]. f_equal. f_equal.
  rewrite map_flat_map'. unfold merged_rows. cbn [rows].
  apply flat_map_ext. intros l.
  destruct (partners _ l) as [|q qs]; [reflexivity|].
  rewrite map_map. apply map_ext. intros p. reflexivity.
Qed.

Lemma partners_columns (cols cols' : list string) (ps : list row) (l : row) :
  partners (mkDataFrame cols ps) l = partners (mkDataFrame cols' ps) l.
Proof. reflexivity. Qed.

Lemma main_complete (df_dest df_prod : DataFrame) :
  dest_complete df_dest -> product_table df_prod ->
  main df_dest df_prod
  = Ok (let dfm := mkDataFrame out_cols (merged_rows df_dest df_prod) in
        mkOutcome dfm (qc_report dfm) (status_of (List.length (missing_rows dfm)))).
Proof.
  intros [Hcols Hnum] [(extra & Hpc & Hextra) Htext].
  destruct df_dest as [dc rs], df_prod as [pc ps].
  cbn [columns rows] in *. subst dc pc.
  unfold main.
  rewrite normalize_S by (intros l Hl; apply (Hnum l Hl)). cbn [bind].
  rewrite set_S.
  rewrite normalize_A by (intros l Hl; apply (Hnum l Hl)). cbn [bind].
  rewrite set_A. cbn [columns].
  rewrite (keep_cols _ Hextra), select_prod. cbn [bind].
  rewrite (merge_step rs _ Htext). cbn [bind].
  rewrite select_out. cbn [bind]. reflexivity.
Qed.

Lemma main_outcome (df_dest df_prod : DataFrame) (o : Outcome) :
  main df_dest df_prod = Ok o ->
  qc_lines o = qc_report (merged o) /\
  exit_status o = status_of (List.length (missing_rows (merged o))).
Proof.
  unfold main. intros H.
  repeat (apply bind_ok in H as (? & _ & H)).
  injection H as <-. split; reflexivity.
Qed.

Lemma status_of_zero (n : nat) : status_of n = 0%Z <-> n = 0%nat.
Proof. unfold status_of. destruct n; simpl; split; (congruence || lia). Qed.

Lemma status_of_one (n : nat) : status_of n = 1%Z <-> (0 < n)%nat.
Proof. unfold status_of. destruct n; simpl; split; (congruence || lia). Qed.

Lemma cell_eqb_eq (x y : cell) : cell_eqb x y = true <-> x = y.
Proof.
  destruct x, y; simpl; try (split; congruence).
  - rewrite Z.eqb_eq. split; congruence.
  - rewrite String.eqb_eq. split; congruence.
Qed.

Lemma partners_in (df_prod : DataFrame) (l p : row) :
  In p (partners df_prod l) ->
  In p (rows df_prod) /\ product_key p = (dest_S_ID l, dest_Amine_ID l).
Proof.
  unfold partners. intros H. apply filter_In in H as [Hin H].
  apply andb_prop in H as [H1 H2].
  apply cell_eqb_eq in H1, H2. unfold product_key. split; congruence.
Qed.

Lemma filter_key_unique (A K : Type) (key : A -> K) (p : A -> bool) (k : K) (xs : list A) :
  NoDup (map key xs) -> (forall x, p x = true -> key x = k) ->
  (List.length (filter p xs) <= 1)%nat.
Proof.
  intros Hnd Hp. induction xs as [|x xs IH]; simpl; [lia|].
  inversion Hnd as [|? ? Hnotin Hnd']; subst.
  destruct (p x) eqn:E; [|exact (IH Hnd')].
  simpl. assert (filter p xs = []) as ->; [|simpl; lia].
  destruct (filter p xs) as [|y ys] eqn:F; [reflexivity|].
  exfalso. apply Hnotin.
  assert (Hy : In y (filter p xs)) by (rewrite F; now left).
  apply filter_In in Hy as [Hy Hpy].
  rewrite (Hp x E), <- (Hp y Hpy). apply in_map, Hy.
Qed.

Lemma partners_unique (df_prod : DataFrame) (l : row) :
  NoDup (map product_key (rows df_prod)) ->
  (List.length (partners df_prod l) <= 1)%nat.
Proof.
  intros Hnd. unfold partners.
  apply (@filter_key_unique _ _ product_key _ (dest_S_ID l, dest_Amine_ID l)); [exact Hnd|].
  intros p H. apply andb_prop in H as [H1 H2].
  apply cell_eqb_eq in H1, H2. unfold product_key. congruence.
Qed.

Lemma missing_count (df_dest df_prod : DataFrame) :
  (forall p, In p (rows df_prod) -> isna (lookup "SMILES" p) = false) ->
  filter smiles_missing (merged_rows df_dest df_prod)
  = map (fun l => merged_row l None) (unmatched df_dest df_prod).
Proof.
  intros Hs. unfold merged_rows, unmatched.
  generalize (rows df_dest) as ls.
  induction ls as [|l ls IH]; [reflexivity|].
  cbn [flat_map filter]. rewrite filter_app, IH.
  destruct (partners df_prod l) as [|q qs] eqn:E; [reflexivity|].
  cbn [nonempty negb].
  assert (Hall : forall p, In p (q :: qs) -> smiles_missing (merged_row l (Some p)) = false).
  { intros p Hp. rewrite <- E in Hp. apply partners_in in Hp as [Hp _].
    exact (Hs p Hp). }
  assert (filter smiles_missing (map (fun p => merged_row l (Some p)) (q :: qs)) = []) as ->;
    [|reflexivity].
  revert Hall. generalize (q :: qs) as ps. clear.
  induction ps as [|p ps IH]; intros Hall; [reflexivity|].
  cbn [map filter]. rewrite (Hall p (or_introl eq_refl)).
  apply IH. intros; apply Hall; now right.
Qed.

Lemma merged_wells (df_dest df_prod : DataFrame) :
  map (lookup "Well") (merged_rows df_dest df_prod)
  = flat_map (fun l => repeat (lookup "Well" l)
                         (Nat.max 1 (List.length (partners df_prod l))))
             (rows df_dest).
Proof.
  unfold merged_rows. rewrite map_flat_map'. apply flat_map_ext. intros l.
  destruct (partners df_prod l) as [|q qs]; [reflexivity|].
  change (Nat.max 1 (List.length (q :: qs))) with (List.length (q :: qs)).
  generalize (q :: qs). intros ps. rewrite map_map.
  induction ps as [|p ps IH]; [reflexivity|]. simpl. f_equal. exact IH.
Qed.

Lemma flat_map_singletons (A B : Type) (f : A -> list B) (g : A -> B) (xs : list A) :
  (forall x, In x xs -> f x = [g x]) -> flat_map f xs = map g xs.
Proof.
  induction xs as [|x xs IH]; intros H; [reflexivity|].
  simpl. rewrite (H x (or_introl eq_refl)), IH by (intros; apply H; now right).
  reflexivity.
Qed.

(** ** Properties of the merger *)

(** C6, as the code has it.  Whenever the merge returns, its exit status is 0
    exactly when no merged row lacks its SMILES and 1 exactly when some row
    does.  It returns for a destination map as the analyzer writes it whose
    rows all carry both reagent numbers, each within [int64], and a product
    table as the enumerator writes it; if moreover no product lacks its
    SMILES, the rows counted as missing are exactly the destination rows no
    product matches. *)
Theorem C6_merge_status :
  forall (df_dest df_prod : DataFrame),
    (forall o, main df_dest df_prod = Ok o ->
       let n_missing := List.length (missing_rows (merged o)) in
       (exit_status o = 0%Z <-> n_missing = 0%nat) /\
       (exit_status o = 1%Z <-> (0 < n_missing)%nat)) /\
    (dest_complete df_dest -> product_table df_prod ->
     exists o,
       main df_dest df_prod = Ok o /\
       ((forall p, In p (rows df_prod) -> isna (lookup "SMILES" p) = false) ->
        missing_rows (merged o)
        = map (fun l => merged_row l None) (unmatched df_dest df_prod) /\
        (exit_status o = 0%Z <-> unmatched df_dest df_prod = []))).
Proof.
  intros df_dest df_prod. split.
  - intros o H n_missing. apply main_outcome in H as [_ ->].
    split; [apply status_of_zero | apply status_of_one].
  - intros Hd Hp. eexists. split; [apply main_complete; assumption|].
    intros Hs. cbn [merged exit_status]. unfold missing_rows at 1. cbn [rows].
    split; [apply (missing_count _ _ Hs)|].
    rewrite status_of_zero. unfold missing_rows. cbn [rows].
    rewrite (missing_count _ _ Hs), length_map.
    destruct (unmatched df_dest df_prod); simpl; split; (congruence || lia).
Qed.

Lemma example_dest_complete : dest_complete Merger.Example.dest.
Proof.
  split; [reflexivity|].
  intros l [<- | [<- | []]]; split; vm_compute; discriminate.
Qed.

Lemma example_product_table (ps : list row) :
  Forall (fun p => is_text (lookup "S_ID" p) = true
                   /\ is_text (lookup "Amine_ID" p) = true) ps ->
  product_table (mkDataFrame (Enum96.product_columns ++ ["MolWt"]) ps).
Proof.
  intros H. split.
  - exists ["MolWt"]. split; reflexivity.
  - apply Forall_forall. exact H.
Qed.

Lemma C6_witness :
  exists o, main Merger.Example.dest Merger.Example.products = Ok o.
Proof.
  assert (Hp : product_table Merger.Example.products)
    by (apply example_product_table; repeat constructor).
  destruct (C6_merge_status Merger.Example.dest Merger.Example.products) as [_ H].
  destruct (H example_dest_complete Hp) as (o & E & _).
  exists o. exact E.
Defined.

(** C6 as the specification states it fails: the analyzer's own output for the small
    protocol has well B1 reached by a sulfonyl chloride only and well A2 by an
    amine only; their empty number cannot be cast to an integer and the merge
    ends with an exception instead of a status. *)
Lemma C6_counterexample_missing_number :
  exists dest_rows source_rows,
    Analyzer.parse_protocol (Analyzer.Example.tree_body []) = Ok (dest_rows, source_rows) /\
    map (fun r => (Analyzer.Well r, Analyzer.Sulfonyl_chloride_no r, Analyzer.Amine_no r))
        dest_rows
    = [("A1", Some 1%Z, Some 1%Z); ("B1", Some 1%Z, None); ("A2", None, Some 1%Z)] /\
    main (Analyzer.destination_layout dest_rows) Merger.Example.products
    = Raise ValueError.
Proof.
  eexists _, _. split; [vm_compute; reflexivity|].
  split; vm_compute; reflexivity.
Qed.

(** For a destination map whose rows all carry both numbers and a product
    table as the enumerator writes it, the merge is the left join driven by
    the destination map: every destination row appears, in order, once per
    product row with equal keys and once when there is none; so exactly once
    each when the product keys are distinct.  A row without partner has its
    ProductID, SMILES and Status missing and is among the missing rows of the
    QC report. *)
Lemma merge_is_left_join :
  forall (df_dest df_prod : DataFrame),
    dest_complete df_dest -> product_table df_prod ->
    exists o,
      main df_dest df_prod = Ok o /\
      rows (merged o) = merged_rows df_dest df_prod /\
      map (lookup "Well") (rows (merged o))
      = flat_map (fun l => repeat (lookup "Well" l)
                             (Nat.max 1 (List.length (partners df_prod l))))
                 (rows df_dest) /\
      (NoDup (map product_key (rows df_prod)) ->
       map (lookup "Well") (rows (merged o)) = map (lookup "Well") (rows df_dest)) /\
      (forall l, In l (rows df_dest) -> partners df_prod l = [] ->
         In (merged_row l None) (missing_rows (merged o)) /\
         lookup "ProductID" (merged_row l None) = NaN /\
         lookup "SMILES" (merged_row l None) = NaN /\
         lookup "Status" (merged_row l None) = NaN).
Proof.
  intros df_dest df_prod Hd Hp. eexists.
  split; [apply main_complete; assumption|]. cbn [merged rows].
  split; [reflexivity|]. split; [apply merged_wells|]. split.
  - intros Hnd. rewrite merged_wells. apply flat_map_singletons.
    intros l _. pose proof (partners_unique df_prod l Hnd) as Hle.
    destruct (partners df_prod l) as [|q [|q' qs]]; [reflexivity | reflexivity|].
    simpl in Hle. lia.
  - intros l Hl Hnone. split; [|repeat split].
    unfold missing_rows. cbn [rows]. apply filter_In. split; [|reflexivity].
    unfold merged_rows. apply in_flat_map. exists l. split; [exact Hl|].
    rewrite Hnone. now left.
Qed.

(** C7.  The merge does not keep to one row per well.  The destination map
    has the wells A1 and B1, once each; the product table holds the pair of
    keys [(S_001, Amine_ID_001)] twice, as two reagent rows sharing the ID
    [S_001] produce it.  The merge returns, and its output has well A1 twice,
    once with each product, and well B1 once without product. *)
Theorem C7_duplicate_keys_repeat_well :
  map (lookup "Well") (rows Merger.Example.dest) = [StrV "A1"; StrV "B1"] /\
  map product_key (rows Merger.Example.products_twice)
  = [(StrV "S_001", StrV "Amine_ID_001"); (StrV "S_001", StrV "Amine_ID_001")] /\
  exists o,
    main Merger.Example.dest Merger.Example.products_twice = Ok o /\
    map (fun r => (lookup "Well" r, lookup "ProductID" r)) (rows (merged o))
    = [(StrV "A1", IntV 0); (StrV "A1", IntV 1); (StrV "B1", NaN)].
Proof.
  split; [reflexivity|]. split; [reflexivity|].
  eexists. split; vm_compute; reflexivity.
Qed.

(** A number from [2^63] up is not rendered as itself: alone in its column
    it is read modulo [2^64]. *)
Example key_of_2_63 :
  normalize (mkDataFrame ["Sulfonyl chloride #"]
               [[("Sulfonyl chloride #", IntV 9223372036854775808)]])
            "Sulfonyl chloride #" s_id
  = Ok [StrV "S_-9223372036854775808"].
Proof. vm_compute. reflexivity. Qed.

(** ** Reagent keys: merger and enumerator *)

Section ReagentKeys.

Variable Mol : Type.
Variable MolFromSmiles : string -> option Mol.
Variable MolToSmiles : Mol -> string.

(** C5, as the code has it.  For a destination map whose rows all carry both
    reagent numbers, each within [int64], the merger renders the number [n]
    of a row as [S_] or [Amine_ID_] followed by [n] in decimal, padded with
    zeros to three digits, and joins the product rows that carry exactly
    these two strings.  For a number that is not negative the rendering is
    digits only, three of them or as many as the number has; it is the text
    of one number only, whatever the sign.  The enumerator takes a reagent's
    ID from the ID column of its CSV, stripped, so it equals the merger's
    string exactly when the CSV holds that string.  Without an ID column the
    enumerator generates [S_] or [A_] followed by the row index zero-padded
    to six digits: for amines this never equals a merger key, and for
    sulfonyls only when the number equals the index and has six digits or
    more. *)
Theorem C5_merger_keys_and_enumerator_ids :
  (forall df_dest,
      dest_complete df_dest ->
      normalize df_dest "Sulfonyl chloride #" s_id
      = Ok (map (fun l => StrV ("S_" ++ zero_padded 3 (number l "Sulfonyl chloride #")))
                (rows df_dest)) /\
      normalize df_dest "Amine #" amine_id
      = Ok (map (fun l => StrV ("Amine_ID_" ++ zero_padded 3 (number l "Amine #")))
                (rows df_dest))) /\
  (forall df_dest df_prod,
      dest_complete df_dest -> product_table df_prod ->
      exists o,
        main df_dest df_prod = Ok o /\
        rows (merged o)
        = flat_map
            (fun l =>
               match filter
                       (fun p =>
                          cell_eqb (StrV ("S_" ++ zero_padded 3
                                            (number l "Sulfonyl chloride #")))
                                   (lookup "S_ID" p)
                          && cell_eqb (StrV ("Amine_ID_" ++ zero_padded 3
                                               (number l "Amine #")))
                                      (lookup "Amine_ID" p))
                       (rows df_prod)
               with
               | [] => [merged_row l None]
               | ps => map (fun p => merged_row l (Some p)) ps
               end)
            (rows df_dest)) /\
  (forall n, (0 <= n)%Z ->
      all_digits (zero_padded 3 n) = true /\
      String.length (zero_padded 3 n)
      = Nat.max 3 (String.length (str_of_N (Z.to_N n))) /\
      int_literal (zero_padded 3 n) = Some n) /\
  (s_id 7 = Ok "S_007" /\ s_id 1234 = Ok "S_1234" /\
   amine_id 12 = Ok "Amine_ID_012") /\
  (forall n m key, s_id n = Ok key -> s_id m = Ok key -> n = m) /\
  (forall n m key, amine_id n = Ok key -> amine_id m = Ok key -> n = m) /\
  (forall n cols smi_col c default_prefix reagents i r mol key,
      mem smi_col cols = true -> mem c cols = true ->
      MolFromSmiles (strip (str_of_cell (lookup smi_col r))) = Some mol ->
      s_id n = Ok key \/ amine_id n = Ok key ->
      lookup c r = StrV key ->
      load_row MolFromSmiles MolToSmiles cols smi_col (Some c) None
               default_prefix reagents (i, r)
      = Ok (reagents ++ [mkReagent (MolToSmiles mol) key key])) /\
  (forall cols smi_col default_prefix reagents i r mol,
      mem smi_col cols = true ->
      MolFromSmiles (strip (str_of_cell (lookup smi_col r))) = Some mol ->
      load_row MolFromSmiles MolToSmiles cols smi_col None None
               default_prefix reagents (i, r)
      = Ok (reagents ++
            [mkReagent (MolToSmiles mol)
                       (default_prefix ++ zero_padded 6 (Z.of_nat i))
                       (default_prefix ++ zero_padded 6 (Z.of_nat i))])) /\
  (forall n i, amine_id n <> Ok ("A_" ++ zero_padded 6 (Z.of_nat i))%string) /\
  (forall n i, s_id n = Ok ("S_" ++ zero_padded 6 (Z.of_nat i))%string ->
               n = Z.of_nat i /\ (6 <= String.length (str_of_N (Z.to_N n)))%nat).
Proof.
  repeat match goal with |- _ /\ _ => split end.
  - intros [dc rs] [Hcols Hnum]. cbn [columns rows] in *. subst dc.
    split.
    + apply normalize_S. intros l Hl. apply (Hnum l Hl).
    + apply (@normalize_cells (mkDataFrame dest_columns rs) "Amine #" amine_id
               (fun n => ("Amine_ID_" ++ zero_padded 3 n)%string));
        [reflexivity | intros l Hl; apply (Hnum l Hl) | exact amine_id_int64].
  - intros df_dest df_prod Hd Hp. eexists.
    split; [apply main_complete; assumption|]. reflexivity.
  - intros n Hn. rewrite zero_padded_nonneg by exact Hn.
    split; [apply all_digits_zfill|]. split; [apply zfill_length|].
    rewrite <- (zero_padded_nonneg 3 Hn). apply int_literal_zero_padded.
  - vm_compute. reflexivity.
  - vm_compute. reflexivity.
  - vm_compute. reflexivity.
  - exact s_id_inj.
  - exact amine_id_inj.
  - intros n cols smi_col c prefix reagents i r mol key Hs Hc Hmol Hkey Hcell.
    unfold load_row, row_get. rewrite Hs. cbn [bind]. rewrite Hmol, Hc. cbn [bind].
    rewrite Hcell. cbn [str_of_cell].
    assert (Hk : strip key = key).
    { apply strip_no_space. destruct Hkey as [Hkey | Hkey];
        [exact (s_id_no_space _ Hkey) | exact (amine_id_no_space _ Hkey)]. }
    rewrite Hk. reflexivity.
  - intros cols smi_col prefix reagents i r mol Hs Hmol.
    unfold load_row, row_get. rewrite Hs. cbn [bind]. rewrite Hmol. reflexivity.
  - intros n i E. apply amine_id_ok in E as [E _]. discriminate E.
  - intros n i E. apply s_id_ok in E as [E _].
    apply string_app_inv_head in E.
    assert (Hn : n = Z.of_nat i) by (symmetry; exact (@zero_padded_inj _ _ _ _ E)).
    split; [exact Hn|]. subst n.
    rewrite !zero_padded_nonneg in E by lia.
    apply (f_equal String.length) in E. rewrite !zfill_length in E. lia.
Qed.

End ReagentKeys.

Lemma C5_witness :
  normalize Merger.Example.dest "Sulfonyl chloride #" s_id
  = Ok [StrV "S_001"; StrV "S_001"] /\
  normalize Merger.Example.dest "Amine #" amine_id
  = Ok [StrV "Amine_ID_001"; StrV "Amine_ID_002"] /\
  load_row Toy.MolFromSmiles Toy.MolToSmiles ["SMILES"; "S_ID"] "SMILES"
           (Some "S_ID") None "S_" []
           (0%nat, [("SMILES", StrV "CC"); ("S_ID", StrV "S_007")])
  = Ok [mkReagent "CC" "S_007" "S_007"].
Proof.
  destruct (C5_merger_keys_and_enumerator_ids Toy.MolFromSmiles Toy.MolToSmiles)
    as (Hn & _ & _ & _ & _ & _ & H & _).
  destruct (Hn Merger.Example.dest example_dest_complete) as [HS HA].
  split; [rewrite HS; reflexivity|]. split; [rewrite HA; reflexivity|].
  apply (H 7%Z ["SMILES"; "S_ID"] "SMILES" "S_ID" "S_" [] 0%nat
           [("SMILES", StrV "CC"); ("S_ID", StrV "S_007")] "CC" "S_007");
    try reflexivity.
  left; vm_compute; reflexivity.
Defined.

(** C5 as the specification states it fails for generated IDs.  Two reagent tables
    without ID column give the product table the keys [S_000000] and
    [A_000000]; a destination row naming sulfonyl chloride 0 and amine 0 (or 1
    and 1) is rendered [S_000], [Amine_ID_000] (or [S_001], [Amine_ID_001]),
    finds no product, and the merge ends with status 1. *)
Lemma C5_counterexample_generated_ids :
  let df_s := mkDataFrame ["SMILES"] [[("SMILES", StrV "ClS(=O)(=O)C")]] in
  let df_a := mkDataFrame ["SMILES"] [[("SMILES", StrV "NC")]] in
  let df_dest :=
    Analyzer.destination_layout
      [Analyzer.mkDestRec "A1" (Some 0%Z) (Some 0%Z) "A2" "A1";
       Analyzer.mkDestRec "B1" (Some 1%Z) (Some 1%Z) "A2" "A1"] in
  exists out pm,
    Toy.main df_s df_a false = Ok (Some (mkOutputs out pm 0), 0%Z) /\
    map (fun p => (lookup "S_ID" p, lookup "Amine_ID" p)) (rows out)
    = [(StrV "S_000000", StrV "A_000000")] /\
    exists o,
      Merger.main df_dest out = Ok o /\
      map (fun r => (lookup "S_ID" r, lookup "Amine_ID" r, lookup "SMILES" r))
          (rows (merged o))
      = [(StrV "S_000", StrV "Amine_ID_000", NaN);
         (StrV "S_001", StrV "Amine_ID_001", NaN)] /\
      exit_status o = 1%Z.
Proof.
  eexists _, _. split; [vm_compute; reflexivity|].
  split; [vm_compute; reflexivity|].
  eexists. split; [vm_compute; reflexivity|].
  split; vm_compute; reflexivity.
Qed.

(** ** Index and coordinate *)

Lemma index_of_nth (rows : list string) (r : nat) :
  NoDup rows -> (r < List.length rows)%nat ->
  index_of (nth r rows "") rows = Some r.
Proof.
  revert r. induction rows as [|x rows IH]; intros r Hnd Hr; simpl in Hr; [lia|].
  inversion Hnd as [|? ? Hnotin Hnd']; subst.
  destruct r as [|r]; simpl.
  - rewrite String.eqb_refl. reflexivity.
  - destruct (String.eqb_spec (nth r rows "") x) as [E|_].
    + exfalso. apply Hnotin. rewrite <- E. apply nth_In. lia.
    + rewrite IH by (assumption || lia). reflexivity.
Qed.

Lemma split_index (nr nc i : nat) :
  (0 < nr)%nat -> (0 < nc)%nat ->
  (i / (nr * nc) * (nr * nc) + (i mod (nr * nc)) / nr * nr
   + (i mod (nr * nc)) mod nr = i)%nat.
Proof.
  intros Hr Hc.
  pose proof (Nat.div_mod_eq i (nr * nc)) as H1.
  pose proof (Nat.div_mod_eq (i mod (nr * nc)) nr) as H2.
  nia.
Qed.

Lemma join_index (nr nc p c r : nat) :
  (r < nr)%nat -> (c < nc)%nat ->
  let i := (p * (nr * nc) + c * nr + r)%nat in
  (i / (nr * nc) = p /\ (i mod (nr * nc)) / nr = c /\ (i mod (nr * nc)) mod nr = r)%nat.
Proof.
  intros Hr Hc i.
  assert (Hlt : (c * nr + r < nr * nc)%nat) by nia.
  assert (Hq : (i / (nr * nc) = p)%nat).
  { symmetry. apply (Nat.div_unique i (nr * nc) p (c * nr + r)); [exact Hlt|].
    unfold i. nia. }
  assert (Hm : (i mod (nr * nc) = c * nr + r)%nat).
  { symmetry. apply (Nat.mod_unique i (nr * nc) p (c * nr + r)); [exact Hlt|].
    unfold i. nia. }
  rewrite Hm. split; [exact Hq|]. split.
  - symmetry. apply (Nat.div_unique (c * nr + r) nr c r); [exact Hr | nia].
  - symmetry. apply (Nat.mod_unique (c * nr + r) nr c r); [exact Hr | nia].
Qed.

Lemma arithmetic_index_coordinate (rows : list string) (n_cols i : nat) :
  NoDup rows -> rows <> [] -> (0 < n_cols)%nat ->
  arithmetic_index rows n_cols (coordinate_of rows n_cols i) = Some i.
Proof.
  intros Hnd Hne Hc.
  assert (Hr : (0 < List.length rows)%nat) by (destruct rows; simpl; [congruence | lia]).
  unfold arithmetic_index, coordinate_of, rows_get. cbn [Row Plate Col].
  rewrite index_of_nth by (exact Hnd || (apply Nat.mod_upper_bound; lia)).
  f_equal. rewrite !Nat.add_sub. apply split_index; assumption.
Qed.

(** C4, as the code has it.  The scripts define no inverse of the index to
    coordinate assignment; the assignment itself determines the index.  For
    every geometry with distinct row labels, at least one row and one column:
    the index is recovered from plate, column and row of its record by
    [(plate - 1) * capacity + (column - 1) * rows + row]; two indices with the
    same record are equal; every coordinate of the plates [1..k] is the record
    of an index below [k * capacity]; and the records [plate_assign] returns
    carry their own position in this way. *)
Theorem C4_coordinate_determines_index :
  forall (rows : list string) (n_cols : nat),
    NoDup rows -> rows <> [] -> (0 < n_cols)%nat ->
    let capacity := (List.length rows * n_cols)%nat in
    (forall i, arithmetic_index rows n_cols (coordinate_of rows n_cols i) = Some i) /\
    (forall i j, coordinate_of rows n_cols i = coordinate_of rows n_cols j -> i = j) /\
    (forall k p r c,
        (1 <= p <= k)%nat -> (r < List.length rows)%nat -> (1 <= c <= n_cols)%nat ->
        exists i, (i < k * capacity)%nat /\
                  Plate (coordinate_of rows n_cols i) = p /\
                  Row (coordinate_of rows n_cols i) = rows_get rows r /\
                  Col (coordinate_of rows n_cols i) = c) /\
    (forall n recs i rec,
        plate_assign rows n_cols n = Ok recs -> nth_error recs i = Some rec ->
        arithmetic_index rows n_cols rec = Some i).
Proof.
  intros rows n_cols Hnd Hne Hc capacity.
  assert (Hr : (0 < List.length rows)%nat) by (destruct rows; simpl; [congruence | lia]).
  split; [|split; [|split]].
  - intros i. apply arithmetic_index_coordinate; assumption.
  - intros i j E.
    pose proof (arithmetic_index_coordinate i Hnd Hne Hc) as Hi.
    rewrite E, arithmetic_index_coordinate in Hi by assumption. congruence.
  - intros k p r c Hp Hrow Hcol.
    exists ((p - 1) * capacity + (c - 1) * List.length rows + r)%nat.
    destruct (@join_index (List.length rows) n_cols (p - 1) (c - 1) r Hrow ltac:(lia))
      as (Hq & Hcq & Hrq).
    fold capacity in Hq, Hcq, Hrq.
    unfold coordinate_of. cbn [Plate Row Col]. fold capacity.
    rewrite Hq, Hcq, Hrq.
    split; [|split; [lia | split; [reflexivity | lia]]].
    assert ((c - 1) * List.length rows + r < capacity)%nat by (unfold capacity; nia).
    nia.
  - intros n recs i rec Hpa Hnth.
    unfold plate_assign in Hpa. rewrite plate_assign_loop in Hpa by assumption.
    simpl in Hpa. injection Hpa as <-.
    rewrite nth_error_map in Hnth.
    destruct (nth_error (seq 0 n) i) as [i'|] eqn:Ei; [|discriminate].
    simpl in Hnth. injection Hnth as <-.
    assert (i' = i).
    { rewrite nth_error_seq in Ei. destruct (Nat.ltb i n); [|discriminate].
      simpl in Ei. congruence. }
    subst i'. apply arithmetic_index_coordinate; assumption.
Qed.

Lemma C4_witness :
  plate_assign_96 200 <> Raise ZeroDivisionError /\
  forall recs i rec,
    plate_assign row_labels_96 12 200 = Ok recs -> nth_error recs i = Some rec ->
    arithmetic_index row_labels_96 12 rec = Some i.
Proof.
  split; [vm_compute; discriminate|].
  assert (Hnd : NoDup row_labels_96).
  { unfold row_labels_96. repeat constructor; simpl; intuition discriminate. }
  assert (Hne : row_labels_96 <> []) by discriminate.
  assert (Hc : (0 < 12)%nat) by lia.
  intros recs i rec.
  exact (proj2 (proj2 (proj2 (C4_coordinate_determines_index Hnd Hne Hc))) 200%nat recs i rec).
Defined.

(** C4 as the specification states it fails on its first half: none of the four source
    files defines an inverse operation; and the one function that reads a
    well label back, [_well_sort_key], gives a sort key, the same for the
    indices 0 and 96, whose labels are both A1. *)
Lemma C4_counterexample_no_inverse_defined :
  let names := Enum96.defined_names ++ Analyzer.defined_names
               ++ Merger.defined_names ++ Enum96.protocol_defined_names in
  existsb (fun nm => mem nm ["indexOf"; "index_of"; "well_to_index"]) names = false /\
  exists recs r0 r96,
    plate_assign_96 97 = Ok recs /\
    nth_error recs 0 = Some r0 /\ nth_error recs 96 = Some r96 /\
    Enum96.Well r0 = "A1" /\ Enum96.Well r96 = "A1" /\
    Analyzer._well_sort_key (Enum96.Well r0) = Ok (1%Z, 0%Z) /\
    Analyzer._well_sort_key (Enum96.Well r96) = Ok (1%Z, 0%Z).
Proof.
  split; [vm_compute; reflexivity|].
  eexists _, _, _. split; [vm_compute; reflexivity|].
  repeat split; vm_compute; reflexivity.
Qed.

(** ** The repository's protocol *)

(** On [one-step-dispense.py] the analyzer returns 96 rows, every one with a
    sulfonyl chloride and an amine, no pair twice, and in the order in which
    [plate_assign_96] fills a plate. *)
Example dispense_destination_map :
  exists dest_rows source_rows recs,
    Analyzer.parse_protocol Analyzer.Dispense.tree_body = Ok (dest_rows, source_rows) /\
    plate_assign_96 96 = Ok recs /\
    map Analyzer.Well dest_rows = map Enum96.Well recs /\
    forallb (fun r => match Sulfonyl_chloride_no r, Amine_no r with
                      | Some s, Some a =>
                          ((1 <=? s) && (s <=? 12) && (1 <=? a) && (a <=? 8))%Z
                      | _, _ => false
                      end) dest_rows = true /\
    List.length
      (nodup Z.eq_dec
         (map (fun r => match Sulfonyl_chloride_no r, Amine_no r with
                        | Some s, Some a => (100 * s + a)%Z
                        | _, _ => 0%Z
                        end) dest_rows))
    = 96%nat /\
    List.length source_rows = 20%nat.
Proof.
  eexists _, _, _. split; [vm_compute; reflexivity|].
  split; [vm_compute; reflexivity|].
  repeat split; vm_compute; reflexivity.
Qed.

(** The end-to-end example: two sulfonyls and one amine give the ProductIDs 0
    and 1; on a plate of two rows and one column they fall on plate 1, column
    1, rows A and B. *)
Example two_by_one_plate :
  plate_assign ["A"; "B"] 1 2
  = Ok [mkPlateRec 1 "A" 1 "A1"; mkPlateRec 1 "B" 1 "B1"]
  /\ plate_assign ["A"; "B"] 1 3
     = Ok [mkPlateRec 1 "A" 1 "A1"; mkPlateRec 1 "B" 1 "B1"; mkPlateRec 2 "A" 1 "A1"].
Proof. split; reflexivity. Qed.

(** ** The tables the two earlier stages write *)

(** A destination layout in which every well received both classes, with
    numbers within [int64], is complete. *)
Lemma destination_layout_complete (dest_rows : list DestRec) :
  Forall Notions.both_numbers dest_rows ->
  Forall Notions.numbers_in_int64 dest_rows ->
  dest_complete (destination_layout dest_rows).
Proof.
  intros H R. split; [reflexivity|].
  intros l Hl. cbn [destination_layout rows] in Hl.
  apply in_map_iff in Hl as (rec & <- & Hrec).
  rewrite Forall_forall in H, R.
  destruct (H rec Hrec) as [Hs Ha]. destruct (R rec Hrec) as [Rs Ra].
  unfold layout_row. cbn [lookup String.eqb Ascii.eqb Bool.eqb].
  destruct (Sulfonyl_chloride_no rec) as [s|]; [|congruence].
  destruct (Amine_no rec) as [a|]; [|congruence].
  unfold opt_int_cell, int_cell.
  rewrite (Rs s eq_refl), (Ra a eq_refl). split; discriminate.
Qed.

(** The product records of the enumerator form a product table. *)
Lemma products_table_is_product_table (ys : list Yielded) :
  product_table (products_table ys).
Proof.
  split.
  - exists []. split; [symmetry; apply app_nil_r | reflexivity].
  - intros p Hp. cbn [products_table rows] in Hp.
    apply in_map_iff in Hp as (y & <- & _). split; reflexivity.
Qed.

(* ================================================================== *)
(** * Further properties of the three tools *)
(* ================================================================== *)

Import Notions.

(** ** [sorted]: a stable sort *)

Section StableSort.

Variable A : Type.
Implicit Types (x y : (Z * Z) * A) (l : list ((Z * Z) * A)).


Lemma key_leb_total (a b : Z * Z) : key_leb a b = false -> key_leb b a = true.
Proof.
  unfold key_leb. intros H.
  apply orb_false_elim in H as [H1 H2].
  apply Z.ltb_ge in H1.
  destruct (Z.eqb_spec (fst a) (fst b)) as [E|E]; simpl in H2.
  - apply Z.leb_gt in H2. apply orb_true_iff. right.
    apply andb_true_iff. split; [apply Z.eqb_eq; lia | apply Z.leb_le; lia].
  - apply orb_true_iff. left. apply Z.ltb_lt. lia.
Qed.

Lemma key_leb_spec (a b : Z * Z) :
  key_leb a b = true <->
  (fst a < fst b \/ (fst a = fst b /\ snd a <= snd b))%Z.
Proof.
  unfold key_leb. rewrite orb_true_iff, andb_true_iff, Z.ltb_lt, Z.eqb_eq, Z.leb_le.
  tauto.
Qed.

Lemma key_leb_trans (a b c : Z * Z) :
  key_leb a b = true -> key_leb b c = true -> key_leb a c = true.
Proof. rewrite !key_leb_spec. lia. Qed.

Lemma key_leb_antisym (a b : Z * Z) :
  key_leb a b = true -> key_leb b a = true -> key_eqb a b = true.
Proof.
  rewrite !key_leb_spec. unfold key_eqb. intros H1 H2.
  apply andb_true_iff. rewrite !Z.eqb_eq. lia.
Qed.

Lemma insert_sorted_perm x l : Permutation (insert_sorted x l) (x :: l).
Proof.
  induction l as [|y l IH]; simpl; [reflexivity|].
  destruct (key_leb (fst y) (fst x)); [|reflexivity].
  rewrite IH. apply perm_swap.
Qed.

Lemma sort_decorated_fold l acc :
  Permutation (fold_left (fun a x => insert_sorted x a) l acc) (acc ++ l).
Proof.
  revert acc. induction l as [|x l IH]; intros acc; simpl.
  - rewrite app_nil_r. reflexivity.
  - rewrite IH, insert_sorted_perm. apply Permutation_middle.
Qed.

Lemma sort_decorated_perm l : Permutation (sort_decorated l) l.
Proof. unfold sort_decorated. apply (sort_decorated_fold l []). Qed.

Lemma insert_sorted_sorted x l :
  StronglySorted dec_le l -> StronglySorted dec_le (insert_sorted x l).
Proof.
  induction 1 as [|y l Hs IH Hy]; simpl; [repeat constructor|].
  destruct (key_leb (fst y) (fst x)) eqn:E.
  - constructor; [exact IH|].
    apply Forall_forall. intros z Hz.
    apply (Permutation_in _ (insert_sorted_perm x l)) in Hz.
    destruct Hz as [<- | Hz]; [exact E|].
    rewrite Forall_forall in Hy. apply Hy, Hz.
  - apply key_leb_total in E.
    constructor; [constructor; assumption|].
    constructor; [exact E|].
    apply Forall_forall. intros z Hz. rewrite Forall_forall in Hy.
    exact (key_leb_trans _ _ _ E (Hy z Hz)).
Qed.

Lemma sort_decorated_sorted_fold l acc :
  StronglySorted dec_le acc ->
  StronglySorted dec_le (fold_left (fun a x => insert_sorted x a) l acc).
Proof.
  revert acc. induction l as [|x l IH]; intros acc H; simpl; [exact H|].
  apply IH, insert_sorted_sorted, H.
Qed.

Lemma sort_decorated_sorted l : StronglySorted dec_le (sort_decorated l).
Proof. apply sort_decorated_sorted_fold. constructor. Qed.


Lemma key_eqb_eq (a b : Z * Z) : key_eqb a b = true <-> a = b.
Proof.
  unfold key_eqb. rewrite andb_true_iff, !Z.eqb_eq.
  destruct a, b; simpl. split; [intros [-> ->]; reflexivity | intros [= -> ->]; tauto].
Qed.

Lemma insert_sorted_stable (k : Z * Z) x l :
  StronglySorted dec_le l ->
  filter (has_key k) (insert_sorted x l)
  = filter (has_key k) l ++ (if has_key k x then [x] else []).
Proof.
  induction 1 as [|y l Hs IH Hy]; simpl.
  - destruct (has_key k x); reflexivity.
  - destruct (key_leb (fst y) (fst x)) eqn:E; simpl.
    + rewrite IH. destruct (has_key k y); reflexivity.
    + destruct (has_key k x) eqn:Hx; [|rewrite app_nil_r; reflexivity].
      assert (Hnone : filter (has_key k) (y :: l) = []).
      { assert (Hall : forall z, In z (y :: l) -> has_key k z = false).
        { intros z Hz. destruct (has_key k z) eqn:Hkz; [|reflexivity].
          exfalso. unfold has_key in *.
          apply key_eqb_eq in Hx, Hkz.
          assert (Hyz : key_leb (fst y) (fst z) = true).
          { destruct Hz as [<- | Hz].
            - apply key_leb_spec. lia.
            - rewrite Forall_forall in Hy. apply Hy, Hz. }
          rewrite Hkz, <- Hx in Hyz. congruence. }
        clear -Hall. induction (y :: l) as [|z zs IHz]; [reflexivity|].
        simpl. rewrite (Hall z (or_introl eq_refl)).
        apply IHz. intros; apply Hall; now right. }
      simpl in Hnone. rewrite Hnone. reflexivity.
Qed.

Lemma sort_decorated_stable_fold (k : Z * Z) l acc :
  StronglySorted dec_le acc ->
  filter (has_key k) (fold_left (fun a x => insert_sorted x a) l acc)
  = filter (has_key k) acc ++ filter (has_key k) l.
Proof.
  revert acc. induction l as [|x l IH]; intros acc H; simpl.
  - rewrite app_nil_r. reflexivity.
  - rewrite IH by (apply insert_sorted_sorted, H).
    rewrite insert_sorted_stable by exact H.
    rewrite <- app_assoc. destruct (has_key k x); reflexivity.
Qed.

Lemma sort_decorated_stable (k : Z * Z) l :
  filter (has_key k) (sort_decorated l) = filter (has_key k) l.
Proof. apply (sort_decorated_stable_fold k l). constructor. Qed.

End StableSort.

(** ** The output order of the analyzer *)

Lemma map_result_combine (A B : Type) (f : A -> result B) (g : A -> B)
    (xs : list A) (ks : list B) :
  (forall x y, f x = Ok y -> g x = y) ->
  map_result f xs = Ok ks -> combine ks xs = map (fun x => (g x, x)) xs.
Proof.
  intros Hg. revert ks. induction xs as [|x xs IH]; intros ks H; simpl in H.
  - injection H as <-. reflexivity.
  - destruct (f x) as [y|] eqn:E; [|discriminate]. simpl in H.
    destruct (map_result f xs) as [ys|]; [|discriminate]. simpl in H.
    injection H as <-. simpl. rewrite (Hg x y E), (IH ys eq_refl). reflexivity.
Qed.

Lemma key_of_ok (w : string) (k : Z * Z) : _well_sort_key w = Ok k -> key_of w = k.
Proof. unfold key_of. intros ->. reflexivity. Qed.

Lemma sorted_by_decorated (ws sorted : list string) :
  sorted_by _well_sort_key ws = Ok sorted ->
  sorted = map snd (sort_decorated (map (fun w => (key_of w, w)) ws)).
Proof.
  unfold sorted_by. intros H. apply bind_ok in H as (ks & Hks & H).
  injection H as <-. rewrite (@map_result_combine _ _ _ key_of _ _ key_of_ok Hks). reflexivity.
Qed.

Lemma decorated_invariant (l : list ((Z * Z) * string)) :
  Forall (fun p => fst p = key_of (snd p)) l ->
  Forall (fun p => fst p = key_of (snd p)) (sort_decorated l).
Proof.
  intros H. apply Forall_forall. intros p Hp.
  apply (Permutation_in _ (sort_decorated_perm l)) in Hp.
  rewrite Forall_forall in H. apply H, Hp.
Qed.

Lemma decorated_keys (ws : list string) :
  Forall (fun p : (Z * Z) * string => fst p = key_of (snd p))
         (map (fun w => (key_of w, w)) ws).
Proof. apply Forall_forall. intros p Hp. apply in_map_iff in Hp as (w & <- & _). reflexivity. Qed.

Lemma StronglySorted_map_snd (l : list ((Z * Z) * string)) :
  Forall (fun p => fst p = key_of (snd p)) l ->
  StronglySorted (@dec_le string) l ->
  StronglySorted (fun a b => key_le (key_of a) (key_of b)) (map snd l).
Proof.
  intros Hk Hs. induction Hs as [|p l Hs IH Hp]; simpl; [constructor|].
  inversion Hk as [|? ? Hkp Hkl]; subst.
  constructor; [apply IH, Hkl|].
  apply Forall_forall. intros w Hw. apply in_map_iff in Hw as (q & <- & Hq).
  rewrite Forall_forall in Hp, Hkl. specialize (Hp q Hq).
  unfold dec_le in Hp. unfold key_le. rewrite <- Hkp, <- (Hkl q Hq). exact Hp.
Qed.

Lemma with_key_map_snd (k : Z * Z) (l : list ((Z * Z) * string)) :
  Forall (fun p => fst p = key_of (snd p)) l ->
  with_key k (map snd l) = map snd (filter (has_key k) l).
Proof.
  unfold with_key. induction 1 as [|p l Hp _ IH]; simpl; [reflexivity|].
  unfold has_key at 1. rewrite Hp.
  destruct (key_eqb (key_of (snd p)) k); simpl; congruence.
Qed.

Lemma sorted_by_spec (ws sorted : list string) :
  sorted_by _well_sort_key ws = Ok sorted ->
  Permutation sorted ws /\
  StronglySorted (fun a b => key_le (key_of a) (key_of b)) sorted /\
  forall k, with_key k sorted = with_key k ws.
Proof.
  intros H. apply sorted_by_decorated in H. subst sorted.
  pose proof (decorated_keys ws) as Hk.
  pose proof (decorated_invariant Hk) as Hk'.
  split; [|split].
  - rewrite (sort_decorated_perm (map (fun w => (key_of w, w)) ws)).
    rewrite map_map. simpl. rewrite map_id. reflexivity.
  - apply StronglySorted_map_snd; [exact Hk' | apply sort_decorated_sorted].
  - intros k. rewrite (with_key_map_snd k Hk'), sort_decorated_stable.
    rewrite <- (with_key_map_snd k Hk), map_map. simpl. rewrite map_id. reflexivity.
Qed.

Lemma entry_of_well (w : string) (cs : list Contribution) (rec : DestRec) :
  entry_of w cs = Some rec -> Analyzer.Well rec = w.
Proof.
  unfold entry_of. destruct (existsb _ cs); [|discriminate].
  intros [= <-]. reflexivity.
Qed.

Lemma dest_map_of_well (run_node : node) (rv : dict ReagentInfo) (w : string)
    (rec : DestRec) :
  dict_get w (dest_map_of run_node rv) = Some rec -> Analyzer.Well rec = w.
Proof.
  unfold dest_map_of. rewrite build_dest_map_contributions, fold_contributions_get.
  apply entry_of_well.
Qed.

Lemma rows_of_sorted_keys (V : Type) (dm : dict V) (ws : list string) :
  (forall w, In w ws -> In w (dict_keys dm)) ->
  exists recs,
    flat_map (fun w => match dict_get w dm with Some rec => [rec] | None => [] end) ws
    = recs /\
    Forall2 (fun w rec => dict_get w dm = Some rec) ws recs.
Proof.
  induction ws as [|w ws IH]; intros H.
  - exists []. split; [reflexivity | constructor].
  - destruct IH as (recs & E & F); [intros; apply H; now right|].
    assert (Hw : dict_get w dm <> None) by (apply dict_get_keys, H; now left).
    destruct (dict_get w dm) as [rec|] eqn:Ew; [|congruence].
    exists (rec :: recs). split; [simpl; rewrite Ew, E; reflexivity|].
    constructor; assumption.
Qed.

Lemma parse_protocol_inv (tree_body : list node) (run_node : node)
    (dest_rows : list DestRec) (source_rows : list SourceRow) :
  find_run tree_body = Some run_node ->
  parse_protocol tree_body = Ok (dest_rows, source_rows) ->
  exists rv ws,
    build_reagent_vars (body_of run_node) = Ok rv /\
    sorted_by _well_sort_key (dict_keys (dest_map_of run_node rv)) = Ok ws /\
    Forall2 (fun w rec => dict_get w (dest_map_of run_node rv) = Some rec)
            ws dest_rows /\
    map Analyzer.Well dest_rows = ws /\
    source_rows = map (source_row rv) (build_source_well_map run_node).
Proof.
  intros Hrun H. unfold parse_protocol in H. rewrite Hrun in H.
  apply bind_ok in H as (rv & Hrv & H). unfold emit in H.
  apply bind_ok in H as (ws & Hws & H). injection H as H Hs.
  destruct (sorted_by_spec _ Hws) as (Hperm & _).
  destruct (@rows_of_sorted_keys _ (dest_map_of run_node rv) ws) as (recs & E & F).
  { intros w Hw. exact (Permutation_in _ Hperm Hw). }
  rewrite E in H. subst recs. exists rv, ws.
  split; [exact Hrv|].
  split; [exact Hws|]. split; [exact F|]. split; [|symmetry; exact Hs].
  clear -F. induction F as [|w rec ws recs Hw _ IH]; [reflexivity|].
  simpl. rewrite IH, (dest_map_of_well _ _ _ Hw). reflexivity.
Qed.

(** X1. Whenever [parse_protocol] returns, step 1 has built the reagent
    variables, and the destination rows are the entries of the destination
    map, each well once, ordered by the sort key [(column, row)] -- column
    first, then row letter -- and wells with equal keys (such as [A1] and
    [a01]) stay in the order in which they were first written. *)
Theorem parse_protocol_sorted_stable :
  forall (tree_body : list node) (run_node : node)
         (dest_rows : list DestRec) (source_rows : list SourceRow),
    find_run tree_body = Some run_node ->
    parse_protocol tree_body = Ok (dest_rows, source_rows) ->
    exists rv,
      build_reagent_vars (body_of run_node) = Ok rv /\
      let wells := map Analyzer.Well dest_rows in
      let keys := dict_keys (dest_map_of run_node rv) in
      Permutation wells keys /\
      NoDup wells /\
      Forall (fun rec => dict_get (Analyzer.Well rec) (dest_map_of run_node rv)
                         = Some rec)
             dest_rows /\
      StronglySorted (fun a b => key_le (key_of a) (key_of b)) wells /\
      (forall k, with_key k wells = with_key k keys).
Proof.
  intros tree_body run_node dest_rows source_rows Hrun H.
  destruct (parse_protocol_inv _ Hrun H) as (rv & ws & Hrv & Hws & F & Hwells & _).
  exists rv. split; [exact Hrv|]. intros wells keys.
  destruct (sorted_by_spec _ Hws) as (Hperm & Hsorted & Hstable).
  unfold wells. rewrite Hwells.
  split; [exact Hperm|].
  split.
  { apply (Permutation_NoDup (Permutation_sym Hperm)).
    unfold keys, dest_map_of. rewrite build_dest_map_contributions.
    apply fold_contributions_NoDup. }
  split; [|split; [exact Hsorted | exact Hstable]].
  clear -F. induction F as [|w rec ws recs Hw _ IH]; constructor; [|exact IH].
  rewrite (dest_map_of_well _ _ _ Hw). exact Hw.
Qed.

Lemma parse_protocol_sorted_stable_witness :
  exists dest_rows,
    map Analyzer.Well dest_rows = ["A1"; "B1"; "A2"] /\
    StronglySorted (fun a b => key_le (key_of a) (key_of b))
                   (map Analyzer.Well dest_rows).
Proof.
  destruct (parse_protocol (Example.tree_body [])) as [[dest_rows source_rows]|e] eqn:E;
    [|vm_compute in E; discriminate].
  exists dest_rows.
  destruct (@parse_protocol_sorted_stable (Example.tree_body []) (Example.run_node [])
              dest_rows source_rows eq_refl E) as (rv & _ & _ & _ & _ & Hs & _).
  split; [|exact Hs].
  vm_compute in E. injection E as <- _. reflexivity.
Defined.

(** ** Loads are found at any depth *)

Lemma walk_queue_sound (fuel : nat) (todo : list node) (n : node) :
  In n (walk_queue fuel todo) -> exists m, In m todo /\ descendant m n.
Proof.
  revert todo. induction fuel as [|fuel IH]; intros todo H; [destruct todo; contradiction|].
  destruct todo as [|m queue]; [contradiction|]. simpl in H.
  destruct H as [<- | H].
  - exists m. split; [now left | constructor].
  - destruct (IH _ H) as (m' & Hin & Hd).
    apply in_app_or in Hin as [Hin | Hin].
    + exists m'. split; [now right | exact Hd].
    + exists m. split; [now left | exact (desc_child _ Hin Hd)].
Qed.

Lemma walk_queue_complete (fuel : nat) (todo : list node) :
  (list_sum (map size todo) <= fuel)%nat ->
  forall m n, In m todo -> descendant m n -> In n (walk_queue fuel todo).
Proof.
  revert todo. induction fuel as [|fuel IH]; intros todo Hf m n Hm Hd.
  - destruct todo as [|x todo]; [contradiction|]. simpl in Hf.
    rewrite size_children in Hf. lia.
  - destruct todo as [|x queue]; [contradiction|]. simpl.
    assert (Hf' : (list_sum (map size (queue ++ iter_child_nodes x)) <= fuel)%nat).
    { simpl in Hf. rewrite size_children in Hf. rewrite map_app, list_sum_app. lia. }
    destruct Hm as [-> | Hm].
    + inversion Hd as [|n0 c d0 Hc Hcd]; subst; [now left|].
      right. apply (IH _ Hf' c n); [apply in_or_app; now right | exact Hcd].
    + right. apply (IH _ Hf' m n); [apply in_or_app; now left | exact Hd].
Qed.

Lemma walk_descendants (root n : node) : In n (walk root) <-> descendant root n.
Proof.
  unfold walk. split.
  - intros H. apply walk_queue_sound in H as (m & [<- | []] & Hd). exact Hd.
  - intros H. apply (@walk_queue_complete (size root) [root]) with (m := root);
      [simpl; lia | now left | exact H].
Qed.

Ltac not_a_load :=
  left; split;
  [ let E := fresh "E" in
    intros ? ? ((? & ? & E & ?) & ? & ?);
    try discriminate E; injection E as; subst; simpl in *; congruence
  | simpl; unfold not_source_well; simpl; rewrite ?orb_true_r; reflexivity ].

Lemma source_well_body_cases (swm : dict SourceInfo) (n : node) :
  ((forall well lv, ~ (is_load n well lv /\ truthy well = true /\ truthy lv = true)) /\
   source_well_body swm n = swm) \/
  exists well lv args keywords,
    n = Call (Attribute (Subscript (Name "source_plate") (Constant (CStr well)))
                        "load_liquid") args keywords /\
    keyword_liquid keywords = Some lv /\
    truthy well = true /\ truthy lv = true /\
    source_well_body swm n
    = dict_set well (mkSourceInfo lv (keyword_volume keywords)) swm.
Proof.
  destruct n as [| | |func args keywords| | | | | | | | | |]; try not_a_load.
  destruct func as [| | | | |receiver attr| | | | | | | |]; try not_a_load.
  simpl.
  destruct (String.eqb_spec attr "load_liquid") as [->|]; [|not_a_load].
  destruct receiver as [| | | | | |base sl| | | | | | |]; try not_a_load.
  destruct sl as [| | | | | | | |c| | | | |]; try (destruct base; not_a_load).
  destruct c as [well| |]; try (destruct base; not_a_load).
  destruct base as [| | | | | | |id| | | | | |]; try not_a_load.
  unfold not_source_well. simpl.
  destruct (String.eqb_spec id "source_plate") as [->|]; [|not_a_load].
  destruct (truthy well) eqn:Tw; [|not_a_load]. simpl.
  destruct (keyword_liquid keywords) as [lv|] eqn:El; [|not_a_load].
  destruct (truthy lv) eqn:Tl; [|not_a_load].
  right. exists well, lv, args, keywords. repeat split; assumption.
Qed.

Lemma source_well_body_keys (swm : dict SourceInfo) (n : node) (well : string) :
  In well (dict_keys (source_well_body swm n)) <->
  In well (dict_keys swm) \/
  exists lv, is_load n well lv /\ truthy well = true /\ truthy lv = true.
Proof.
  destruct (source_well_body_cases swm n)
    as [[Hno E] | (w & lv & args & kws & En & El & Tw & Tl & E)]; rewrite E.
  - split; [now left|]. intros [H | (lv & H)]; [exact H | destruct (Hno _ _ H)].
  - rewrite dict_keys_set.
    assert (Hload : is_load n w lv) by (exists args, kws; split; assumption).
    split.
    + destruct (dict_get w swm); [now left|].
      intros H. apply in_app_or in H as [H | [<- | []]]; [now left|].
      right. exists lv. tauto.
    + intros [H | (lv' & (args' & kws' & En' & _) & _)].
      * destruct (dict_get w swm); [exact H | apply in_or_app; now left].
      * rewrite En in En'. injection En' as -> _ _.
        destruct (dict_get well swm) eqn:G.
        -- apply dict_get_keys. congruence.
        -- apply in_or_app. right. now left.
Qed.

Lemma source_wells_of_list (ns : list node) (well : string) :
  In well (dict_keys (fold_left source_well_body ns [])) <->
  exists n lv, In n ns /\ is_load n well lv /\ truthy well = true /\ truthy lv = true.
Proof.
  induction ns as [|n ns IH] using rev_ind.
  - simpl. split; [contradiction | intros (? & ? & [] & _)].
  - rewrite fold_left_app. simpl. rewrite source_well_body_keys, IH. split.
    + intros [(m & lv & Hin & H) | (lv & H)].
      * exists m, lv. split; [apply in_or_app; now left | exact H].
      * exists n, lv. split; [apply in_or_app; right; now left | exact H].
    + intros (m & lv & Hin & H).
      apply in_app_or in Hin as [Hin | [<- | []]].
      * left. exists m, lv. tauto.
      * right. exists lv. exact H.
Qed.

Lemma source_well_map_NoDup (ns : list node) :
  NoDup (dict_keys (fold_left source_well_body ns [])).
Proof.
  induction ns as [|n ns IH] using rev_ind; [constructor|].
  rewrite fold_left_app. simpl.
  destruct (source_well_body_cases (fold_left source_well_body ns []) n)
    as [[_ E] | (w & lv & args & kws & _ & _ & _ & _ & E)]; rewrite E; [exact IH|].
  rewrite dict_keys_set.
  destruct (dict_get w (fold_left source_well_body ns [])) eqn:G; [exact IH|].
  apply NoDup_app; [exact IH | repeat constructor; simpl; tauto |].
  intros k Hk [<- | []]. apply dict_get_keys in Hk. congruence.
Qed.

Lemma source_row_well (rv : dict ReagentInfo) (swm : dict SourceInfo) :
  map SourceWell (map (source_row rv) swm) = dict_keys swm.
Proof.
  unfold dict_keys. rewrite map_map. apply map_ext. intros [w d].
  unfold source_row. destruct (dict_get (liquid_var d) rv); reflexivity.
Qed.

(** ** The display-name patterns *)

Lemma span_app (p : ascii -> bool) (s a b : string) :
  span p s = (a, b) ->
  s = (a ++ b)%string /\
  forallb p (list_ascii_of_string a) = true /\
  match b with String c _ => p c = false | EmptyString => True end.
Proof.
  revert a b. induction s as [|c s IH]; intros a b H; simpl in H.
  - injection H as <- <-. repeat split.
  - destruct (p c) eqn:E.
    + destruct (span p s) as [a' b'] eqn:Es. injection H as <- <-.
      destruct (IH _ _ eq_refl) as (-> & Ha & Hb).
      split; [reflexivity|]. split; [simpl; rewrite E; exact Ha | exact Hb].
    + injection H as <- <-. split; [reflexivity|]. split; [reflexivity | exact E].
Qed.

Lemma span_unique (p : ascii -> bool) (a b : string) :
  forallb p (list_ascii_of_string a) = true ->
  match b with String c _ => p c = false | EmptyString => True end ->
  span p (a ++ b) = (a, b).
Proof.
  intros Ha Hb. induction a as [|c a IH]; simpl in *.
  - destruct b as [|c b]; [reflexivity|]. simpl. rewrite Hb. reflexivity.
  - apply andb_prop in Ha as [Hc Ha]. rewrite Hc, (IH Ha). reflexivity.
Qed.

Lemma strip_prefix_ci_app (word s rest : string) :
  strip_prefix_ci word s = Some rest <->
  exists pre, s = (pre ++ rest)%string /\ lower_string pre = lower_string word.
Proof.
  revert s. induction word as [|w word IH]; intros s; simpl.
  - split.
    + intros [= ->]. exists "". split; reflexivity.
    + intros (pre & -> & Hp). destruct pre; [reflexivity | discriminate].
  - destruct s as [|c s].
    + split; [discriminate|]. intros (pre & Hs & Hp).
      destruct pre; [discriminate | discriminate].
    + destruct (Ascii.eqb_spec (lower w) (lower c)) as [E|E].
      * rewrite IH. split.
        -- intros (pre & -> & Hp). exists (String c pre). split; [reflexivity|].
           simpl. congruence.
        -- intros (pre & Hs & Hp). destruct pre as [|c' pre]; [discriminate|].
           simpl in Hs, Hp. injection Hs as -> ->. injection Hp as _ Hp.
           exists pre. split; [reflexivity | exact Hp].
      * split; [discriminate|]. intros (pre & Hs & Hp).
        destruct pre as [|c' pre]; [discriminate|].
        simpl in Hs, Hp. injection Hs as -> ->. injection Hp as Hc _. congruence.
Qed.

Lemma digit_head_not_space (ds rest : string) :
  all_digits ds = true -> truthy ds = true ->
  match (ds ++ rest)%string with String c _ => is_space c = false | EmptyString => True end.
Proof.
  destruct ds as [|c ds]; [discriminate|]. unfold all_digits. simpl.
  intros H _. apply andb_prop in H as [H _]. apply digit_not_space, H.
Qed.

Lemma space_not_digit (c : ascii) : is_space c = true -> is_digit c = false.
Proof.
  intros H. destruct (is_digit c) eqn:E; [|reflexivity].
  apply digit_not_space in E. congruence.
Qed.

Lemma space_head_not_digit (trail : string) :
  all_space trail = true ->
  match trail with String c _ => is_digit c = false | EmptyString => True end.
Proof.
  destruct trail as [|c t]; [trivial|]. unfold all_space. simpl.
  intros H. apply andb_prop in H as [H _]. apply space_not_digit, H.
Qed.

Lemma match_numbered_spec (word name ds : string) :
  match_numbered word name = Some ds <-> numbered_name word name ds.
Proof.
  unfold match_numbered, numbered_name. split.
  - destruct (strip_prefix_ci word name) as [rest|] eqn:Ep; [|discriminate].
    apply strip_prefix_ci_app in Ep as (pre & -> & Hpre).
    destruct (span is_space rest) as [ws rest1] eqn:E1.
    destruct (span is_digit rest1) as [ds' rest2] eqn:E2.
    destruct (span is_space rest2) as [trail rest3] eqn:E3.
    apply span_app in E1 as (-> & Hws & _).
    apply span_app in E2 as (-> & Hds & _).
    apply span_app in E3 as (-> & Htr & _).
    destruct (truthy ws) eqn:Tw; [|discriminate].
    destruct (truthy ds') eqn:Td; [|discriminate].
    destruct rest3; [|discriminate]. simpl. intros [= <-].
    exists pre, ws, trail. repeat split; try assumption.
    f_equal. f_equal. f_equal. clear. induction trail; simpl; congruence.
  - intros (pre & ws & trail & -> & Hpre & Hws & Tw & Hds & Td & Htr).
    assert (Ep : strip_prefix_ci word (pre ++ ws ++ ds ++ trail)
                 = Some (ws ++ ds ++ trail)%string).
    { apply strip_prefix_ci_app. exists pre. split; [reflexivity | exact Hpre]. }
    rewrite Ep.
    rewrite (@span_unique is_space ws (ds ++ trail) Hws (@digit_head_not_space ds trail Hds Td)).
    rewrite (@span_unique is_digit ds trail Hds (@space_head_not_digit trail Htr)).
    replace trail with (trail ++ "")%string at 1
      by (clear; induction trail; simpl; congruence).
    rewrite (@span_unique is_space trail "" Htr I).
    rewrite Tw, Td. reflexivity.
Qed.

Lemma strip_prefix_ci_head (word s rest : string) (w : ascii) :
  strip_prefix_ci (String w word) s = Some rest ->
  exists c s', s = String c s' /\ lower c = lower w.
Proof.
  destruct s as [|c s']; simpl; [discriminate|].
  destruct (Ascii.eqb_spec (lower w) (lower c)); [|discriminate].
  intros _. exists c, s'. split; [reflexivity | congruence].
Qed.

Lemma patterns_exclusive (name g : string) :
  RE_AMINE_match name = Some g -> RE_SULF_match name = None.
Proof.
  unfold RE_AMINE_match, RE_SULF_match, match_numbered.
  destruct (strip_prefix_ci "Amine" name) as [rest|] eqn:EA; [|discriminate].
  intros _. apply strip_prefix_ci_head in EA as (c & s' & -> & Hc).
  change (strip_prefix_ci "SulfonylCl" (String c s'))
    with (if Ascii.eqb (lower "S") (lower c)
          then strip_prefix_ci "ulfonylCl" s' else None).
  rewrite Hc. reflexivity.
Qed.

(** [int()] of a matched group: the value of the digits, unless there are
    more of them than the conversion allows. *)
Lemma matched_group_value (ds : string) :
  all_digits ds = true -> truthy ds = true ->
  if (N.of_nat (String.length ds) <=? max_str_digits)%N
  then exists n, py_int ds = Ok n /\ (0 <= n)%Z
  else py_int ds = Raise ValueError.
Proof.
  intros Hd Ht.
  assert (Hne : ds <> "") by (destruct ds; [discriminate | congruence]).
  destruct (@digits_value_digits ds 0%Z false Hd (or_introl Hne)) as (v & Hv).
  rewrite py_int_all_digits by assumption. rewrite Hv.
  destruct (_ <=? _)%N; [|reflexivity].
  exists v. split; [reflexivity|].
  exact (@digits_value_nonneg _ _ _ _ Hv (Z.le_refl 0)).
Qed.

Lemma display_name_group (name ds : string) :
  RE_AMINE_match name = Some ds \/ RE_SULF_match name = Some ds ->
  if (N.of_nat (String.length ds) <=? max_str_digits)%N
  then exists n, py_int ds = Ok n /\ (0 <= n)%Z
  else py_int ds = Raise ValueError.
Proof.
  intros H.
  assert (Hn : exists word, numbered_name word name ds).
  { destruct H as [H|H]; apply match_numbered_spec in H; eauto. }
  destruct Hn as (word & pre & ws & trail & _ & _ & _ & _ & Hd & Td & _).
  apply matched_group_value; assumption.
Qed.

(** X3. The two display-name patterns, on names whose characters are code
    points below 256.  A name matches a pattern exactly when it is the word
    (in any case), at least one whitespace character, a non-empty run of
    digits and optional trailing whitespace, and the group is that run of
    digits; no name matches both patterns; and [int()] of a matched group
    returns an integer that is not negative when the group has at most 4300
    digits, and raises [ValueError] when it has more. *)
Theorem display_name_patterns (name : string) :
  (forall ds, RE_AMINE_match name = Some ds <-> numbered_name "Amine" name ds) /\
  (forall ds, RE_SULF_match name = Some ds <-> numbered_name "SulfonylCl" name ds) /\
  (RE_AMINE_match name = None \/ RE_SULF_match name = None) /\
  (forall ds, RE_AMINE_match name = Some ds \/ RE_SULF_match name = Some ds ->
              if (N.of_nat (String.length ds) <=? max_str_digits)%N
              then exists n, py_int ds = Ok n /\ (0 <= n)%Z
              else py_int ds = Raise ValueError).
Proof.
  split; [intros ds; apply match_numbered_spec|].
  split; [intros ds; apply match_numbered_spec|].
  split.
  - destruct (RE_AMINE_match name) as [g|] eqn:E; [|now left].
    right. exact (patterns_exclusive _ E).
  - intros ds H. exact (display_name_group _ H).
Qed.


(** ** Bindings of reagent variables *)

Lemma reagent_vars_body_define (rv : dict ReagentInfo) (var display : string)
    (receiver : node) (args : list node) (keywords : list (option string * node)) :
  keyword_name keywords = Some display ->
  reagent_vars_body rv
    (Assign [Name var] (Call (Attribute receiver "define_liquid") args keywords))
  = match RE_AMINE_match display, RE_SULF_match display with
    | Some g, _ =>
        num <- py_int g ;; Ok (dict_set var (mkReagentInfo amine num display) rv)
    | None, Some g =>
        num <- py_int g ;; Ok (dict_set var (mkReagentInfo sulfonyl num display) rv)
    | None, None => Ok rv
    end.
Proof.
  intros Hk. cbn [reagent_vars_body]. 
  change (String.eqb "define_liquid" "define_liquid") with true. cbv iota.
  rewrite Hk.
  destruct (truthy display) eqn:T; [reflexivity|].
  destruct display; [|discriminate]. reflexivity.
Qed.

Lemma reagent_vars_body_other (rv rv' : dict ReagentInfo) (stmt : node)
    (var : string) :
  (forall display, ~ defines stmt var display) ->
  reagent_vars_body rv stmt = Ok rv' ->
  dict_get var rv' = dict_get var rv.
Proof.
  intros Hno H.
  destruct (reagent_vars_body_cases rv stmt)
    as [E | (var' & display & cls & g & Hd & _ & E)]; rewrite E in H.
  - injection H as <-. reflexivity.
  - apply bind_ok in H as (n & _ & H). injection H as <-.
    apply dict_get_set_other. intros ->. exact (Hno _ Hd).
Qed.

(** Step 1 raises nothing but the [ValueError] of [int()]. *)
Lemma reagent_vars_body_raises (rv : dict ReagentInfo) (stmt : node) (e : exn) :
  reagent_vars_body rv stmt = Raise e -> e = ValueError.
Proof.
  intros H.
  destruct (reagent_vars_body_cases rv stmt)
    as [E | (var & display & cls & g & _ & _ & E)]; rewrite E in H;
    [discriminate|].
  destruct (is_ok (py_int g)) eqn:Eg.
  - destruct (py_int g); [discriminate H | discriminate Eg].
  - rewrite (py_int_raises _ Eg) in H. injection H as <-. reflexivity.
Qed.

Lemma for_each_reagent_vars_raises (body : list node) (rv : dict ReagentInfo)
    (e : exn) :
  for_each reagent_vars_body body rv = Raise e -> e = ValueError.
Proof.
  revert rv. induction body as [|stmt body IH]; intros rv H; [discriminate|].
  cbn [for_each] in H.
  destruct (reagent_vars_body rv stmt) as [rv'|e'] eqn:E; cbn [bind] in H.
  - exact (IH _ H).
  - injection H as <-. exact (reagent_vars_body_raises _ _ E).
Qed.

Lemma build_reagent_vars_raises (body : list node) (e : exn) :
  build_reagent_vars body = Raise e -> e = ValueError.
Proof. apply for_each_reagent_vars_raises. Qed.

Lemma for_each_reagent_vars_later (post : list node) (rv rv' : dict ReagentInfo)
    (var : string) :
  (forall stmt display, In stmt post -> ~ defines stmt var display) ->
  for_each reagent_vars_body post rv = Ok rv' ->
  dict_get var rv' = dict_get var rv.
Proof.
  revert rv. induction post as [|s post IH]; intros rv Hno H.
  - injection H as <-. reflexivity.
  - cbn [for_each] in H. apply bind_ok in H as (rv1 & H1 & H).
    rewrite (IH rv1 (fun s' d Hs' => Hno s' d (or_intror Hs')) H).
    apply (@reagent_vars_body_other rv rv1 s var); [|exact H1].
    intros d. apply Hno. now left.
Qed.

(** X4. The binding of a reagent variable is decided by the last
    [define_liquid] assignment to it among the top-level statements of [run].
    When the display name of that statement matches a pattern and step 1
    returns, [int()] has read the digits of the name and the variable is
    bound to the class of the pattern, that integer and the display name,
    whatever earlier statements bound it to; when the name has more digits
    than [int()] converts, step 1 raises [ValueError] and binds nothing. *)
Theorem last_define_liquid_wins :
  forall (pre post : list node) (var display ds : string) (receiver : node)
         (args : list node) (keywords : list (option string * node))
         (cls : reagent_class),
    keyword_name keywords = Some display ->
    match cls with
    | amine => RE_AMINE_match display = Some ds
    | sulfonyl => RE_SULF_match display = Some ds
    end ->
    (forall stmt d, In stmt post -> ~ defines stmt var d) ->
    let body :=
      pre ++ Assign [Name var]
               (Call (Attribute receiver "define_liquid") args keywords)
          :: post in
    (forall rv, build_reagent_vars body = Ok rv ->
       exists n,
         py_int ds = Ok n /\
         dict_get var rv = Some (mkReagentInfo cls n display)) /\
    ((N.of_nat (String.length ds) <=? max_str_digits)%N = false ->
     build_reagent_vars body = Raise ValueError).
Proof.
  intros pre post var display ds receiver args keywords cls Hk Hm Hpost body.
  set (stmt := Assign [Name var]
                 (Call (Attribute receiver "define_liquid") args keywords)) in *.
  assert (Hstep : forall rv0,
             reagent_vars_body rv0 stmt
             = (num <- py_int ds ;;
                Ok (dict_set var (mkReagentInfo cls num display) rv0))).
  { intros rv0. unfold stmt.
    rewrite (@reagent_vars_body_define rv0 var display receiver args keywords Hk).
    destruct cls.
    - rewrite Hm. reflexivity.
    - assert (HA : RE_AMINE_match display = None).
      { destruct (RE_AMINE_match display) eqn:E; [|reflexivity].
        rewrite (patterns_exclusive _ E) in Hm. discriminate. }
      rewrite HA, Hm. reflexivity. }
  assert (Hbody : build_reagent_vars body
                  = (rv0 <- build_reagent_vars pre ;;
                     rv1 <- reagent_vars_body rv0 stmt ;;
                     for_each reagent_vars_body post rv1)).
  { unfold body, build_reagent_vars. rewrite for_each_app. reflexivity. }
  split.
  - intros rv H. rewrite Hbody in H.
    apply bind_ok in H as (rv0 & _ & H). apply bind_ok in H as (rv1 & H1 & H).
    rewrite Hstep in H1. apply bind_ok in H1 as (n & Hn & H1). injection H1 as <-.
    exists n. split; [exact Hn|].
    rewrite (@for_each_reagent_vars_later post _ rv var Hpost H).
    apply dict_get_set_same.
  - intros Hlong. rewrite Hbody.
    destruct (build_reagent_vars pre) as [rv0|e] eqn:Epre.
    + cbn [bind]. rewrite Hstep.
      assert (Hds : RE_AMINE_match display = Some ds \/ RE_SULF_match display = Some ds)
        by (destruct cls; [now left | now right]).
      pose proof (display_name_group _ Hds) as Hv. rewrite Hlong in Hv.
      rewrite Hv. reflexivity.
    + rewrite (build_reagent_vars_raises _ Epre). reflexivity.
Qed.

Lemma last_define_liquid_wins_witness :
  exists rv,
    build_reagent_vars
      [Example.define "r" "Amine 1"; Example.define "r" "sulfonylcl  07 "] = Ok rv /\
    dict_get "r" rv = Some (mkReagentInfo sulfonyl 7 "sulfonylcl  07 ").
Proof.
  destruct (build_reagent_vars
              [Example.define "r" "Amine 1"; Example.define "r" "sulfonylcl  07 "])
    as [rv|e] eqn:E; [|vm_compute in E; discriminate E].
  exists rv. split; [reflexivity|].
  destruct (proj1 (@last_define_liquid_wins
              [Example.define "r" "Amine 1"] [] "r" "sulfonylcl  07 " "07"
              (Name "protocol") [] [(Some "name", Example.str "sulfonylcl  07 ")]
              sulfonyl eq_refl eq_refl
              (fun stmt d (H : In stmt []) => match H with end)) rv E)
    as (n & Hn & H).
  vm_compute in Hn. injection Hn as <-. exact H.
Defined.

(** ** Destination rows and the source layout *)

Lemma dict_get_In (V : Type) (k : string) (v : V) (d : dict V) :
  dict_get k d = Some v -> In (k, v) d.
Proof.
  induction d as [|[k' v'] d IH]; simpl; [discriminate|].
  destruct (String.eqb_spec k k') as [->|]; [intros [= ->]; now left|].
  intros H. right. exact (IH H).
Qed.

Lemma last_write_some (cls : reagent_class) (w : string) (cs : list Contribution)
    (v : Z * string) :
  last_write cls w cs = Some v ->
  exists c, In c cs /\ writes cls w c = true /\ v = (num (c_reagent c), c_source c).
Proof.
  induction cs as [|c cs IH] using rev_ind; [discriminate|].
  rewrite last_write_snoc. destruct (writes cls w c) eqn:E.
  - intros [= <-]. exists c. split; [apply in_or_app; right; now left | tauto].
  - intros H. destruct (IH H) as (c' & Hin & Hc). exists c'.
    split; [apply in_or_app; now left | exact Hc].
Qed.

Lemma last_write_written (cls : reagent_class) (w : string) (cs : list Contribution)
    (c : Contribution) :
  In c cs -> writes cls w c = true -> last_write cls w cs <> None.
Proof.
  induction cs as [|c' cs IH] using rev_ind; [contradiction|].
  intros Hin Hw. rewrite last_write_snoc.
  destruct (writes cls w c') eqn:E; [discriminate|].
  apply in_app_or in Hin as [Hin | [-> | []]]; [exact (IH Hin Hw) | congruence].
Qed.

Lemma written_source_row (swm : dict SourceInfo) (rv : dict ReagentInfo)
    (ts : list Transfer) (cls : reagent_class) (w : string) (n : Z) (src : string) :
  last_write cls w (contributions swm rv ts) = Some (n, src) ->
  exists srow,
    In srow (map (source_row rv) swm) /\ SourceWell srow = src /\
    ReagentClass srow = Some cls /\ ReagentNumber srow = Some n.
Proof.
  intros H. apply last_write_some in H as (c & Hc & Hw & Hv).
  injection Hv as -> ->.
  apply in_contributions in Hc as (t & _ & Hr & _ & Hs).
  unfold resolve in Hr.
  destruct (dict_get (src_well t) swm) as [info|] eqn:Ei; [|discriminate].
  exists (source_row rv (src_well t, info)).
  split; [apply in_map, dict_get_In, Ei|].
  unfold source_row. rewrite Hr. simpl.
  unfold writes in Hw. apply andb_prop in Hw as [_ Hcls].
  split; [symmetry; exact Hs|]. split; [|reflexivity].
  destruct (class (c_reagent c)), cls; (reflexivity || discriminate).
Qed.

(** X5. Every destination row is justified by the source layout returned
    with it.  A row carries at least one reagent number; a number it carries
    comes with the source well it was transferred from, and the source layout
    has a row for that well with the same class and number; a class that never
    reached the well leaves both its number and its source well empty. *)
Theorem destination_rows_justified :
  forall (tree_body : list node) (run_node : node)
         (dest_rows : list DestRec) (source_rows : list SourceRow),
    find_run tree_body = Some run_node ->
    parse_protocol tree_body = Ok (dest_rows, source_rows) ->
    Forall
      (fun rec =>
         (Sulfonyl_chloride_no rec <> None \/ Amine_no rec <> None) /\
         (forall n, Sulfonyl_chloride_no rec = Some n ->
            exists srow, In srow source_rows /\
              SourceWell srow = Sulfonyl_source_well rec /\
              ReagentClass srow = Some sulfonyl /\ ReagentNumber srow = Some n) /\
         (forall n, Amine_no rec = Some n ->
            exists srow, In srow source_rows /\
              SourceWell srow = Amine_source_well rec /\
              ReagentClass srow = Some amine /\ ReagentNumber srow = Some n) /\
         (Sulfonyl_chloride_no rec = None -> Sulfonyl_source_well rec = "") /\
         (Amine_no rec = None -> Amine_source_well rec = ""))
      dest_rows.
Proof.
  intros tree_body run_node dest_rows source_rows Hrun H.
  destruct (parse_protocol_inv _ Hrun H) as (rv & ws & _ & _ & F & _ & ->).
  clear H Hrun.
  induction F as [|w rec ws recs Hw _ IH]; constructor; [|exact IH].
  clear IH. unfold dest_map_of in Hw.
  rewrite build_dest_map_contributions, fold_contributions_get in Hw.
  set (swm := build_source_well_map run_node) in *.
  set (cs := contributions swm rv (recovered_transfers run_node)) in *.
  unfold entry_of in Hw.
  destruct (existsb (fun c => String.eqb (c_well c) w) cs) eqn:Ex; [|discriminate].
  injection Hw as <-. cbn [Sulfonyl_chloride_no Amine_no Sulfonyl_source_well Amine_source_well].
  split.
  { apply existsb_exists in Ex as (c & Hc & Hcw).
    destruct (class (c_reagent c)) eqn:Ecls.
    - right. assert (Hl : last_write amine w cs <> None).
      { apply (last_write_written amine w cs c Hc). unfold writes.
        rewrite Hcw, Ecls. reflexivity. }
      destruct (last_write amine w cs); [discriminate | congruence].
    - left. assert (Hl : last_write sulfonyl w cs <> None).
      { apply (last_write_written sulfonyl w cs c Hc). unfold writes.
        rewrite Hcw, Ecls. reflexivity. }
      destruct (last_write sulfonyl w cs); [discriminate | congruence]. }
  split.
  { intros n Hn. destruct (last_write sulfonyl w cs) as [[n' src]|] eqn:E; [|discriminate].
    injection Hn as ->. exact (written_source_row _ _ _ _ _ E). }
  split.
  { intros n Hn. destruct (last_write amine w cs) as [[n' src]|] eqn:E; [|discriminate].
    injection Hn as ->. exact (written_source_row _ _ _ _ _ E). }
  split; intros Hn.
  - destruct (last_write sulfonyl w cs); [discriminate | reflexivity].
  - destruct (last_write amine w cs); [discriminate | reflexivity].
Qed.

Lemma destination_rows_justified_witness :
  exists dest_rows source_rows,
    parse_protocol (Example.tree_body []) = Ok (dest_rows, source_rows) /\
    Forall (fun rec => Sulfonyl_chloride_no rec <> None \/ Amine_no rec <> None)
           dest_rows.
Proof.
  destruct (parse_protocol (Example.tree_body [])) as [[dest_rows source_rows]|e] eqn:E;
    [|vm_compute in E; discriminate].
  exists dest_rows, source_rows. split; [reflexivity|].
  pose proof (@destination_rows_justified (Example.tree_body []) (Example.run_node [])
                dest_rows source_rows eq_refl E) as H.
  revert H. apply Forall_impl. tauto.
Defined.

(** X2. The source layout has one row per loaded well, and the loads are
    found at any depth of [run]: a well has a row exactly when some call
    [source_plate['<well>'].load_liquid(..., liquid=<name>, ...)] occurs
    anywhere below the [run] node, inside loops and conditionals included,
    with a non-empty well and a non-empty variable name. *)
Theorem loads_found_at_any_depth :
  forall (tree_body : list node) (run_node : node)
         (dest_rows : list DestRec) (source_rows : list SourceRow),
    find_run tree_body = Some run_node ->
    parse_protocol tree_body = Ok (dest_rows, source_rows) ->
    NoDup (map SourceWell source_rows) /\
    forall well,
      In well (map SourceWell source_rows) <->
      exists n lv, descendant run_node n /\ is_load n well lv /\
                   truthy well = true /\ truthy lv = true.
Proof.
  intros tree_body run_node dest_rows source_rows Hrun H.
  destruct (parse_protocol_inv _ Hrun H) as (rv & _ & _ & _ & _ & _ & ->).
  rewrite source_row_well. unfold build_source_well_map.
  split; [apply source_well_map_NoDup|].
  intros well. rewrite source_wells_of_list.
  split; intros (n & lv & Hn & Hrest); exists n, lv;
    (split; [apply walk_descendants, Hn | exact Hrest]).
Qed.

Lemma loads_found_at_any_depth_witness :
  exists dest_rows source_rows,
    parse_protocol
      (Example.tree_body [Other [Other [Example.load "H1" "amine_1"]]])
    = Ok (dest_rows, source_rows) /\
    In "H1" (map SourceWell source_rows).
Proof.
  destruct (parse_protocol
              (Example.tree_body [Other [Other [Example.load "H1" "amine_1"]]]))
    as [[dest_rows source_rows]|e] eqn:E; [|vm_compute in E; discriminate].
  exists dest_rows, source_rows. split; [reflexivity|].
  apply (proj2 (@loads_found_at_any_depth
                  (Example.tree_body [Other [Other [Example.load "H1" "amine_1"]]])
                  (Example.run_node [Other [Other [Example.load "H1" "amine_1"]]])
                  dest_rows source_rows eq_refl E)).
  eexists _, "amine_1". split.
  - eapply desc_child; [|eapply desc_child; [|eapply desc_child;
      [|eapply desc_child; [|apply desc_refl]]]].
    + simpl. do 14 right. now left.
    + simpl. now left.
    + simpl. now left.
    + simpl. now left.
  - split; [eexists _, _; split; reflexivity | split; reflexivity].
Defined.

(** ** What the analyzer looks at *)

Lemma compound_ignored (stmt : node) :
  compound stmt = true ->
  (forall rv, reagent_vars_body rv stmt = Ok rv) /\
  (forall dl, dest_lists_body dl stmt = dl) /\
  (forall dl ts, transfers_body dl ts stmt = ts).
Proof. destruct stmt; try discriminate; intros _; repeat split. Qed.

Lemma fold_left_skip (A S : Type) (f : S -> A -> S) (pre post : list A) (x : A) (s : S) :
  (forall s', f s' x = s') ->
  fold_left f (pre ++ x :: post) s = fold_left f (pre ++ post) s.
Proof. intros H. rewrite !fold_left_app. simpl. rewrite H. reflexivity. Qed.

Lemma for_each_skip (A S : Type) (f : S -> A -> result S) (pre post : list A)
    (x : A) (s : S) :
  (forall s', f s' x = Ok s') ->
  for_each f (pre ++ x :: post) s = for_each f (pre ++ post) s.
Proof.
  intros H. rewrite !for_each_app.
  destruct (for_each f pre s) as [s'|e]; [|reflexivity].
  cbn [bind for_each]. rewrite H. reflexivity.
Qed.

(** X6. Bindings, destination lists and transfers are read from the
    top-level statements of [run] only: a compound statement there (a [for]
    loop, an [if], a [with] block) contributes none of them, whatever it
    contains, so the transfers written inside it are absent from the
    destination map, although the loads inside it are found. *)
Theorem compound_statements_ignored :
  forall (name : string) (args : node) (pre post rest : list node) (stmt : node),
    compound stmt = true ->
    let run_node := FunctionDef name args (pre ++ stmt :: post) rest in
    let without := FunctionDef name args (pre ++ post) rest in
    build_reagent_vars (body_of run_node) = build_reagent_vars (body_of without) /\
    recovered_transfers run_node = recovered_transfers without /\
    forall rv,
      dest_map_of run_node rv
      = build_dest_map (build_source_well_map run_node) rv
                       (recovered_transfers without).
Proof.
  intros name args pre post rest stmt Hc run_node without.
  destruct (compound_ignored _ Hc) as (Hrv & Hdl & Hts).
  assert (E1 : build_reagent_vars (body_of run_node)
               = build_reagent_vars (body_of without)).
  { apply for_each_skip, Hrv. }
  assert (E2 : recovered_transfers run_node = recovered_transfers without).
  { unfold recovered_transfers, build_transfers, build_dest_lists. cbn [body_of run_node without].
    rewrite (fold_left_skip dest_lists_body pre post stmt [] Hdl).
    apply fold_left_skip. intros ts. apply Hts. }
  split; [exact E1|]. split; [exact E2|].
  intros rv. unfold dest_map_of. rewrite E2. reflexivity.
Qed.

Lemma compound_statements_ignored_witness :
  let loop := Other [Example.load "H1" "amine_1"; Example.transfer "H1" ["H12"]] in
  recovered_transfers (Example.run_node [loop])
  = recovered_transfers (Example.run_node []) /\
  In "H1" (dict_keys (build_source_well_map (Example.run_node [loop]))).
Proof.
  split.
  - exact (proj1 (proj2 (@compound_statements_ignored "run" (Other [])
                           (Example.run_body []) [] []
                           (Other [Example.load "H1" "amine_1";
                                   Example.transfer "H1" ["H12"]])
                           eq_refl))).
  - vm_compute. tauto.
Defined.

Lemma find_run_skip (pre : list node) (more : list node) :
  forallb (fun n => negb (is_run n)) pre = true ->
  find_run (pre ++ more) = find_run more.
Proof.
  induction pre as [|n pre IH]; [reflexivity|]. simpl. intros H.
  apply andb_prop in H as [Hn Hp]. specialize (IH Hp).
  destruct n; try exact IH. simpl in Hn.
  destruct (String.eqb _ "run"); [discriminate | exact IH].
Qed.

Lemma find_run_here (r : node) (more : list node) :
  is_run r = true -> find_run (r :: more) = Some r.
Proof.
  destruct r; try discriminate. simpl. intros ->. reflexivity.
Qed.

(** X7. Only the first top-level [def run] of the module is analysed: a
    module without one makes [parse_protocol] raise [ValueError], and what
    stands before or after the first [def run] at module level -- other
    definitions, module-level statements, a second [def run] -- does not
    change the result. *)
Theorem first_run_only :
  forall (pre post : list node) (r : node),
    forallb (fun n => negb (is_run n)) pre = true ->
    parse_protocol pre = Raise ValueError /\
    (is_run r = true -> parse_protocol (pre ++ r :: post) = parse_protocol [r]).
Proof.
  intros pre post r Hpre. split.
  - unfold parse_protocol.
    rewrite <- (app_nil_r pre), (find_run_skip _ [] Hpre). reflexivity.
  - intros Hr. unfold parse_protocol.
    rewrite (find_run_skip _ (r :: post) Hpre), !(@find_run_here r _ Hr). reflexivity.
Qed.

Lemma first_run_only_witness :
  parse_protocol [Other []; FunctionDef "setup" (Other []) [] []] = Raise ValueError /\
  parse_protocol ([Other []; FunctionDef "setup" (Other []) [] []]
                  ++ Example.run_node [] :: [FunctionDef "run" (Other []) [] []])
  = parse_protocol [Example.run_node []].
Proof.
  destruct (@first_run_only [Other []; FunctionDef "setup" (Other []) [] []]
              [FunctionDef "run" (Other []) [] []] (Example.run_node []) eq_refl)
    as [H1 H2].
  split; [exact H1 | exact (H2 eq_refl)].
Defined.

(** ** Plate labels of the enumerator under the sort key of the analyzer *)

Lemma row_label_order (r : nat) :
  (r < 8)%nat ->
  exists c, rows_get row_labels_96 r = String c "" /\ row_order c = Ok (Z.of_nat r).
Proof.
  intros H. do 8 (destruct r as [|r]; [eexists; split; reflexivity|]). lia.
Qed.

Lemma well_sort_key_coordinate (i : nat) :
  _well_sort_key (Enum96.Well (coordinate_of row_labels_96 12 i))
  = Ok (Z.of_nat ((i mod 96) / 8 + 1), Z.of_nat ((i mod 96) mod 8)).
Proof.
  unfold coordinate_of. cbn [Enum96.Well]. 
  change (List.length row_labels_96) with 8%nat. change (8 * 12)%nat with 96%nat.
  destruct (@row_label_order ((i mod 96) mod 8)) as (c & -> & Hc);
    [apply Nat.mod_upper_bound; lia|].
  cbn [append _well_sort_key].
  rewrite py_int_str_of_nat
    by (pose proof (Nat.mod_upper_bound i 96 ltac:(lia)) as Hi;
        pose proof (Nat.Div0.div_lt_upper_bound (i mod 96) 8 12 ltac:(lia));
        lia).
  cbn [bind]. rewrite Hc. reflexivity.
Qed.

Lemma key_of_coordinate (i : nat) :
  key_of (Enum96.Well (coordinate_of row_labels_96 12 i))
  = (Z.of_nat ((i mod 96) / 8 + 1), Z.of_nat ((i mod 96) mod 8)).
Proof. unfold key_of. rewrite well_sort_key_coordinate. reflexivity. Qed.

Lemma plate_position (i : nat) :
  i = (96 * (i / 96) + (8 * ((i mod 96) / 8) + (i mod 96) mod 8))%nat.
Proof.
  pose proof (Nat.div_mod_eq i 96). pose proof (Nat.div_mod_eq (i mod 96) 8). lia.
Qed.

(** X8. The labels [plate_assign_96] writes are plate labels for the
    analyzer: the sort key of the label of index [i] is its column and its
    row number, so within a plate the analyzer's column-major order of the
    labels is the order in which the enumerator fills the wells. *)
Theorem fill_order_is_sort_order (i j : nat) :
  let well k := Enum96.Well (coordinate_of row_labels_96 12 k) in
  _well_sort_key (well i)
  = Ok (Z.of_nat (Col (coordinate_of row_labels_96 12 i)), Z.of_nat ((i mod 96) mod 8)) /\
  plate_label (well i) = true /\
  ((i / 96 = j / 96)%nat ->
   (key_le (key_of (well i)) (key_of (well j)) <-> (i <= j)%nat) /\
   (key_of (well i) = key_of (well j) -> i = j)).
Proof.
  intros well. unfold well.
  split; [apply well_sort_key_coordinate|].
  split.
  { pose proof (well_sort_key_coordinate i) as H.
    destruct (plate_label _) eqn:E; [reflexivity|].
    rewrite well_sort_key_not_plate_label in H; [discriminate | | exact E].
    unfold coordinate_of. cbn [Enum96.Well].
    destruct (@row_label_order ((i mod (List.length row_labels_96 * 12))
                                 mod List.length row_labels_96)) as (c & -> & _);
      [apply Nat.mod_upper_bound; discriminate | reflexivity]. }
  intros Hp. rewrite !key_of_coordinate. unfold key_le.
  pose proof (plate_position i) as Hi. pose proof (plate_position j) as Hj.
  pose proof (Nat.mod_upper_bound (i mod 96) 8 ltac:(lia)) as Bi.
  pose proof (Nat.mod_upper_bound (j mod 96) 8 ltac:(lia)) as Bj.
  revert Hi Hj Bi Bj Hp.
  generalize ((i mod 96) / 8)%nat ((i mod 96) mod 8)%nat (i / 96)%nat
             ((j mod 96) / 8)%nat ((j mod 96) mod 8)%nat (j / 96)%nat.
  intros ci ri pi cj rj pj Hi Hj Bi Bj Hp.
  split.
  - rewrite key_leb_spec. cbn [fst snd]. lia.
  - intros Hk.
    assert (H1 : Z.of_nat (ci + 1) = Z.of_nat (cj + 1)) by congruence.
    assert (H2 : Z.of_nat ri = Z.of_nat rj) by congruence.
    lia.
Qed.

Lemma NoDup_map_injective (A B : Type) (f : A -> B) (l : list A) :
  (forall x y, f x = f y -> x = y) -> NoDup l -> NoDup (map f l).
Proof.
  intros Hinj. induction 1 as [|x l Hx _ IH]; simpl; constructor; [|exact IH].
  intros H. apply in_map_iff in H as (y & Hy & Hin).
  apply Hinj in Hy. subst. contradiction.
Qed.

Lemma plate_well_injective (i j : nat) :
  (Plate (coordinate_of row_labels_96 12 i),
   Enum96.Well (coordinate_of row_labels_96 12 i))
  = (Plate (coordinate_of row_labels_96 12 j),
     Enum96.Well (coordinate_of row_labels_96 12 j)) ->
  i = j.
Proof.
  intros H.
  pose proof (f_equal fst H) as Hp. pose proof (f_equal snd H) as Hw.
  cbn [fst snd] in Hp, Hw. clear H.
  assert (Hk : key_of (Enum96.Well (coordinate_of row_labels_96 12 i))
               = key_of (Enum96.Well (coordinate_of row_labels_96 12 j)))
    by (rewrite Hw; reflexivity).
  clear Hw. rewrite !key_of_coordinate in Hk.
  unfold coordinate_of in Hp. cbn [Plate] in Hp.
  change (List.length row_labels_96 * 12)%nat with 96%nat in Hp.
  pose proof (plate_position i) as Hi. pose proof (plate_position j) as Hj.
  revert Hi Hj Hp Hk.
  generalize ((i mod 96) / 8)%nat ((i mod 96) mod 8)%nat (i / 96)%nat
             ((j mod 96) / 8)%nat ((j mod 96) mod 8)%nat (j / 96)%nat.
  intros ci ri pi cj rj pj Hi Hj Hp Hk.
  assert (H1 : Z.of_nat (ci + 1) = Z.of_nat (cj + 1)) by congruence.
  assert (H2 : Z.of_nat ri = Z.of_nat rj) by congruence.
  lia.
Qed.

Lemma plate_assign_96_eq (n : nat) :
  plate_assign_96 n = Ok (map (coordinate_of row_labels_96 12) (seq 0 n)).
Proof.
  unfold plate_assign_96, plate_assign.
  rewrite plate_assign_loop by (discriminate || lia). reflexivity.
Qed.

(** X9. In the plate map of [plate_assign_96] no pair (plate, well) occurs
    twice, for any number of products; every column is between 1 and 12,
    every row letter is one of [A]..[H], and plates are numbered from 1
    without gap up to the plate of the last product. *)
Theorem plate_map_wells_distinct (n : nat) :
  exists recs,
    plate_assign_96 n = Ok recs /\
    List.length recs = n /\
    NoDup (map (fun r => (Plate r, Enum96.Well r)) recs) /\
    Forall (fun r => (1 <= Col r <= 12)%nat /\ In (Row r) row_labels_96 /\
                     (1 <= Plate r <= (n - 1) / 96 + 1)%nat) recs.
Proof.
  exists (map (coordinate_of row_labels_96 12) (seq 0 n)).
  split; [apply plate_assign_96_eq|].
  split; [rewrite length_map, length_seq; reflexivity|].
  split.
  { rewrite map_map. apply NoDup_map_injective; [|apply seq_NoDup].
    intros i j. apply plate_well_injective. }
  apply Forall_forall. intros r Hr.
  apply in_map_iff in Hr as (i & <- & Hi). apply in_seq in Hi.
  unfold coordinate_of. cbn [Col Row Plate].
  change (List.length row_labels_96) with 8%nat. change (8 * 12)%nat with 96%nat.
  pose proof (Nat.mod_upper_bound i 96 ltac:(lia)) as Hm.
  pose proof (Nat.Div0.div_lt_upper_bound (i mod 96) 8 12 ltac:(lia)).
  split; [lia|]. split.
  - apply nth_In. change (List.length row_labels_96) with 8%nat.
    apply Nat.mod_upper_bound. lia.
  - split; [lia|]. apply Nat.add_le_mono_r. apply Nat.Div0.div_le_mono. lia.
Qed.

(** ** The reaction step and the generator *)

Section EnumerationFacts.

Variable Mol : Type.
Variable MolFromSmiles : string -> option Mol.
Variable MolToSmiles : Mol -> string.
Variable RunReactants : Mol -> Mol -> result (list (list Mol)).
Variable SanitizeMol : Mol -> option Mol.
Variable CombineMols : Mol -> Mol -> Mol.
Variable SanitizeMol_catchErrors : Mol -> Mol.

Let fsps := first_sanitized_product_smiles MolToSmiles RunReactants SanitizeMol.
Let bep := best_effort_product MolToSmiles RunReactants SanitizeMol
                               CombineMols SanitizeMol_catchErrors.
Let en_amines := enumerate_amines MolFromSmiles MolToSmiles RunReactants
                   SanitizeMol CombineMols SanitizeMol_catchErrors.
Let en_sulfonyls := enumerate_sulfonyls MolFromSmiles MolToSmiles RunReactants
                      SanitizeMol CombineMols SanitizeMol_catchErrors.
Let accepted := accepted MolFromSmiles.

Lemma first_sanitized_spec (ps : list Mol) (smi : string) :
  first_sanitized MolToSmiles SanitizeMol ps = Some smi <->
  exists before p p' after,
    ps = before ++ p :: after /\
    Forall (fun q => SanitizeMol q = None) before /\
    SanitizeMol p = Some p' /\ smi = MolToSmiles p'.
Proof.
  induction ps as [|q ps IH]; simpl.
  - split; [discriminate|]. intros (b & p & p' & a & E & _). destruct b; discriminate.
  - destruct (SanitizeMol q) as [q'|] eqn:Eq.
    + split.
      * intros [= <-]. exists [], q, q', ps. repeat split; [constructor | exact Eq].
      * intros (b & p & p' & a & E & Hb & Hp & ->).
        destruct b as [|q0 b]; simpl in E; injection E as -> ->.
        -- congruence.
        -- inversion Hb; congruence.
    + rewrite IH. split.
      * intros (b & p & p' & a & -> & Hb & Hp & ->).
        exists (q :: b), p, p', a. repeat split; [constructor; assumption | exact Hp].
      * intros (b & p & p' & a & E & Hb & Hp & ->).
        destruct b as [|q0 b]; simpl in E; injection E as -> ->; [congruence|].
        exists b, p, p', a. inversion Hb; subst. repeat split; assumption.
Qed.

Lemma first_sanitized_none (ps : list Mol) :
  first_sanitized MolToSmiles SanitizeMol ps = None <->
  Forall (fun q => SanitizeMol q = None) ps.
Proof.
  induction ps as [|q ps IH]; simpl; [split; constructor|].
  destruct (SanitizeMol q) eqn:E.
  - split; [discriminate|]. intros H. inversion H; congruence.
  - rewrite IH. split; [constructor; assumption | intros H; inversion H; assumption].
Qed.

(** X10. The product of a pair is the first sanitizable product of the
    reaction, in the order of the product sets.  [OK_REACTION] is returned
    exactly when that product exists and its SMILES is not empty, and then
    with this SMILES; in every other case -- the reaction raises, gives no
    product set, none of its products can be sanitized, or the SMILES is
    empty -- the result is the disconnected combination of the two reactants
    with [FALLBACK_COMBINEMOLS]. *)
Theorem product_is_first_sanitizable (s a : Mol) :
  (forall smi,
      fsps (Some s, Some a) = Some smi <->
      exists out_sets before p p' after,
        RunReactants s a = Ok out_sets /\
        List.concat out_sets = before ++ p :: after /\
        Forall (fun q => SanitizeMol q = None) before /\
        SanitizeMol p = Some p' /\ smi = MolToSmiles p') /\
  (fsps (Some s, Some a) = None <->
   (exists e, RunReactants s a = Raise e) \/
   (exists out_sets, RunReactants s a = Ok out_sets /\
      Forall (fun q => SanitizeMol q = None) (List.concat out_sets))) /\
  (forall smi, fsps (Some s, Some a) = Some smi -> truthy smi = true ->
               bep (Some s) (Some a) = Ok (smi, OK_REACTION)) /\
  ((fsps (Some s, Some a) = None \/ fsps (Some s, Some a) = Some "") ->
   bep (Some s) (Some a)
   = Ok (MolToSmiles (SanitizeMol_catchErrors (CombineMols s a)),
         FALLBACK_COMBINEMOLS)).
Proof.
  unfold fsps, bep, best_effort_product, first_sanitized_product_smiles.
  split; [|split; [|split]].
  - intros smi. destruct (RunReactants s a) as [out_sets|e].
    + rewrite first_sanitized_spec. split.
      * intros (b & p & p' & af & H). exists out_sets, b, p, p', af. tauto.
      * intros (o & b & p & p' & af & [= <-] & H). exists b, p, p', af. exact H.
    + split; [discriminate|]. intros (o & b & p & p' & af & H & _). discriminate.
  - destruct (RunReactants s a) as [out_sets|e].
    + rewrite first_sanitized_none. split.
      * intros H. right. exists out_sets. tauto.
      * intros [(e & H) | (o & [= <-] & H)]; [discriminate | exact H].
    + split; [intros _; left; eauto | reflexivity].
  - intros smi -> ->. reflexivity.
  - intros [-> | ->]; reflexivity.
Qed.

Lemma bep_cases (s_mol a_mol : option Mol) :
  (exists s a r, s_mol = Some s /\ a_mol = Some a /\ bep s_mol a_mol = Ok r) \/
  ((s_mol = None \/ a_mol = None) /\ bep s_mol a_mol = Raise ArgumentError).
Proof.
  destruct s_mol as [s|]; [|right; split; [now left | reflexivity]].
  destruct a_mol as [a|]; [|right; split; [now right | reflexivity]].
  left. unfold bep, best_effort_product.
  destruct (first_sanitized_product_smiles _ _ _ _) as [smi|];
    [destruct (truthy smi)|]; eexists _, _, _; repeat split.
Qed.

Lemma enumerate_amines_stop (s : Reagent) (amines : list Reagent) :
  forall pid ys e pid',
    en_amines s (MolFromSmiles (smiles s)) amines pid = (ys, e, pid') ->
    Forall (fun y => accepted (y_s y) /\ accepted (y_a y)) ys /\
    exists rest,
      map (pair s) amines = map (fun y => (y_s y, y_a y)) ys ++ rest /\
      run_end accepted e rest.
Proof.
  induction amines as [|a amines IH]; intros pid ys e pid' H;
    unfold en_amines in *; simpl in H.
  - injection H as <- <- <-. split; [constructor|]. exists []. split; reflexivity.
  - fold bep in H.
    destruct (bep_cases (MolFromSmiles (smiles s)) (MolFromSmiles (smiles a)))
      as [(ms & ma & [smi st] & Es & Ea & Eb) | (Hbad & Eb)]; rewrite Eb in H.
    + destruct (enumerate_amines MolFromSmiles MolToSmiles RunReactants SanitizeMol
                  CombineMols SanitizeMol_catchErrors s (MolFromSmiles (smiles s))
                  amines (pid + 1)) as [[ys1 e1] p1] eqn:E1.
      injection H as <- <- <-.
      destruct (IH _ _ _ _ E1) as (Hacc & rest & Hrest & Hend).
      split.
      * constructor; [|exact Hacc]. unfold accepted, Enum96.accepted. simpl.
        rewrite Es, Ea. split; discriminate.
      * exists rest. split; [simpl; f_equal; exact Hrest | exact Hend].
    + injection H as <- <- <-. split; [constructor|].
      exists (map (pair s) (a :: amines)). split; [reflexivity|].
      split; [reflexivity|]. exists s, a, (map (pair s) amines).
      split; [reflexivity|]. unfold accepted, Enum96.accepted.
      destruct Hbad as [Hb|Hb]; [left | right]; rewrite Hb; congruence.
Qed.

Lemma enumerate_sulfonyls_stop (sulfonyls amines : list Reagent) :
  forall pid ys e pid',
    en_sulfonyls sulfonyls amines pid = (ys, e, pid') ->
    Forall (fun y => accepted (y_s y) /\ accepted (y_a y)) ys /\
    exists rest,
      list_prod sulfonyls amines = map (fun y => (y_s y, y_a y)) ys ++ rest /\
      run_end accepted e rest.
Proof.
  induction sulfonyls as [|s sulfonyls IH]; intros pid ys e pid' H;
    unfold en_sulfonyls in *; simpl in H.
  - injection H as <- <- <-. split; [constructor|]. exists []. split; reflexivity.
  - destruct (enumerate_amines MolFromSmiles MolToSmiles RunReactants SanitizeMol
                CombineMols SanitizeMol_catchErrors s (MolFromSmiles (smiles s))
                amines pid) as [[ys1 e1] p1] eqn:E1.
    destruct (enumerate_amines_stop _ _ _ E1) as (Hacc1 & rest1 & Hrest1 & Hend1).
    change (list_prod (s :: sulfonyls) amines)
      with (map (pair s) amines ++ list_prod sulfonyls amines).
    destruct e1 as [ex|].
    + injection H as <- <- <-. split; [exact Hacc1|].
      exists (rest1 ++ list_prod sulfonyls amines).
      split; [rewrite Hrest1, app_assoc; reflexivity|].
      destruct Hend1 as (-> & s0 & a0 & r' & -> & Hbad).
      split; [reflexivity|]. exists s0, a0, (r' ++ list_prod sulfonyls amines).
      split; [reflexivity | exact Hbad].
    + destruct (enumerate_sulfonyls MolFromSmiles MolToSmiles RunReactants SanitizeMol
                  CombineMols SanitizeMol_catchErrors sulfonyls amines p1)
        as [[ys2 e2] p2] eqn:E2.
      injection H as <- <- <-.
      destruct (IH _ _ _ _ E2) as (Hacc2 & rest2 & Hrest2 & Hend2).
      simpl in Hend1. subst rest1. rewrite app_nil_r in Hrest1.
      split; [apply Forall_app; split; assumption|].
      exists rest2. split; [|exact Hend2].
      rewrite Hrest1, Hrest2, map_app, app_assoc. reflexivity.
Qed.

(** X11. The generator stops at the first pair, in row-major order, one of
    whose reagents does not parse: it has then yielded exactly the pairs
    before that one, all of them with two parsable reagents, and it ends with
    the [ArgumentError] of the unguarded [Chem.CombineMols] call.  It ends
    normally exactly when it has yielded every pair. *)
Theorem enumeration_stops_at_unparsable (sulfonyls amines : list Reagent) :
  let run := enumerate_one_step MolFromSmiles MolToSmiles RunReactants SanitizeMol
               CombineMols SanitizeMol_catchErrors sulfonyls amines in
  Forall (fun y => accepted (y_s y) /\ accepted (y_a y)) (fst run) /\
  exists rest,
    list_prod sulfonyls amines = map (fun y => (y_s y, y_a y)) (fst run) ++ rest /\
    run_end accepted (snd run) rest.
Proof.
  intros run. unfold run, enumerate_one_step. fold en_sulfonyls.
  destruct (en_sulfonyls sulfonyls amines 0) as [[ys e] pid'] eqn:E.
  exact (enumerate_sulfonyls_stop _ _ _ E).
Qed.

End EnumerationFacts.

Lemma product_is_first_sanitizable_witness :
  Toy.best_effort_product (Some "ClS(=O)(=O)C") (Some "NC")
  = Ok ("NCS(=O)(=O)C", OK_REACTION).
Proof.
  apply (proj1 (proj2 (proj2 (@product_is_first_sanitizable
           Toy.Mol Toy.MolToSmiles Toy.RunReactants Toy.SanitizeMol Toy.CombineMols
           Toy.SanitizeMol_catchErrors "ClS(=O)(=O)C" "NC")))); reflexivity.
Defined.


(** ** Loading the reagent tables *)

Section LoadingFacts.

Variable Mol : Type.
Variable MolFromSmiles : string -> option Mol.
Variable MolToSmiles : Mol -> string.

Let load_row := load_row MolFromSmiles MolToSmiles.
Let load_reagents_csv := load_reagents_csv MolFromSmiles MolToSmiles.

Lemma smiles_column_present (df : DataFrame) (c : string) :
  smiles_column df = Some c -> has_column df c = true /\ _pick_smiles_col df = Ok c.
Proof.
  unfold smiles_column, _pick_smiles_col.
  destruct (filter (has_column df) _) as [|c0 l] eqn:E; [discriminate|].
  intros [= ->]. split; [|reflexivity].
  assert (H : In c (filter (has_column df) ["SMILES"; "smiles"; "Smiles"]))
    by (rewrite E; now left).
  apply filter_In in H. tauto.
Qed.

Lemma load_row_step (cols : list string) (smi_col : string)
    (id_col name_col : option string) (default_prefix : string)
    (reagents : list Reagent) (ir : nat * row) :
  mem smi_col cols = true ->
  (forall c, id_col = Some c -> mem c cols = true) ->
  (forall c, name_col = Some c -> mem c cols = true) ->
  load_row cols smi_col id_col name_col default_prefix reagents ir
  = Ok (reagents ++
        match MolFromSmiles (smiles_text smi_col (snd ir)) with
        | None => []
        | Some mol =>
            let rid := parsed_id id_col default_prefix ir in
            [mkReagent (MolToSmiles mol) rid
               match name_col with
               | Some c => strip (str_of_cell (lookup c (snd ir)))
               | None => rid
               end]
        end).
Proof.
  intros Hs Hi Hn. destruct ir as [i r].
  unfold load_row, Enum96.load_row, row_get, smiles_text, parsed_id. rewrite Hs.
  cbn [bind fst snd].
  destruct (MolFromSmiles _) as [mol|]; [|rewrite app_nil_r; reflexivity].
  destruct id_col as [c|]; [rewrite (Hi c eq_refl)|];
    (destruct name_col as [c'|]; [rewrite (Hn c' eq_refl)|]); reflexivity.
Qed.

Lemma load_rows (cols : list string) (smi_col : string)
    (id_col name_col : option string) (default_prefix : string)
    (irs : list (nat * row)) (reagents : list Reagent) :
  mem smi_col cols = true ->
  (forall c, id_col = Some c -> mem c cols = true) ->
  (forall c, name_col = Some c -> mem c cols = true) ->
  for_each (load_row cols smi_col id_col name_col default_prefix) irs reagents
  = Ok (reagents ++
        flat_map
          (fun ir =>
             match MolFromSmiles (smiles_text smi_col (snd ir)) with
             | None => []
             | Some mol =>
                 let rid := parsed_id id_col default_prefix ir in
                 [mkReagent (MolToSmiles mol) rid
                    match name_col with
                    | Some c => strip (str_of_cell (lookup c (snd ir)))
                    | None => rid
                    end]
             end) irs).
Proof.
  intros Hs Hi Hn. revert reagents.
  induction irs as [|ir irs IH]; intros reagents; simpl.
  - rewrite app_nil_r. reflexivity.
  - rewrite (@load_row_step cols smi_col id_col name_col default_prefix reagents ir
               Hs Hi Hn).
    cbn [bind]. rewrite IH, <- app_assoc. reflexivity.
Qed.

Lemma name_column_present (df : DataFrame) (c : string) :
  (if has_column df "name" then Some "name"
   else if has_column df "Name" then Some "Name" else None) = Some c ->
  mem c (columns df) = true.
Proof.
  destruct (has_column df "name") eqn:E1; [intros [= <-]; exact E1|].
  destruct (has_column df "Name") eqn:E2; [intros [= <-]; exact E2 | discriminate].
Qed.

Lemma flat_map_snd_combine (A B : Type) (f : A -> list B) (k : nat) (xs : list A) :
  flat_map (fun ir : nat * A => f (snd ir)) (combine (seq k (List.length xs)) xs)
  = flat_map f xs.
Proof.
  revert k. induction xs as [|x xs IH]; intros k; simpl; [reflexivity|].
  rewrite IH. reflexivity.
Qed.

Lemma flat_map_length_le (A B : Type) (f : A -> list B) (xs : list A) :
  (forall x, (List.length (f x) <= 1)%nat) ->
  (List.length (flat_map f xs) <= List.length xs)%nat.
Proof.
  intros H. induction xs as [|x xs IH]; simpl; [lia|].
  rewrite length_app. specialize (H x). lia.
Qed.

(** X12. [load_reagents_csv] raises [ValueError] when the table has no
    SMILES column, or in strict mode when it lacks the preferred ID column,
    and in no other case: the content of a row never makes it fail.  A row
    whose structure text does not parse is dropped without notice; the
    reagents returned carry the canonical SMILES of the remaining rows, in
    the order of the table. *)
Theorem load_reagents_csv_outcome
    (df : DataFrame) (preferred_id_col default_prefix : string) (strict_ids : bool) :
  let load := load_reagents_csv df preferred_id_col default_prefix strict_ids in
  (smiles_column df = None -> load = Raise ValueError) /\
  (forall c, smiles_column df = Some c ->
     (strict_ids = true -> has_column df preferred_id_col = false ->
      load = Raise ValueError) /\
     (strict_ids = false \/ has_column df preferred_id_col = true ->
      exists reagents,
        load = Ok reagents /\
        map smiles reagents
        = flat_map (fun r => match MolFromSmiles (smiles_text c r) with
                             | Some mol => [MolToSmiles mol]
                             | None => []
                             end) (rows df) /\
        (List.length reagents <= List.length (rows df))%nat)).
Proof.
  intros load. unfold load, load_reagents_csv, Enum96.load_reagents_csv. split.
  - unfold smiles_column, _pick_smiles_col.
    destruct (filter (has_column df) _); [reflexivity | discriminate].
  - intros c Hc. apply smiles_column_present in Hc as [Hcol ->]. cbn [bind].
    split.
    + intros -> ->. rewrite andb_false_r. reflexivity.
    + intros Hid.
      set (name_col := if has_column df "name" then _ else _).
      assert (Hn : forall c', name_col = Some c' -> mem c' (columns df) = true)
        by (intros c'; apply name_column_present).
      assert (Hex : exists id_col,
                 (if has_column df preferred_id_col then Ok (Some preferred_id_col)
                  else if has_column df "id" && negb strict_ids then Ok (Some "id")
                  else if strict_ids then Raise ValueError else Ok None)
                 = Ok id_col /\
                 forall c', id_col = Some c' -> mem c' (columns df) = true).
      { destruct (has_column df preferred_id_col) eqn:E1.
        - eexists. split; [reflexivity|]. intros c' [= <-]. exact E1.
        - destruct Hid as [-> | Hid]; [|discriminate].
          rewrite andb_true_r.
          destruct (has_column df "id") eqn:E2.
          + eexists. split; [reflexivity|]. intros c' [= <-]. exact E2.
          + eexists. split; [reflexivity|]. discriminate. }
      destruct Hex as (id_col & -> & Hi). cbn [bind].
      fold load_row. rewrite load_rows; [|exact Hcol | exact Hi | exact Hn]. cbn [app].
      eexists. split; [reflexivity|]. split.
      * rewrite map_flat_map'. unfold iterrows.
        rewrite <- (flat_map_snd_combine _ 0 (rows df)).
        apply flat_map_ext. intros ir.
        destruct (MolFromSmiles _); reflexivity.
      * etransitivity; [apply flat_map_length_le|].
        -- intros ir. destruct (MolFromSmiles _); simpl; lia.
        -- unfold iterrows. rewrite length_combine, length_seq. lia.
Qed.

Lemma generated_id_injective (default_prefix : string) (i j : nat) :
  generated_id default_prefix i = generated_id default_prefix j -> i = j.
Proof.
  unfold generated_id. intros H. apply string_app_inv_head in H.
  apply zero_padded_inj in H. lia.
Qed.

Lemma flat_map_indexed (A B : Type) (p : A -> bool) (g : nat -> B) (d : A)
    (k : nat) (xs : list A) :
  flat_map (fun ir : nat * A => if p (snd ir) then [g (fst ir)] else [])
           (combine (seq k (List.length xs)) xs)
  = map g (filter (fun i => p (nth (i - k) xs d)) (seq k (List.length xs))).
Proof.
  revert k. induction xs as [|x xs IH]; intros k; [reflexivity|].
  cbn [List.length seq combine flat_map filter snd fst].
  rewrite Nat.sub_diag. cbn [nth]. rewrite IH.
  assert (E : filter (fun i => p (nth (i - S k) xs d)) (seq (S k) (List.length xs))
              = filter (fun i => p (nth (i - k) (x :: xs) d)) (seq (S k) (List.length xs))).
  { apply filter_ext_in. intros i Hi. apply in_seq in Hi.
    replace (i - k)%nat with (S (i - S k)) by lia. reflexivity. }
  rewrite E. destruct (p x); reflexivity.
Qed.

(** X13. Without an ID column, the ID of a reagent is the prefix followed by
    the position of its row in the table, zero-padded to six digits: the
    positions of dropped rows are skipped, not reused, and no two reagents
    share an ID.  Without a name column the name of a reagent is its ID. *)
Theorem generated_ids_distinct
    (df : DataFrame) (preferred_id_col default_prefix c : string)
    (reagents : list Reagent) :
  has_column df preferred_id_col = false -> has_column df "id" = false ->
  smiles_column df = Some c ->
  load_reagents_csv df preferred_id_col default_prefix false = Ok reagents ->
  map rid reagents
  = map (generated_id default_prefix)
        (filter (fun i => match MolFromSmiles (smiles_text c (nth i (rows df) [])) with
                          | Some _ => true
                          | None => false
                          end)
                (seq 0 (List.length (rows df)))) /\
  NoDup (map rid reagents) /\
  (has_column df "name" = false -> has_column df "Name" = false ->
   Forall (fun r => Enum96.name r = rid r) reagents).
Proof.
  intros Hp Hid Hc H.
  apply smiles_column_present in Hc as [Hcol Hpick].
  unfold load_reagents_csv, Enum96.load_reagents_csv in H.
  rewrite Hpick, Hp, Hid in H. cbn [bind andb negb] in H.
  fold load_row in H.
  rewrite load_rows in H;
    [|exact Hcol | discriminate | intros c'; apply name_column_present].
  cbn [app] in H. injection H as <-.
  match goal with
  | |- map rid ?l = ?r /\ _ => assert (Hids : map rid l = r)
  end.
  { rewrite map_flat_map'. unfold iterrows.
    rewrite <- (filter_ext (fun i => match MolFromSmiles
                                             (smiles_text c (nth (i - 0) (rows df) [])) with
                                     | Some _ => true
                                     | None => false
                                     end))
      by (intros i; rewrite Nat.sub_0_r; reflexivity).
    rewrite <- (flat_map_indexed
                  (fun r => match MolFromSmiles (smiles_text c r) with
                            | Some _ => true | None => false end)
                  (generated_id default_prefix) [] 0 (rows df)).
    apply flat_map_ext. intros ir.
    destruct (MolFromSmiles _); reflexivity. }
  split; [exact Hids|]. split.
  - rewrite Hids. apply NoDup_map_injective;
      [intros i j; apply generated_id_injective | apply NoDup_filter, seq_NoDup].
  - intros E1 E2. rewrite E1, E2. apply Forall_forall. intros r Hr.
    apply in_flat_map in Hr as (ir & _ & Hr).
    destruct (MolFromSmiles _); [|contradiction].
    destruct Hr as [<- | []]. reflexivity.
Qed.

End LoadingFacts.

Lemma generated_ids_distinct_witness :
  let df := mkDataFrame ["SMILES"]
              [[("SMILES", StrV "CC")]; [("SMILES", StrV "??")];
               [("SMILES", StrV " NC ")]] in
  exists reagents,
    Toy.load_reagents_csv df "S_ID" "S_" false = Ok reagents /\
    map rid reagents = ["S_000000"; "S_000002"] /\
    NoDup (map rid reagents).
Proof.
  intros df. eexists. split; [vm_compute; reflexivity|].
  destruct (@generated_ids_distinct Toy.Mol Toy.MolFromSmiles Toy.MolToSmiles
              df "S_ID" "S_" "SMILES" _ eq_refl eq_refl eq_refl eq_refl)
    as (H1 & H2 & _).
  split; [exact H1 | exact H2].
Defined.

(** ** The enumerator from tables to tables *)

Section MainFacts.

Variable Mol : Type.
Variable MolFromSmiles : string -> option Mol.
Variable MolToSmiles : Mol -> string.
Variable RunReactants : Mol -> Mol -> result (list (list Mol)).
Variable SanitizeMol : Mol -> option Mol.
Variable CombineMols : Mol -> Mol -> Mol.
Variable SanitizeMol_catchErrors : Mol -> Mol.

Let load_reagents_csv := load_reagents_csv MolFromSmiles MolToSmiles.
Let main := Enum96.main MolFromSmiles MolToSmiles RunReactants SanitizeMol
              CombineMols SanitizeMol_catchErrors.
Let accepted := accepted MolFromSmiles.

Lemma combine_map_l (A B : Type) (f : A -> B) (l : list A) :
  combine (map f l) l = map (fun k => (f k, k)) l.
Proof. induction l; simpl; congruence. Qed.

(** X14. Once both reagent tables are loaded: if one of the two lists is
    empty, [main] ends with status 2 and writes nothing; otherwise, for
    accepted reagents, it ends with status 0, the product table has one row
    per pair with the ProductIDs [0 .. N*M-1] in row-major order, and the
    plate map places the product [k] at the coordinate of index [k]. *)
Theorem main_outputs
    (df_sulfonyls df_amines : DataFrame) (strict_ids : bool)
    (sulfonyls amines : list Reagent) :
  load_reagents_csv df_sulfonyls "S_ID" "S_" strict_ids = Ok sulfonyls ->
  load_reagents_csv df_amines "Amine_ID" "A_" strict_ids = Ok amines ->
  Forall accepted sulfonyls -> Forall accepted amines ->
  let N := List.length sulfonyls in
  let M := List.length amines in
  (N = 0%nat \/ M = 0%nat ->
   main df_sulfonyls df_amines strict_ids = Ok (None, 2%Z)) /\
  ((0 < N)%nat -> (0 < M)%nat ->
   exists out,
     main df_sulfonyls df_amines strict_ids = Ok (Some out, 0%Z) /\
     out_status out = 0%Z /\
     column_values (out_products out) "ProductID"
     = Ok (map (fun k => IntV (Z.of_nat k)) (seq 0 (N * M))) /\
     out_plate_map out
     = map (fun k => mkPlateMapRow (coordinate_of row_labels_96 12 k) k)
           (seq 0 (N * M)) /\
     (forall i j s a,
         nth_error sulfonyls i = Some s -> nth_error amines j = Some a ->
         exists p,
           nth_error (rows (out_products out)) (i * M + j) = Some p /\
           lookup "ProductID" p = IntV (Z.of_nat (i * M + j)) /\
           lookup "S_ID" p = StrV (rid s) /\
           lookup "Amine_ID" p = StrV (rid a))).
Proof.
  intros HS HA HaccS HaccA N M.
  unfold main, Enum96.main. fold load_reagents_csv. rewrite HS, HA. cbn [bind].
  split.
  - intros [H | H]; apply length_zero_iff_nil in H; rewrite H;
      [reflexivity | destruct sulfonyls; reflexivity].
  - intros HN HM. subst N M.
    assert (E1 : nonempty sulfonyls = true)
      by (destruct sulfonyls; [simpl in HN; lia | reflexivity]).
    assert (E2 : nonempty amines = true)
      by (destruct amines; [simpl in HM; lia | reflexivity]).
    rewrite E1, E2. cbn [negb orb].
    destruct (@enumerate_sulfonyls_accepted Mol MolFromSmiles MolToSmiles RunReactants
                SanitizeMol CombineMols SanitizeMol_catchErrors
                sulfonyls amines HaccS HaccA 0%nat)
      as (ys & E & Hp & Hsa & _).
    unfold enumerate_one_step. rewrite E. cbn [fst].
    assert (HL : List.length ys = (List.length sulfonyls * List.length amines)%nat).
    { rewrite <- (length_map y_pid), Hp, length_seq. reflexivity. }
    unfold plate_map. rewrite plate_assign_96_eq. cbn [bind].
    eexists. split; [reflexivity|]. cbn [out_status out_products out_plate_map].
    split; [reflexivity|]. split; [|split].
    + unfold column_values, products_table. cbn [has_column columns rows].
      change (mem "ProductID" product_columns) with true. cbv iota.
      rewrite map_map. f_equal.
      change (fun y => lookup "ProductID" (product_record y))
        with (fun y => IntV (Z.of_nat (y_pid y))).
      rewrite <- (map_map y_pid (fun k => IntV (Z.of_nat k))), Hp. reflexivity.
    + rewrite Hp, HL, combine_map_l, map_map. reflexivity.
    + intros i j s a Hi Hj.
      pose proof (@nth_error_list_prod _ _ _ _ _ _ _ _ Hi Hj) as Hij.
      rewrite <- Hsa, nth_error_map in Hij.
      destruct (nth_error ys (i * List.length amines + j)) as [y|] eqn:Ey; [|discriminate].
      simpl in Hij. injection Hij as Hys Hya.
      exists (product_record y). unfold products_table. cbn [rows].
      rewrite nth_error_map, Ey. split; [reflexivity|].
      assert (Hn : nth_error (map y_pid ys) (i * List.length amines + j) = Some (y_pid y))
        by (rewrite nth_error_map, Ey; reflexivity).
      rewrite Hp, nth_error_seq in Hn.
      destruct (Nat.ltb _ _); [|discriminate].
      simpl in Hn. injection Hn as Hn.
      unfold product_record. simpl. rewrite <- Hn, Hys, Hya. repeat split.
Qed.

End MainFacts.

Lemma main_outputs_witness :
  let df_s := mkDataFrame ["SMILES"; "S_ID"]
                [[("SMILES", StrV "ClS(=O)(=O)C"); ("S_ID", StrV "S_001")];
                 [("SMILES", StrV "??"); ("S_ID", StrV "S_002")]] in
  let df_a := mkDataFrame ["SMILES"; "Amine_ID"]
                [[("SMILES", StrV "NC"); ("Amine_ID", StrV "Amine_ID_001")];
                 [("SMILES", StrV "NCC"); ("Amine_ID", StrV "Amine_ID_002")]] in
  exists out,
    Toy.main df_s df_a true = Ok (Some out, 0%Z) /\
    map pm_ProductID (out_plate_map out) = [0; 1]%nat /\
    map (fun r => Enum96.Well (pm_rec r)) (out_plate_map out) = ["A1"; "B1"].
Proof.
  intros df_s df_a.
  destruct (@main_outputs Toy.Mol Toy.MolFromSmiles Toy.MolToSmiles Toy.RunReactants
              Toy.SanitizeMol Toy.CombineMols Toy.SanitizeMol_catchErrors
              df_s df_a true
              [mkReagent "ClS(=O)(=O)C" "S_001" "S_001"]
              [mkReagent "NC" "Amine_ID_001" "Amine_ID_001";
               mkReagent "NCC" "Amine_ID_002" "Amine_ID_002"]
              eq_refl eq_refl)
    as (_ & H).
  - repeat constructor; discriminate.
  - repeat constructor; discriminate.
  - destruct H as (out & E & _ & _ & Hpm & _); [simpl; lia | simpl; lia|].
    exists out. split; [exact E|]. rewrite Hpm. split; reflexivity.
Defined.

(** ** Keys of the merger *)

Lemma substring_all (s : string) : String.substring 0 (String.length s) s = s.
Proof. induction s as [|c s IH]; simpl; congruence. Qed.

Lemma substring_drop_prefix (p s : string) :
  String.substring (String.length p) (String.length (p ++ s) - String.length p) (p ++ s)
  = s.
Proof.
  induction p as [|c p IH]; simpl.
  - rewrite Nat.sub_0_r. apply substring_all.
  - exact IH.
Qed.

Lemma key_number_prefix (p s : string) : key_number p (p ++ s) = py_int s.
Proof. unfold key_number. rewrite substring_drop_prefix. reflexivity. Qed.

(** X15. The number is read back from a key of the merger: [int()] of
    what follows the prefix is the number the key was rendered from, for every
    integer the format renders, negative ones included; the format renders
    the integers of at most 4300 digits and raises [ValueError] on the
    others.  So the keys of two different numbers differ, and a sulfonyl key
    is never an amine key. *)
Theorem merger_keys_round_trip :
  (forall n key, s_id n = Ok key -> key_number "S_" key = Ok n) /\
  (forall n key, amine_id n = Ok key -> key_number "Amine_ID_" key = Ok n) /\
  (forall n,
      if (decimal_digits n <=? max_str_digits)%N
      then s_id n = Ok ("S_" ++ zero_padded 3 n)%string /\
           amine_id n = Ok ("Amine_ID_" ++ zero_padded 3 n)%string
      else s_id n = Raise ValueError /\ amine_id n = Raise ValueError) /\
  (forall n m key, s_id n = Ok key -> s_id m = Ok key -> n = m) /\
  (forall n m key, amine_id n = Ok key -> amine_id m = Ok key -> n = m) /\
  (forall n m key, s_id n = Ok key -> amine_id m <> Ok key).
Proof.
  repeat match goal with |- _ /\ _ => split end.
  - intros n key H. apply s_id_ok in H as [-> Hd].
    rewrite key_number_prefix, py_int_zero_padded by lia. rewrite Hd. reflexivity.
  - intros n key H. apply amine_id_ok in H as [-> Hd].
    rewrite key_number_prefix, py_int_zero_padded by lia. rewrite Hd. reflexivity.
  - intros n. unfold s_id, amine_id, format_0d.
    destruct (decimal_digits n <=? max_str_digits)%N; split; reflexivity.
  - exact s_id_inj.
  - exact amine_id_inj.
  - intros n m key Hs Ha. apply s_id_ok in Hs as [-> _].
    apply amine_id_ok in Ha as [Ha _]. discriminate Ha.
Qed.

(** ** When the merge raises *)

Lemma normalize_missing_column (df : DataFrame) (col : string)
    (f : Z -> result string) :
  has_column df col = false -> normalize df col f = Raise KeyError.
Proof. unfold normalize, column_values. intros ->. reflexivity. Qed.

(** A column of integers within [int64] and empty fields, with at least
    one empty field, is a [float64] column, which [astype(int)] refuses. *)
Lemma astype_int_blank (values : list cell) :
  forallb (fun x => isna x || int_in in_int64 x) values = true ->
  existsb isna values = true ->
  astype_int values = Raise ValueError.
Proof.
  intros Hall Hex. unfold astype_int.
  assert (Hno : forall range, forallb (int_in range) values = false).
  { intros range. apply existsb_exists in Hex as (x & Hx & Hna).
    destruct (forallb (int_in range) values) eqn:E; [|reflexivity].
    rewrite forallb_forall in E. specialize (E x Hx).
    destruct x; discriminate. }
  rewrite !Hno, Hall. reflexivity.
Qed.

Lemma normalize_blank (df : DataFrame) (col : string) (f : Z -> result string) :
  has_column df col = true ->
  forallb (fun x => isna x || int_in in_int64 x) (map (lookup col) (rows df)) = true ->
  existsb isna (map (lookup col) (rows df)) = true ->
  normalize df col f = Raise ValueError.
Proof.
  unfold normalize, column_values. intros -> Hall Hex. cbn [bind].
  rewrite (@astype_int_blank _ Hall Hex). reflexivity.
Qed.

Lemma mem_app (c : string) (xs ys : list string) :
  mem c (xs ++ ys) = mem c xs || mem c ys.
Proof. unfold mem. apply existsb_app. Qed.

Lemma set_column_has (df : DataFrame) (c c' : string) (values : list cell) :
  has_column df c' = true -> has_column (set_column df c values) c' = true.
Proof.
  unfold has_column, set_column. cbn [columns]. unfold has_column. intros H.
  destruct (mem c (columns df)); [exact H|]. rewrite mem_app, H. reflexivity.
Qed.

Lemma set_column_has_not (df : DataFrame) (c c' : string) (values : list cell) :
  c' <> c -> has_column df c' = false ->
  has_column (set_column df c values) c' = false.
Proof.
  unfold has_column, set_column. cbn [columns]. unfold has_column. intros Hne H.
  destruct (mem c (columns df)); [exact H|]. rewrite mem_app, H. simpl.
  destruct (String.eqb_spec c' c); [contradiction | reflexivity].
Qed.

Lemma lookup_built (f : string -> cell) (cols : list string) (c : string) :
  mem c cols = true -> lookup c (map (fun c' => (c', f c')) cols) = f c.
Proof.
  intros H. rewrite <- (app_nil_r (map _ cols)), lookup_norm, H. reflexivity.
Qed.

Lemma map_fst_combine (A B : Type) (xs : list A) (ys : list B) :
  List.length ys = List.length xs -> map fst (combine xs ys) = xs.
Proof.
  revert ys. induction xs as [|x xs IH]; intros [|y ys] H; try discriminate;
    [reflexivity|].
  simpl. f_equal. apply IH. simpl in H. congruence.
Qed.

(** Setting one column leaves the others as they were. *)
Lemma set_column_lookup (df : DataFrame) (c c' : string) (values : list cell) :
  List.length values = List.length (rows df) ->
  c' <> c -> has_column df c' = true ->
  map (lookup c') (rows (set_column df c values)) = map (lookup c') (rows df).
Proof.
  intros Hlen Hne Hc.
  pose proof (@set_column_has df c c' values Hc) as Hc'.
  unfold has_column, set_column in Hc'. cbn [columns] in Hc'.
  unfold set_column. cbn [rows]. rewrite map_map.
  rewrite <- (map_fst_combine (rows df) values Hlen) at 2. rewrite map_map.
  apply map_ext. intros [l v].
  rewrite (lookup_built (fun c'0 => if String.eqb c'0 c then snd (l, v)
                                    else lookup c'0 (fst (l, v))) _ _ Hc').
  destruct (String.eqb_spec c' c); [contradiction | reflexivity].
Qed.

Lemma blank_free (values : list cell) :
  forallb (fun x => isna x || int_in in_int64 x) values = true ->
  existsb isna values = false ->
  forall x, In x values -> int_cell x <> None.
Proof.
  intros Hall Hno x Hx. rewrite forallb_forall in Hall. specialize (Hall x Hx).
  destruct x as [|n|s]; cbn [isna int_in orb] in Hall.
  - exfalso. assert (existsb isna values = true); [|congruence].
    apply existsb_exists. exists NaN. split; [exact Hx | reflexivity].
  - unfold int_cell. rewrite Hall. discriminate.
  - discriminate Hall.
Qed.

Lemma main_missing_number (df_dest df_prod : DataFrame) :
  has_column df_dest "Sulfonyl chloride #" = true ->
  has_column df_dest "Amine #" = true ->
  (forall l, In l (rows df_dest) ->
     (isna (lookup "Sulfonyl chloride #" l)
      || int_in in_int64 (lookup "Sulfonyl chloride #" l) = true) /\
     (isna (lookup "Amine #" l) || int_in in_int64 (lookup "Amine #" l) = true)) ->
  (exists l, In l (rows df_dest) /\
     (isna (lookup "Sulfonyl chloride #" l) = true \/
      isna (lookup "Amine #" l) = true)) ->
  Merger.main df_dest df_prod = Raise ValueError.
Proof.
  intros HS HA Hall (l & Hl & Hbad). unfold Merger.main.
  assert (HallS : forallb (fun x => isna x || int_in in_int64 x)
                    (map (lookup "Sulfonyl chloride #") (rows df_dest)) = true).
  { apply forallb_forall. intros x Hx. apply in_map_iff in Hx as (l0 & <- & H0).
    apply (Hall l0 H0). }
  assert (HallA : forallb (fun x => isna x || int_in in_int64 x)
                    (map (lookup "Amine #") (rows df_dest)) = true).
  { apply forallb_forall. intros x Hx. apply in_map_iff in Hx as (l0 & <- & H0).
    apply (Hall l0 H0). }
  destruct (existsb isna (map (lookup "Sulfonyl chloride #") (rows df_dest))) eqn:ES.
  - rewrite (@normalize_blank df_dest "Sulfonyl chloride #" s_id HS HallS ES).
    reflexivity.
  - pose proof (@blank_free _ HallS ES) as Hcells.
    rewrite (@normalize_cells df_dest "Sulfonyl chloride #" s_id
               (fun n => ("S_" ++ zero_padded 3 n)%string) HS);
      [ | intros l0 H0; apply Hcells, in_map, H0 | exact s_id_int64 ].
    cbn [bind].
    set (sids := map _ (rows df_dest)).
    assert (Hlen : List.length sids = List.length (rows df_dest))
      by (unfold sids; apply length_map).
    assert (Hcol : map (lookup "Amine #") (rows (set_column df_dest "S_ID" sids))
                   = map (lookup "Amine #") (rows df_dest))
      by (apply set_column_lookup; [exact Hlen | discriminate | exact HA]).
    rewrite normalize_blank; [reflexivity | apply set_column_has, HA | |];
      rewrite Hcol; [exact HallA|].
    apply existsb_exists. exists (lookup "Amine #" l).
    split; [apply in_map, Hl|].
    destruct Hbad as [Hbad | Hbad]; [|exact Hbad].
    exfalso. assert (existsb isna (map (lookup "Sulfonyl chloride #") (rows df_dest))
                     = true); [|congruence].
    apply existsb_exists. exists (lookup "Sulfonyl chloride #" l).
    split; [apply in_map, Hl | exact Hbad].
Qed.

(** X16. What stops the merge before the product table is looked at.  A
    destination map without the column [Sulfonyl chloride #], or with it and
    without [Amine #] when every sulfonyl number is an integer within
    [int64], makes the merge raise [KeyError]; a destination map with both
    columns, as the analyzer writes it with numbers within [int64], in which
    some row lacks one of its two numbers makes it raise [ValueError],
    whatever the product table holds -- no output is written and no exit
    status is returned. *)
Theorem merge_needs_both_numbers (df_dest df_prod : DataFrame) :
  (has_column df_dest "Sulfonyl chloride #" = false ->
   Merger.main df_dest df_prod = Raise KeyError) /\
  (has_column df_dest "Sulfonyl chloride #" = true ->
   has_column df_dest "Amine #" = false ->
   (forall l, In l (rows df_dest) ->
      int_cell (lookup "Sulfonyl chloride #" l) <> None) ->
   Merger.main df_dest df_prod = Raise KeyError) /\
  (has_column df_dest "Sulfonyl chloride #" = true ->
   has_column df_dest "Amine #" = true ->
   (forall l, In l (rows df_dest) ->
      (isna (lookup "Sulfonyl chloride #" l)
       || int_in in_int64 (lookup "Sulfonyl chloride #" l) = true) /\
      (isna (lookup "Amine #" l) || int_in in_int64 (lookup "Amine #" l) = true)) ->
   (exists l, In l (rows df_dest) /\
      (isna (lookup "Sulfonyl chloride #" l) = true \/
       isna (lookup "Amine #" l) = true)) ->
   Merger.main df_dest df_prod = Raise ValueError).
Proof.
  split; [|split].
  - intros H. unfold Merger.main.
    rewrite (@normalize_missing_column df_dest _ s_id H). reflexivity.
  - intros HS HA Hall. unfold Merger.main.
    rewrite (@normalize_cells df_dest "Sulfonyl chloride #" s_id
               (fun n => ("S_" ++ zero_padded 3 n)%string) HS Hall s_id_int64).
    cbn [bind].
    rewrite normalize_missing_column; [reflexivity|].
    apply set_column_has_not; [discriminate | exact HA].
  - apply main_missing_number.
Qed.

Lemma layout_cells (rec : DestRec) :
  numbers_in_int64 rec ->
  (isna (lookup "Sulfonyl chloride #" (layout_row rec))
   || int_in in_int64 (lookup "Sulfonyl chloride #" (layout_row rec)) = true) /\
  (isna (lookup "Amine #" (layout_row rec))
   || int_in in_int64 (lookup "Amine #" (layout_row rec)) = true).
Proof.
  intros [Rs Ra]. unfold layout_row. cbn [lookup String.eqb Ascii.eqb Bool.eqb].
  destruct (Sulfonyl_chloride_no rec) as [s|], (Amine_no rec) as [a|];
    cbn [opt_int_cell isna int_in orb];
    rewrite ?(Rs _ eq_refl), ?(Ra _ eq_refl); split; reflexivity.
Qed.

(** X17. The merge of a destination layout of the analyzer, whose numbers
    are within [int64], with a product table of the enumerator returns
    exactly when every destination row carries both reagent numbers: a single
    well reached by one class only makes the whole merge raise
    [ValueError]. *)
Theorem merge_of_layout_returns_iff (dest_rows : list DestRec) (df_prod : DataFrame) :
  product_table df_prod ->
  Forall numbers_in_int64 dest_rows ->
  ((exists o, Merger.main (destination_layout dest_rows) df_prod = Ok o)
   <-> Forall both_numbers dest_rows).
Proof.
  intros Hprod Hrange. split.
  - intros (o & Ho). apply Forall_forall. intros rec Hrec.
    assert (Hcells : forall l, In l (rows (destination_layout dest_rows)) ->
              (isna (lookup "Sulfonyl chloride #" l)
               || int_in in_int64 (lookup "Sulfonyl chloride #" l) = true) /\
              (isna (lookup "Amine #" l)
               || int_in in_int64 (lookup "Amine #" l) = true)).
    { intros l Hl. cbn [destination_layout rows] in Hl.
      apply in_map_iff in Hl as (r & <- & Hr). apply layout_cells.
      rewrite Forall_forall in Hrange. exact (Hrange r Hr). }
    destruct (Sulfonyl_chloride_no rec) as [s|] eqn:Es;
      [destruct (Amine_no rec) as [a|] eqn:Ea|].
    + unfold both_numbers. rewrite Es, Ea. split; discriminate.
    + rewrite main_missing_number in Ho;
        [discriminate | reflexivity | reflexivity | exact Hcells |].
      exists (layout_row rec). split; [apply in_map, Hrec|].
      right. unfold layout_row. cbn [lookup String.eqb Ascii.eqb Bool.eqb].
      rewrite Ea. reflexivity.
    + rewrite main_missing_number in Ho;
        [discriminate | reflexivity | reflexivity | exact Hcells |].
      exists (layout_row rec). split; [apply in_map, Hrec|].
      left. unfold layout_row. cbn [lookup String.eqb Ascii.eqb Bool.eqb].
      rewrite Es. reflexivity.
  - intros H. rewrite main_complete; [eexists; reflexivity | | exact Hprod].
    apply destination_layout_complete; assumption.
Qed.

Lemma merge_of_layout_returns_iff_witness :
  (exists o, Merger.main
               (destination_layout [mkDestRec "A1" (Some 1%Z) (Some 1%Z) "A2" "A1"])
               Merger.Example.products = Ok o) /\
  ~ (exists o, Merger.main
                 (destination_layout [mkDestRec "A1" (Some 1%Z) (Some 1%Z) "A2" "A1";
                                      mkDestRec "B1" (Some 1%Z) None "A2" ""])
                 Merger.Example.products = Ok o).
Proof.
  assert (Hp : product_table Merger.Example.products)
    by (apply example_product_table; repeat constructor).
  assert (Hr : forall rec, In rec [mkDestRec "A1" (Some 1%Z) (Some 1%Z) "A2" "A1";
                                   mkDestRec "B1" (Some 1%Z) None "A2" ""] ->
                           numbers_in_int64 rec).
  { intros rec [<- | [<- | []]]; split; intros n [= <-]; reflexivity. }
  split.
  - apply (proj2 (@merge_of_layout_returns_iff
                    [mkDestRec "A1" (Some 1%Z) (Some 1%Z) "A2" "A1"] _ Hp
                    ltac:(constructor; [apply Hr; now left | constructor]))).
    repeat constructor; discriminate.
  - intros H.
    apply (proj1 (@merge_of_layout_returns_iff
                    [mkDestRec "A1" (Some 1%Z) (Some 1%Z) "A2" "A1";
                     mkDestRec "B1" (Some 1%Z) None "A2" ""] _ Hp
                    ltac:(apply Forall_forall; exact Hr))) in H.
    inversion H as [|? ? _ H2]; subst. inversion H2 as [|? ? [_ Hb] _]; subst.
    apply Hb. reflexivity.
Defined.

(** ** The only exception of the analyzer *)

Lemma map_result_raise_inv (A B : Type) (f : A -> result B) (xs : list A) (e : exn) :
  map_result f xs = Raise e -> exists x, In x xs /\ f x = Raise e.
Proof.
  induction xs as [|x xs IH]; simpl; [discriminate|].
  destruct (f x) as [y|e'] eqn:E; simpl.
  - destruct (map_result f xs) as [ys|e'']; simpl; [discriminate|].
    intros [= <-]. destruct (IH eq_refl) as (x0 & Hin & Hx0).
    exists x0. split; [now right | exact Hx0].
  - intros [= <-]. exists x. split; [now left | exact E].
Qed.

Lemma dest_map_of_keys_truthy (run_node : node) (rv : dict ReagentInfo)
    (w : string) :
  In w (dict_keys (dest_map_of run_node rv)) -> truthy w = true.
Proof.
  unfold dest_map_of. intros H. apply dest_map_keys in H as (t & Ht & _ & Hw).
  pose proof (recovered_transfers_truthy _ _ Ht) as Hall.
  unfold wells_truthy in Hall. rewrite Forall_forall in Hall. exact (Hall w Hw).
Qed.

Lemma emit_raise_inv (rv : dict ReagentInfo) (swm : dict SourceInfo)
    (dm : dict DestRec) (e : exn) :
  (forall w, In w (dict_keys dm) -> truthy w = true) ->
  emit rv swm dm = Raise e ->
  exists w, In w (dict_keys dm) /\ plate_label w = false /\ e = ValueError.
Proof.
  intros Ht H. unfold emit, sorted_by in H.
  destruct (map_result _well_sort_key (dict_keys dm)) as [ks|e'] eqn:E;
    [discriminate|].
  simpl in H. injection H as <-.
  apply map_result_raise_inv in E as (w & Hw & Ew). exists w. split; [exact Hw|].
  destruct (plate_label w) eqn:Ep.
  - apply well_sort_key_plate_label in Ep as (k & Ek). congruence.
  - split; [reflexivity|].
    rewrite (well_sort_key_not_plate_label _ (Ht w Hw) Ep) in Ew. congruence.
Qed.

(** Step 1 returns exactly when no matched display name has more digits
    than [int()] converts. *)
Lemma for_each_reagent_vars_returns (body : list node) (rv0 : dict ReagentInfo) :
  (exists rv, for_each reagent_vars_body body rv0 = Ok rv) <->
  (forall stmt var display ds,
      In stmt body -> defines stmt var display ->
      RE_AMINE_match display = Some ds \/ RE_SULF_match display = Some ds ->
      (N.of_nat (String.length ds) <=? max_str_digits)%N = true).
Proof.
  revert rv0. induction body as [|stmt body IH]; intros rv0.
  - split; [intros _ ? ? ? ? [] | intros _; exists rv0; reflexivity].
  - cbn [for_each]. split.
    + intros (rv & H). apply bind_ok in H as (rv1 & H1 & H).
      intros stmt' var display ds [<- | Hin] Hd Hm.
      * destruct Hd as (receiver & args & keywords & -> & Hk).
        rewrite (@reagent_vars_body_define rv0 var display receiver args keywords Hk)
          in H1.
        pose proof (display_name_group _ Hm) as Hv.
        destruct (N.of_nat (String.length ds) <=? max_str_digits)%N; [reflexivity|].
        exfalso. destruct Hm as [Hm | Hm].
        -- rewrite Hm, Hv in H1. discriminate H1.
        -- destruct (RE_AMINE_match display) as [g|] eqn:EA.
           ++ rewrite (patterns_exclusive _ EA) in Hm. discriminate Hm.
           ++ rewrite Hm, Hv in H1. discriminate H1.
      * exact (proj1 (IH rv1) (ex_intro _ rv H) stmt' var display ds Hin Hd Hm).
    + intros Hall.
      assert (Hstep : exists rv1, reagent_vars_body rv0 stmt = Ok rv1).
      { destruct (reagent_vars_body_cases rv0 stmt)
          as [E | (var & display & cls & g & Hd & Hm & E)]; rewrite E; [eauto|].
        assert (Hg : RE_AMINE_match display = Some g \/ RE_SULF_match display = Some g)
          by (destruct Hm as [[_ Hm] | [_ [_ Hm]]]; [now left | now right]).
        pose proof (display_name_group _ Hg) as Hv.
        rewrite (Hall stmt var display g (or_introl eq_refl) Hd Hg) in Hv.
        destruct Hv as (n & -> & _). eexists. reflexivity. }
      destruct Hstep as (rv1 & ->). cbn [bind].
      apply IH. intros stmt' var display ds Hin. apply Hall. now right.
Qed.

(** X18. From the module [ast.parse] returned on, [parse_protocol] raises
    nothing but [ValueError]: for a module without [run], for a display name
    with more digits than [int()] converts, or for a destination label that
    is not a plate label.  No destination label is empty, so the [IndexError]
    of [w[0]] cannot occur.  It returns exactly when step 1 returns the
    reagent variables, which it does exactly when no matched display name has
    more than 4300 digits, and every destination label is then a plate
    label. *)
Theorem parse_protocol_raises_only_ValueError (tree_body : list node) :
  (forall e, parse_protocol tree_body = Raise e -> e = ValueError) /\
  (forall run_node,
      find_run tree_body = Some run_node ->
      (forall rv w, In w (dict_keys (dest_map_of run_node rv)) -> truthy w = true) /\
      ((exists rows, parse_protocol tree_body = Ok rows) <->
       exists rv,
         build_reagent_vars (body_of run_node) = Ok rv /\
         forall w, In w (dict_keys (dest_map_of run_node rv)) ->
                   plate_label w = true) /\
      ((exists rv, build_reagent_vars (body_of run_node) = Ok rv) <->
       forall stmt var display ds,
         In stmt (body_of run_node) -> defines stmt var display ->
         RE_AMINE_match display = Some ds \/ RE_SULF_match display = Some ds ->
         (N.of_nat (String.length ds) <=? max_str_digits)%N = true)).
Proof.
  split.
  - intros e. unfold parse_protocol.
    destruct (find_run tree_body) as [run_node|]; [|congruence].
    destruct (build_reagent_vars (body_of run_node)) as [rv|e'] eqn:Erv; cbn [bind].
    + intros H. apply emit_raise_inv in H as (_ & _ & _ & ->); [reflexivity|].
      apply dest_map_of_keys_truthy.
    + intros [= <-]. exact (build_reagent_vars_raises _ Erv).
  - intros run_node Hrun. split; [apply dest_map_of_keys_truthy|].
    split; [|apply for_each_reagent_vars_returns].
    unfold parse_protocol. rewrite Hrun. split.
    + intros (rows & Hrows). apply bind_ok in Hrows as (rv & Hrv & Hrows).
      exists rv. split; [exact Hrv|].
      intros w Hw. destruct (plate_label w) eqn:Ep; [reflexivity|].
      rewrite emit_raises in Hrows;
        [discriminate | apply dest_map_of_keys_truthy|].
      exists w. split; assumption.
    + intros (rv & -> & H). cbn [bind].
      destruct (emit_ok rv (build_source_well_map run_node) _ H) as (d & s & E).
      exists (d, s). exact E.
Qed.

(** ** From the enumerator and the analyzer to the merged plate map *)

Lemma NoDup_list_prod' (A B : Type) (xs : list A) (ys : list B) :
  NoDup xs -> NoDup ys -> NoDup (list_prod xs ys).
Proof.
  intros Hx Hy. induction Hx as [|x xs Hnotin _ IH]; [constructor|].
  simpl. apply NoDup_app; [| exact IH |].
  - apply NoDup_map_injective; [intros a b [= ->]; reflexivity | exact Hy].
  - intros p Hp Hq. apply in_map_iff in Hp as (y & <- & _).
    apply in_prod_iff in Hq as [Hq _]. contradiction.
Qed.

Lemma map_list_prod (A B C D : Type) (f : A -> C) (g : B -> D)
    (xs : list A) (ys : list B) :
  map (fun p => (f (fst p), g (snd p))) (list_prod xs ys)
  = list_prod (map f xs) (map g ys).
Proof.
  induction xs as [|x xs IH]; [reflexivity|]. simpl.
  rewrite map_app, IH, !map_map. reflexivity.
Qed.

Section Pipeline.

Variable Mol : Type.
Variable MolFromSmiles : string -> option Mol.
Variable MolToSmiles : Mol -> string.
Variable RunReactants : Mol -> Mol -> result (list (list Mol)).
Variable SanitizeMol : Mol -> option Mol.
Variable CombineMols : Mol -> Mol -> Mol.
Variable SanitizeMol_catchErrors : Mol -> Mol.

(** X19. From the enumerator and the analyzer to the merged plate map.
    When the reagent IDs are distinct within each of the two reagent lists,
    no two products of a complete enumeration share their pair of IDs; so for
    a product table that holds these IDs as text, row by row, the merge of a
    destination layout whose rows carry both numbers, each within [int64],
    has exactly one row per destination well, in the order of the layout. *)
Theorem distinct_ids_one_row_per_well
    (sulfonyls amines : list Reagent) (ys : list Yielded)
    (dest_rows : list DestRec) (df_prod : DataFrame) :
  enumerate_one_step MolFromSmiles MolToSmiles RunReactants SanitizeMol
                     CombineMols SanitizeMol_catchErrors sulfonyls amines
  = (ys, None) ->
  NoDup (map rid sulfonyls) -> NoDup (map rid amines) ->
  product_table df_prod ->
  map product_key (rows df_prod)
  = map (fun y => (StrV (rid (y_s y)), StrV (rid (y_a y)))) ys ->
  Forall both_numbers dest_rows ->
  Forall numbers_in_int64 dest_rows ->
  NoDup (map product_key (rows df_prod)) /\
  exists o,
    Merger.main (destination_layout dest_rows) df_prod = Ok o /\
    map (lookup "Well") (rows (merged o))
    = map (fun rec => text_cell (Analyzer.Well rec)) dest_rows.
Proof.
  intros Hrun HS HA Hprod Hread Hboth Hrange.
  assert (Hpairs : map (fun y => (y_s y, y_a y)) ys = list_prod sulfonyls amines).
  { unfold enumerate_one_step in Hrun.
    destruct (enumerate_sulfonyls MolFromSmiles MolToSmiles RunReactants SanitizeMol
                CombineMols SanitizeMol_catchErrors sulfonyls amines 0)
      as [[ys' e] pid'] eqn:E.
    simpl in Hrun. injection Hrun as -> ->.
    destruct (enumerate_sulfonyls_prefix _ _ _ _ _ _ _ _ _ E)
      as (_ & _ & rest & Hrest & Hnone).
    rewrite (Hnone eq_refl), app_nil_r in Hrest. symmetry. exact Hrest. }
  assert (Hkeys : NoDup (map product_key (rows df_prod))).
  { rewrite Hread.
    assert (E : map (fun y => (StrV (rid (y_s y)), StrV (rid (y_a y)))) ys
                = map (fun p => (StrV (rid (fst p)), StrV (rid (snd p))))
                      (list_prod sulfonyls amines)).
    { rewrite <- Hpairs, map_map. reflexivity. }
    rewrite E, (map_list_prod (fun s => StrV (rid s)) (fun a => StrV (rid a))).
    apply NoDup_list_prod';
      rewrite <- (map_map rid StrV);
      (apply NoDup_map_injective; [intros a b [= ->]; reflexivity | assumption]). }
  split; [exact Hkeys|].
  rewrite main_complete;
    [|apply destination_layout_complete; assumption | exact Hprod].
  eexists. split; [reflexivity|]. cbn [merged rows].
  rewrite merged_wells. cbn [destination_layout rows].
  rewrite flat_map_map'.
  rewrite (@flat_map_singletons _ _ _ (fun rec => text_cell (Analyzer.Well rec))).
  - reflexivity.
  - intros rec _.
    pose proof (partners_unique df_prod (layout_row rec) Hkeys) as Hle.
    destruct (partners _ _) as [|p [|q ps]]; [reflexivity | reflexivity | simpl in Hle; lia].
Qed.

End Pipeline.

Lemma distinct_ids_one_row_per_well_witness :
  exists ys o,
    Toy.enumerate_one_step [Toy.S1; Toy.S2] [Toy.A1; Toy.A2] = (ys, None) /\
    Merger.main
      (destination_layout [mkDestRec "A1" (Some 1%Z) (Some 2%Z) "A2" "B1";
                           mkDestRec "B1" (Some 2%Z) (Some 1%Z) "B2" "A1"])
      (products_table ys) = Ok o /\
    map (lookup "Well") (rows (merged o)) = [StrV "A1"; StrV "B1"].
Proof.
  destruct (Toy.enumerate_one_step [Toy.S1; Toy.S2] [Toy.A1; Toy.A2]) as [ys e] eqn:E.
  assert (He : e = None) by (vm_compute in E; congruence). subst e.
  destruct (@distinct_ids_one_row_per_well Toy.Mol Toy.MolFromSmiles Toy.MolToSmiles
              Toy.RunReactants Toy.SanitizeMol Toy.CombineMols
              Toy.SanitizeMol_catchErrors
              [Toy.S1; Toy.S2] [Toy.A1; Toy.A2] ys
              [mkDestRec "A1" (Some 1%Z) (Some 2%Z) "A2" "B1";
               mkDestRec "B1" (Some 2%Z) (Some 1%Z) "B2" "A1"]
              (products_table ys) E)
    as (_ & o & Ho & Hw).
  - repeat constructor; simpl; intuition discriminate.
  - repeat constructor; simpl; intuition discriminate.
  - apply products_table_is_product_table.
  - unfold products_table. cbn [rows]. rewrite map_map. reflexivity.
  - repeat constructor; discriminate.
  - repeat constructor; intros n [= <-]; reflexivity.
  - exists ys, o. split; [reflexivity|]. split; [exact Ho | exact Hw].
Defined.

(** ** The repository's protocol and the plate map of the enumerator *)

Lemma NoDup_map_on (A B : Type) (f : A -> B) (l : list A) :
  (forall x y, In x l -> In y l -> f x = f y -> x = y) ->
  NoDup l -> NoDup (map f l).
Proof.
  intros Hinj. induction 1 as [|x l Hx Hnd IH]; simpl; constructor.
  - intros H. apply in_map_iff in H as (y & Hy & Hin).
    apply Hinj in Hy; [subst; contradiction | now right | now left].
  - apply IH. intros a b Ha Hb. apply Hinj; now right.
Qed.

Lemma row_major_position_split (i : nat) :
  (i < 96)%nat ->
  exists q r, (q < 12 /\ r < 8 /\ i = 8 * q + r /\ row_major_position i = 12 * r + q)%nat.
Proof.
  intros H. exists (i / 8)%nat, (i mod 8)%nat.
  pose proof (Nat.div_mod_eq i 8). pose proof (Nat.mod_upper_bound i 8 ltac:(lia)).
  unfold row_major_position. repeat split; lia.
Qed.

Lemma dispensed_pair_injective (i j : nat) :
  (i < 96)%nat -> (j < 96)%nat ->
  (Some (Z.of_nat (row_major_position i / 8 + 1)),
   Some (Z.of_nat (8 - row_major_position i mod 8)))
  = (Some (Z.of_nat (row_major_position j / 8 + 1)),
     Some (Z.of_nat (8 - row_major_position j mod 8))) ->
  i = j.
Proof.
  intros Hi Hj H.
  destruct (row_major_position_split Hi) as (qi & ri & Bqi & Bri & -> & Ei).
  destruct (row_major_position_split Hj) as (qj & rj & Bqj & Brj & -> & Ej).
  assert (H1 : Z.of_nat (row_major_position (8 * qi + ri) / 8 + 1)
               = Z.of_nat (row_major_position (8 * qj + rj) / 8 + 1)) by congruence.
  assert (H2 : Z.of_nat (8 - row_major_position (8 * qi + ri) mod 8)
               = Z.of_nat (8 - row_major_position (8 * qj + rj) mod 8)) by congruence.
  clear H. revert H1 H2 Ei Ej.
  generalize (row_major_position (8 * qi + ri)) (row_major_position (8 * qj + rj)).
  intros ki kj H1 H2 Ei Ej.
  pose proof (Nat.div_mod_eq ki 8) as Di.
  pose proof (Nat.mod_upper_bound ki 8 ltac:(lia)) as Mi.
  pose proof (Nat.div_mod_eq kj 8) as Dj.
  pose proof (Nat.mod_upper_bound kj 8 ltac:(lia)) as Mj.
  revert H1 H2 Di Mi Dj Mj.
  generalize (ki / 8)%nat (ki mod 8)%nat (kj / 8)%nat (kj mod 8)%nat.
  intros. lia.
Qed.

Lemma dispensed_pair_differs (i : nat) :
  (i < 96)%nat ->
  (Some (Z.of_nat (row_major_position i / 8 + 1)),
   Some (Z.of_nat (8 - row_major_position i mod 8)))
  <> (Some (Z.of_nat (i / 8 + 1)), Some (Z.of_nat (i mod 8 + 1))).
Proof.
  intros Hi H.
  destruct (row_major_position_split Hi) as (q & r & Hq & Hr & E & Ek).
  assert (H1 : Z.of_nat (row_major_position i / 8 + 1) = Z.of_nat (i / 8 + 1))
    by congruence.
  assert (H2 : Z.of_nat (8 - row_major_position i mod 8) = Z.of_nat (i mod 8 + 1))
    by congruence.
  clear H.
  assert (Eq : (i / 8 = q)%nat) by (subst i; symmetry; apply Nat.div_unique with r; lia).
  assert (Er : (i mod 8 = r)%nat) by (subst i; symmetry; apply Nat.mod_unique with q; lia).
  rewrite Eq in H1. rewrite Er in H2.
  revert H1 H2 Ek. generalize (row_major_position i). intros k H1 H2 Ek.
  pose proof (Nat.div_mod_eq k 8) as Hk. pose proof (Nat.mod_upper_bound k 8 ltac:(lia)) as Bk.
  revert H1 H2 Hk Bk. generalize (k / 8)%nat (k mod 8)%nat. intros. lia.
Qed.

(** X20. On [one-step-dispense.py] the analyzer returns one row for each of
    the 96 wells, in fill order.  The protocol fills the plate row by row:
    the well with row-major position [k] receives sulfonyl chloride
    [k div 8 + 1] and amine [8 - k mod 8], so each of the 12 x 8 pairs is
    dispensed exactly once.  This is not the arrangement of the plate map of
    the enumerator, which puts the product of sulfonyl [i div 8 + 1] and
    amine [i mod 8 + 1] at fill position [i]: the two disagree on every
    well. *)
Theorem dispense_protocol_layout :
  exists dest_rows source_rows,
    parse_protocol Dispense.tree_body = Ok (dest_rows, source_rows) /\
    map (fun rec => (Analyzer.Well rec, Sulfonyl_chloride_no rec, Amine_no rec)) dest_rows
    = map (fun i =>
             let k := row_major_position i in
             (Enum96.Well (coordinate_of row_labels_96 12 i),
              Some (Z.of_nat (k / 8 + 1)), Some (Z.of_nat (8 - k mod 8))))
          (seq 0 96) /\
    NoDup (map (fun rec => (Sulfonyl_chloride_no rec, Amine_no rec)) dest_rows) /\
    (forall i rec,
        nth_error dest_rows i = Some rec ->
        (Sulfonyl_chloride_no rec, Amine_no rec)
        <> (Some (Z.of_nat (i / 8 + 1)), Some (Z.of_nat (i mod 8 + 1)))).
Proof.
  destruct (parse_protocol Dispense.tree_body) as [[dest_rows source_rows]|e] eqn:E;
    [|vm_compute in E; discriminate].
  exists dest_rows, source_rows. split; [reflexivity|].
  assert (Hrows :
    map (fun rec => (Analyzer.Well rec, Sulfonyl_chloride_no rec, Amine_no rec)) dest_rows
    = map (fun i =>
             let k := row_major_position i in
             (Enum96.Well (coordinate_of row_labels_96 12 i),
              Some (Z.of_nat (k / 8 + 1)), Some (Z.of_nat (8 - k mod 8))))
          (seq 0 96)).
  { vm_compute in E. injection E as <- _. vm_compute. reflexivity. }
  split; [exact Hrows|].
  assert (Hpairs :
    map (fun rec => (Sulfonyl_chloride_no rec, Amine_no rec)) dest_rows
    = map (fun i => let k := row_major_position i in
                    (Some (Z.of_nat (k / 8 + 1)), Some (Z.of_nat (8 - k mod 8))))
          (seq 0 96)).
  { rewrite <- (map_map (fun rec => (Analyzer.Well rec, Sulfonyl_chloride_no rec, Amine_no rec))
                        (fun t => (snd (fst t), snd t))), Hrows, map_map.
    reflexivity. }
  split.
  - rewrite Hpairs. apply NoDup_map_on; [|apply seq_NoDup].
    intros i j Hi Hj H. apply in_seq in Hi, Hj. cbv zeta in H.
    apply dispensed_pair_injective; [lia | lia | exact H].
  - intros i rec Hi.
    assert (Hn : nth_error (map (fun rec => (Sulfonyl_chloride_no rec, Amine_no rec))
                                dest_rows) i
                 = Some (Sulfonyl_chloride_no rec, Amine_no rec))
      by (rewrite nth_error_map, Hi; reflexivity).
    rewrite Hpairs, nth_error_map, nth_error_seq in Hn.
    destruct (Nat.ltb_spec i 96) as [Hlt|]; [|discriminate].
    simpl in Hn. injection Hn as <- <-.
    apply dispensed_pair_differs, Hlt.
Qed.

(** ** Destination lists are resolved after the whole body is read *)

Lemma dest_lists_body_nonempty (dl : dict (list string)) (stmt : node) :
  (forall id ws, dict_get id dl = Some ws -> ws <> []) ->
  forall id ws, dict_get id (dest_lists_body dl stmt) = Some ws -> ws <> [].
Proof.
  intros Hdl id ws. unfold dest_lists_body. split_shape; try apply Hdl;
    match goal with
    | |- context [literal_wells ?elts] =>
        destruct (literal_wells elts) as [|w0 ws0] eqn:E; [apply Hdl|];
        match goal with
        | |- context [dict_set ?var _ _] =>
            destruct (String.eqb_spec id var) as [->|Hne];
            [rewrite dict_get_set_same; intros [= <-]; discriminate
            |rewrite dict_get_set_other by exact Hne; apply Hdl]
        end
    end.
Qed.

Lemma build_dest_lists_nonempty (body : list node) (id : string) (ws : list string) :
  dict_get id (build_dest_lists body) = Some ws -> ws <> [].
Proof.
  unfold build_dest_lists. revert id ws.
  induction body as [|stmt body IH] using rev_ind; [discriminate|].
  rewrite fold_left_app. simpl. apply dest_lists_body_nonempty, IH.
Qed.

Lemma build_transfers_grows (dl : dict (list string)) (body : list node)
    (ts : list Transfer) (t : Transfer) :
  In t ts -> In t (fold_left (transfers_body dl) body ts).
Proof.
  revert ts. induction body as [|stmt body IH]; intros ts H; [exact H|].
  simpl. apply IH.
  destruct (transfers_body_cases dl ts stmt) as [-> | (src & ws & -> & _)];
    [exact H | apply in_or_app; now left].
Qed.

(** X21. A destination list variable is resolved against the whole body of
    [run], not against the statements before the transfer: a transfer whose
    destination is the name of a list variable is recovered with the wells
    that variable holds once every statement of the body has been read,
    wherever the transfer stands -- also before the assignment, and also
    when a later assignment replaces the list. *)
Theorem transfer_uses_final_list :
  forall (name : string) (args : node) (pre post rest : list node)
         (receiver amount : node) (more : list node)
         (keywords : list (option string * node))
         (src var : string) (wells : list string),
    let stmt :=
      Expr (Call (Attribute receiver "transfer")
                 (amount :: Subscript (Name "source_plate") (Constant (CStr src))
                         :: Name var :: more)
                 keywords) in
    let run_node := FunctionDef name args (pre ++ stmt :: post) rest in
    truthy src = true ->
    dict_get var (build_dest_lists (pre ++ stmt :: post)) = Some wells ->
    In (mkTransfer src wells) (recovered_transfers run_node).
Proof.
  intros name args pre post rest receiver amount more keywords src var wells
         stmt run_node Hsrc Hvar.
  pose proof (build_dest_lists_nonempty _ _ Hvar) as Hne.
  unfold recovered_transfers, build_transfers. cbn [body_of run_node].
  set (dl := build_dest_lists (pre ++ stmt :: post)) in *.
  rewrite fold_left_app. cbn [fold_left].
  apply build_transfers_grows.
  unfold stmt. cbn [transfers_body].
  change (String.eqb "transfer" "transfer") with true. cbv iota.
  cbn [_subscript_well]. unfold not_source_well. cbn [fst snd truthy_opt].
  change (String.eqb "source_plate" "source_plate") with true.
  rewrite Hsrc. cbn [negb orb]. rewrite Hvar.
  destruct wells as [|w ws]; [congruence|].
  apply in_or_app. right. now left.
Qed.

Lemma transfer_uses_final_list_witness :
  In (mkTransfer "A1" ["C3"])
     (recovered_transfers
        (FunctionDef "run" (Other [])
           [Example.dest_list "wells" ["A1"; "A2"];
            Example.transfer_to "A1" (Name "wells");
            Example.dest_list "wells" ["C3"]] [])).
Proof.
  apply (@transfer_uses_final_list "run" (Other [])
           [Example.dest_list "wells" ["A1"; "A2"]]
           [Example.dest_list "wells" ["C3"]] []
           (Name "left_pipette") (Constant (CNum 5)) [] []
           "A1" "wells" ["C3"]); reflexivity.
Defined.
